(** * Movement-to-password derivation pipeline (src/app.py)

    A shallow embedding of [MovementPasswordGenerator] and of the parts of
    the Python runtime it relies on (strings of code points, the [re]
    matcher, [random] / [secrets] / [datetime] as an explicit world that is
    threaded through every call, exceptions as an outcome type), followed by
    the properties of the pipeline. *)

From Stdlib Require Import NArith ZArith List Lia Bool.
From Stdlib Require Ascii String.
From stdpp Require Import base option list gmap strings.

Local Open Scope N_scope.

(** ** Python strings

    A Python [str] is a sequence of Unicode code points; [len] counts code
    points, slicing is [take] / [drop]. *)

Abbreviation pystr := (list N).

(** ASCII literal of the source, as code points. *)
Definition lit (s : string) : pystr :=
  map Ascii.N_of_ascii (String.list_ascii_of_string s).

Definition len (s : pystr) : N := N.of_nat (length s).

(** [len(l)] of a list *)
Definition len_list {A} (l : list A) : N := N.of_nat (length l).

Fixpoint pystr_eqb (a b : pystr) : bool :=
  match a, b with
  | [], [] => true
  | x :: a', y :: b' => (x =? y) && pystr_eqb a' b'
  | _, _ => false
  end.

Fixpoint startswith (p s : pystr) : bool :=
  match p, s with
  | [], _ => true
  | x :: p', y :: s' => (x =? y) && startswith p' s'
  | _ :: _, [] => false
  end.

(** [sub in s] *)
Fixpoint contains (sub s : pystr) : bool :=
  startswith sub s ||
  match s with
  | [] => false
  | _ :: s' => contains sub s'
  end.

Definition endswith (suffix s : pystr) : bool :=
  startswith (rev suffix) (rev s).

Definition mem_char (c : N) (cs : pystr) : bool := existsb (N.eqb c) cs.

Definition mem_str (s : pystr) (l : list pystr) : bool := existsb (pystr_eqb s) l.

(** [sep.join(parts)] *)
Fixpoint join (sep : pystr) (parts : list pystr) : pystr :=
  match parts with
  | [] => []
  | [p] => p
  | p :: ps => p ++ sep ++ join sep ps
  end.

(** Non-ASCII code points the source itself writes. *)
Module U.
Definition cent : N := 162.
Definition yen : N := 165.
Definition micro : N := 181.
Definition n_tilde : N := 241.
Definition thorn : N := 254.
Definition r_caron : N := 345.
Definition Theta : N := 920.
Definition Sigma : N := 931.
Definition final_sigma : N := 962.
Definition sigma : N := 963.
Definition Psi : N := 936.
Definition Omega : N := 937.
Definition alpha : N := 945.
Definition beta : N := 946.
Definition gamma : N := 947.
Definition delta : N := 948.
Definition epsilon : N := 949.
Definition cyr_em : N := 1084.
Definition up_arrow : N := 8593.
Definition right_arrow : N := 8594.
Definition down_arrow : N := 8595.
Definition updown_arrow : N := 8597.
Definition acw_arrow : N := 8634.
Definition cw_arrow : N := 8635.
Definition n_ary_sum : N := 8721.
Definition sine_wave : N := 8767.
End U.

(** ** Exceptions

    The exception classes the repository names, and [OtherError] for any
    other class, by its name.  [RuntimeError] stands for the plain
    [Exception] that the source raises with a message. *)

Inductive exn :=
| KeyError (key : pystr)
| IndexError (msg : pystr)
| ValueError (msg : pystr)
| UnicodeEncodeError (msg : pystr)
| RuntimeError (msg : pystr)
| OtherError (kind msg : pystr).

(** [str(e)] *)
Definition str_of_exn (e : exn) : pystr :=
  match e with
  | KeyError k => lit "'" ++ k ++ lit "'"
  | IndexError m | ValueError m | UnicodeEncodeError m | RuntimeError m => m
  | OtherError _ m => m
  end.

Inductive outcome (A : Type) :=
| Ok (a : A)
| Raise (e : exn).
Arguments Ok {A} a.
Arguments Raise {A} e.

(** ** The runtime tables

    The Unicode character database, [hashlib], [str.format] and
    [time.sleep] are not part of the repository.  ASCII is written out
    below; for the remaining code points the tables are taken as they are,
    except for the code points of module [U], whose entries are fixed
    (they decide what the generator's own markers do), and for the
    surrogates, which belong to no class and have no case.  [str.format]
    is written out for templates of literal text and plain [{name}]
    fields, [time.sleep] for the lengths the clock can count, and the
    truncated float product for the levels and lengths where it is the
    integer quotient; beyond that they are taken as they are. *)

Record Runtime := mkRuntime {
  uc_lower : N -> pystr;            (* str.lower() of one code point *)
  uc_upper : N -> pystr;            (* str.upper() of one code point *)
  uc_isalpha : N -> bool;           (* str.isalpha() *)
  uc_isdecimal : N -> bool;         (* what \d matches *)
  uc_isword : N -> bool;            (* what \w matches *)
  uc_isspace : N -> bool;           (* what \s and str.split() use *)
  uc_caseless_eq : N -> N -> bool;  (* re.IGNORECASE comparison *)
  uc_iscased : N -> bool;           (* the property Cased *)
  uc_iscaseignorable : N -> bool;   (* the property Case_Ignorable *)
  sha256 : pystr -> N;              (* the digest of a byte string, as a number *)
  md5 : pystr -> N;
  (* template.format on the components, for a template with a field that
     is not a plain name or with an unpaired brace *)
  str_format : pystr -> gmap pystr pystr -> outcome pystr;
  (* the exception of time.sleep for a length beyond the range of the
     clock, None when it sleeps *)
  sleep_beyond : Z -> option exn;
  (* int(n * level) in floating point, for the level p / 100 *)
  float_scale : N -> N -> N
}.

Record CharInfo := mkCharInfo {
  ci_lower : N; ci_upper : N; ci_alpha : bool
}.

(** The entries of the database for the code points of module [U]
    (none is a decimal digit or white space; the letters are word
    characters, the symbols are not). *)
Definition known_char (c : N) : option CharInfo :=
  if c =? U.cent then Some (mkCharInfo c c false)
  else if c =? U.yen then Some (mkCharInfo c c false)
  else if c =? U.micro then Some (mkCharInfo c 924 true)
  else if c =? U.n_tilde then Some (mkCharInfo c 209 true)
  else if c =? U.thorn then Some (mkCharInfo c 222 true)
  else if c =? U.r_caron then Some (mkCharInfo c 344 true)
  else if c =? U.Theta then Some (mkCharInfo 952 c true)
  else if c =? U.Sigma then Some (mkCharInfo 963 c true)
  else if c =? U.Psi then Some (mkCharInfo 968 c true)
  else if c =? U.Omega then Some (mkCharInfo 969 c true)
  else if (U.alpha <=? c) && (c <=? U.epsilon) then Some (mkCharInfo c (c - 32) true)
  else if c =? U.cyr_em then Some (mkCharInfo c 1052 true)
  else if mem_char c [U.up_arrow; U.right_arrow; U.down_arrow; U.updown_arrow;
                      U.acw_arrow; U.cw_arrow; U.n_ary_sum; U.sine_wave]
       then Some (mkCharInfo c c false)
  else None.

Definition hex_digit (n : N) : N :=
  if n <? 10 then 48 + n else 87 + n.

Definition is_surrogate (c : N) : bool := (55296 <=? c) && (c <=? 57343).
Definition is_ascii_upper (c : N) : bool := (65 <=? c) && (c <=? 90).
Definition is_ascii_lower (c : N) : bool := (97 <=? c) && (c <=? 122).
Definition is_ascii_digit (c : N) : bool := (48 <=? c) && (c <=? 57).
(* space, \t \n \v \f \r and the separators 0x1c..0x1f *)
Definition is_ascii_space (c : N) : bool :=
  (c =? 32) || ((9 <=? c) && (c <=? 13)) || ((28 <=? c) && (c <=? 31)).

Section Chars.
Variable rt : Runtime.

Definition char_lower (c : N) : pystr :=
  if c <? 128 then [if is_ascii_upper c then c + 32 else c]
  else if is_surrogate c then [c]
  else match known_char c with
       | Some i => [ci_lower i]
       | None => uc_lower rt c
       end.

Definition char_upper (c : N) : pystr :=
  if c <? 128 then [if is_ascii_lower c then c - 32 else c]
  else if is_surrogate c then [c]
  else match known_char c with
       | Some i => [ci_upper i]
       | None => uc_upper rt c
       end.

Definition char_isalpha (c : N) : bool :=
  if c <? 128 then is_ascii_upper c || is_ascii_lower c
  else if is_surrogate c then false
  else match known_char c with
       | Some i => ci_alpha i
       | None => uc_isalpha rt c
       end.

Definition char_isdecimal (c : N) : bool :=
  if c <? 128 then is_ascii_digit c
  else if is_surrogate c then false
  else match known_char c with
       | Some _ => false
       | None => uc_isdecimal rt c
       end.

Definition char_isword (c : N) : bool :=
  if c <? 128
  then is_ascii_upper c || is_ascii_lower c || is_ascii_digit c || (c =? 95)
  else if is_surrogate c then false
  else match known_char c with
       | Some i => ci_alpha i
       | None => uc_isword rt c
       end.

Definition char_isspace (c : N) : bool :=
  if c <? 128 then is_ascii_space c
  else if is_surrogate c then false
  else match known_char c with
       | Some _ => false
       | None => uc_isspace rt c
       end.

(** Comparison of a pattern character with a subject character under
    [re.IGNORECASE]. *)
Definition char_caseless_eq (p c : N) : bool :=
  if (p <? 128) && (c <? 128)
  then (if is_ascii_upper p then p + 32 else p) =? (if is_ascii_upper c then c + 32 else c)
  else if is_surrogate p || is_surrogate c then p =? c
  else (p =? c) || uc_caseless_eq rt p c.

(** [hexdigest()]: the digest in lower-case hex digits, 64 for SHA-256
    and 32 for MD5. *)
Fixpoint hex_digits (k : nat) (n : N) (acc : pystr) : pystr :=
  match k with
  | O => acc
  | S k' => hex_digits k' (n / 16) (hex_digit (n mod 16) :: acc)
  end.

Definition sha256_hexdigest (bytes : pystr) : pystr := hex_digits 64 (sha256 rt bytes) [].
Definition md5_hexdigest (bytes : pystr) : pystr := hex_digits 32 (md5 rt bytes) [].

(** The properties Cased and Case_Ignorable, which decide the lower case
    of a capital sigma. *)
Definition char_iscased (c : N) : bool :=
  if c <? 128 then is_ascii_upper c || is_ascii_lower c
  else if is_surrogate c then false
  else match known_char c with
       | Some i => ci_alpha i
       | None => uc_iscased rt c
       end.

(* ' . : ^ ` *)
Definition char_iscaseignorable (c : N) : bool :=
  if c <? 128 then mem_char c [39; 46; 58; 94; 96]
  else if is_surrogate c then false
  else match known_char c with
       | Some _ => false
       | None => uc_iscaseignorable rt c
       end.

(** The first character of [s] that is not case-ignorable is cased. *)
Fixpoint cased_ahead (s : pystr) : bool :=
  match s with
  | [] => false
  | c :: s' => if char_iscaseignorable c then cased_ahead s' else char_iscased c
  end.

(** A capital sigma is final when a cased letter precedes it and none
    follows it, case-ignorable characters apart; [before] is the text
    before it, last character first. *)
Definition final_sigma (before after : pystr) : bool :=
  cased_ahead before && negb (cased_ahead after).

(** [s.lower()]: character by character, except that a final capital sigma
    becomes the final small sigma. *)
Fixpoint lower_from (before : pystr) (s : pystr) : pystr :=
  match s with
  | [] => []
  | c :: s' =>
      (if c =? U.Sigma
       then [if final_sigma before s' then U.final_sigma else U.sigma]
       else char_lower c)
      ++ lower_from (c :: before) s'
  end.

Definition lower (s : pystr) : pystr := lower_from [] s.
Definition upper (s : pystr) : pystr := flat_map char_upper s.

(** [s.isalpha()]: non-empty and every character alphabetic. *)
Definition isalpha (s : pystr) : bool :=
  match s with
  | [] => false
  | _ => forallb char_isalpha s
  end.

(** [s.split()]: the maximal runs of non-space characters. *)
Fixpoint split_ws_aux (cur : pystr) (s : pystr) : list pystr :=
  match s with
  | [] => match cur with [] => [] | _ => [rev cur] end
  | c :: s' =>
      if char_isspace c
      then match cur with
           | [] => split_ws_aux [] s'
           | _ => rev cur :: split_ws_aux [] s'
           end
      else split_ws_aux (c :: cur) s'
  end.

Definition split_ws (s : pystr) : list pystr := split_ws_aux [] s.
End Chars.

(** ** Exceptions and the world

    [random], [secrets] and the iteration order of [set] objects draw from
    one stream of outcomes; [datetime.now()] reads the next clock value.  A
    computation takes the world and returns a value or a raised exception,
    with the world it leaves behind. *)

Record DateTime := mkDateTime {
  raw_hour : N; raw_minute : N; raw_second : N; raw_microsecond : N;
  raw_weekday : N; raw_day : N; raw_month : N
}.

(** The fields of a [datetime], each in its range. *)
Definition dt_hour (d : DateTime) : N := raw_hour d mod 24.
Definition dt_minute (d : DateTime) : N := raw_minute d mod 60.
Definition dt_second (d : DateTime) : N := raw_second d mod 60.
Definition dt_microsecond (d : DateTime) : N := raw_microsecond d mod 1000000.
Definition dt_weekday (d : DateTime) : N := raw_weekday d mod 7.
Definition dt_day (d : DateTime) : N := 1 + raw_day d mod 31.
Definition dt_month (d : DateTime) : N := 1 + raw_month d mod 12.

Record World := mkWorld {
  rng : nat -> N;   rng_pos : nat;
  clock : nat -> DateTime;   clock_pos : nat
}.

Definition M (A : Type) : Type := World -> outcome A * World.

Definition ret {A} (a : A) : M A := fun w => (Ok a, w).

Definition raise {A} (e : exn) : M A := fun w => (Raise e, w).

Definition bind {A B} (m : M A) (f : A -> M B) : M B :=
  fun w => match m w with
           | (Ok a, w') => f a w'
           | (Raise e, w') => (Raise e, w')
           end.

(** [try: body  except Exception as e: handler(e)] *)
Definition try_except {A} (body : M A) (handler : exn -> M A) : M A :=
  fun w => match body w with
           | (Ok a, w') => (Ok a, w')
           | (Raise e, w') => handler e w'
           end.

Notation "'let*' x := c1 'in' c2" := (bind c1 (fun x => c2))
  (at level 10, x pattern, c1 at level 100, c2 at level 200).

Definition draw : M N :=
  fun w => (Ok (rng w (rng_pos w)),
            mkWorld (rng w) (S (rng_pos w)) (clock w) (clock_pos w)).

Definition datetime_now : M DateTime :=
  fun w => (Ok (clock w (clock_pos w)),
            mkWorld (rng w) (rng_pos w) (clock w) (S (clock_pos w))).

(** [random.random() < percent / 100]: only the outcome of the comparison
    matters, and either outcome can be drawn. *)
Definition random_below (percent : N) : M bool :=
  let* r := draw in ret (r mod 100 <? percent).

(** [random.randint(0, 9)] *)
Definition random_digit : M N :=
  let* r := draw in ret (r mod 10).

(** [random.choice(l)] *)
Definition random_choice {A} (l : list A) : M A :=
  let* r := draw in
  match l !! N.to_nat (r mod N.of_nat (length l)) with
  | Some x => ret x
  | None => raise (IndexError (lit "Cannot choose from an empty sequence"))
  end.

(** [secrets.token_hex(n)]: [n] random bytes, two lower-case hex digits each. *)
Fixpoint token_hex (n : nat) : M pystr :=
  match n with
  | O => ret []
  | S n' =>
      let* r := draw in
      let* rest := token_hex n' in
      ret (hex_digit ((r mod 256) / 16) :: hex_digit (r mod 16) :: rest)
  end.

(** Duplicates removed, first occurrences kept. *)
Fixpoint dedup_str (l : list pystr) : list pystr :=
  match l with
  | [] => []
  | x :: l' => x :: List.filter (fun y => negb (pystr_eqb x y)) (dedup_str l')
  end.

(** Some order of the elements: one draw selects each next element. *)
Fixpoint shuffle {A} (fuel : nat) (l : list A) : M (list A) :=
  match fuel with
  | O => ret []
  | S fuel' =>
      match l with
      | [] => ret []
      | _ :: _ =>
          let* r := draw in
          let i := N.to_nat (r mod N.of_nat (length l)) in
          match l !! i with
          | Some x => let* rest := shuffle fuel' (delete i l) in ret (x :: rest)
          | None => ret []
          end
      end
  end.

(** Iterating a [set] built from the elements of [l] (as [list(set(l))]
    and [for x in s] do): each element once, in an order the hash table
    decides. *)
Definition iter_set (l : list pystr) : M (list pystr) :=
  let d := dedup_str l in shuffle (length d) d.

(** [str(n)] for a non-negative integer. *)
Fixpoint str_of_N_aux (fuel : nat) (n : N) (acc : pystr) : pystr :=
  match fuel with
  | O => acc
  | S fuel' =>
      let acc' := (48 + n mod 10) :: acc in
      if n <? 10 then acc' else str_of_N_aux fuel' (n / 10) acc'
  end.

Definition str_of_N (n : N) : pystr :=
  str_of_N_aux (S (N.to_nat (N.log2 n))) n [].

(** [s.encode()]: UTF-8; a surrogate code point cannot be encoded. *)
Definition utf8_char (c : N) : option pystr :=
  if c <? 128 then Some [c]
  else if c <? 2048 then Some [192 + c / 64; 128 + c mod 64]
  else if (55296 <=? c) && (c <=? 57343) then None
  else if c <? 65536 then Some [224 + c / 4096; 128 + (c / 64) mod 64; 128 + c mod 64]
  else Some [240 + c / 262144; 128 + (c / 4096) mod 64; 128 + (c / 64) mod 64; 128 + c mod 64].

Fixpoint utf8_encode (s : pystr) : M pystr :=
  match s with
  | [] => ret []
  | c :: s' =>
      match utf8_char c with
      | Some b => let* rest := utf8_encode s' in ret (b ++ rest)
      | None => raise (UnicodeEncodeError (lit "surrogates not allowed"))
      end
  end.

(** ** The [re] matcher

    Patterns are written as syntax trees; matching is the backtracking
    search of [re]: alternatives left to right, repetitions greedy. *)

Inductive cclass :=
| CWord                     (* \w *)
| CSpace                    (* \s *)
| CDigit                    (* \d *)
| CDot                      (* .  *)
| CChars (cs : pystr)       (* [...] listing characters *)
| CRange (lo hi : N).       (* [lo-hi] *)

Inductive regex :=
| REps
| RChar (c : N)
| RClass (k : cclass)
| RBound                          (* \b *)
| RCat (a b : regex)
| RAlt (a b : regex)
| RStar (a : regex)               (* a*, greedy *)
| RGroup (i : nat) (a : regex)    (* capturing group number i *)
| RBackref (i : nat).             (* \i *)

Fixpoint RStr (s : pystr) : regex :=
  match s with
  | [] => REps
  | [c] => RChar c
  | c :: s' => RCat (RChar c) (RStr s')
  end.

Definition RLit (s : string) : regex := RStr (lit s).
Definition RPlus (a : regex) : regex := RCat a (RStar a).
Definition ROpt (a : regex) : regex := RAlt a REps.

(** a{0,n} *)
Fixpoint RUpTo (n : nat) (a : regex) : regex :=
  match n with
  | O => REps
  | S n' => ROpt (RCat a (RUpTo n' a))
  end.

Fixpoint RSeq (l : list regex) : regex :=
  match l with
  | [] => REps
  | [a] => a
  | a :: l' => RCat a (RSeq l')
  end.

(** (w1|w2|...) without the group *)
Fixpoint RAny (l : list regex) : regex :=
  match l with
  | [] => RClass (CChars [])
  | [a] => a
  | a :: l' => RAlt a (RAny l')
  end.

Definition RWords (l : list string) : regex := RAny (map RLit l).

(** The position in the subject: the character before it and what follows. *)
Record cursor := mkCursor { prev : option N; rest : pystr }.

Definition captures := list (nat * pystr).

Fixpoint capture (i : nat) (caps : captures) : option pystr :=
  match caps with
  | [] => None
  | (j, s) :: caps' => if Nat.eqb i j then Some s else capture i caps'
  end.

Section Regex.
Variable rt : Runtime.
Variable ignorecase : bool.

Definition class_matches (k : cclass) (c : N) : bool :=
  match k with
  | CWord => char_isword rt c
  | CSpace => char_isspace rt c
  | CDigit => char_isdecimal rt c
  | CDot => negb (c =? 10)
  | CChars cs => mem_char c cs
  | CRange lo hi => (lo <=? c) && (c <=? hi)
  end.

Definition char_matches (p c : N) : bool :=
  if ignorecase then char_caseless_eq rt p c else p =? c.

Definition is_word_at (o : option N) : bool :=
  match o with
  | Some c => char_isword rt c
  | None => false
  end.

Definition step_char (cur : cursor) (ok : N -> bool) : option cursor :=
  match rest cur with
  | c :: s' => if ok c then Some (mkCursor (Some c) s') else None
  | [] => None
  end.

Fixpoint advance (n : nat) (cur : cursor) : cursor :=
  match n with
  | O => cur
  | S n' =>
      match rest cur with
      | c :: s' => advance n' (mkCursor (Some c) s')
      | [] => cur
      end
  end.

(** [rmatch r cur caps k]: match [r] at [cur], then continue with [k];
    [None] makes the caller backtrack.  A repetition gives up an
    iteration that consumed nothing. *)
Fixpoint rmatch {R} (r : regex) (cur : cursor) (caps : captures)
    (k : cursor -> captures -> option R) : option R :=
  match r with
  | REps => k cur caps
  | RChar p =>
      match step_char cur (char_matches p) with
      | Some cur' => k cur' caps
      | None => None
      end
  | RClass cl =>
      match step_char cur (class_matches cl) with
      | Some cur' => k cur' caps
      | None => None
      end
  | RBound =>
      if xorb (is_word_at (prev cur)) (is_word_at (head (rest cur)))
      then k cur caps else None
  | RCat a b => rmatch a cur caps (fun cur' caps' => rmatch b cur' caps' k)
  | RAlt a b =>
      match rmatch a cur caps k with
      | Some x => Some x
      | None => rmatch b cur caps k
      end
  | RStar a =>
      (fix loop (n : nat) (cur : cursor) (caps : captures) : option R :=
         match n with
         | O => k cur caps
         | S n' =>
             match rmatch a cur caps
                     (fun cur' caps' =>
                        if (length (rest cur') <? length (rest cur))%nat
                        then loop n' cur' caps' else None) with
             | Some x => Some x
             | None => k cur caps
             end
         end) (length (rest cur)) cur caps
  | RGroup i a =>
      rmatch a cur caps
        (fun cur' caps' =>
           k cur' ((i, take (length (rest cur) - length (rest cur')) (rest cur)) :: caps'))
  | RBackref i =>
      match capture i caps with
      | Some s =>
          if startswith s (rest cur) then k (advance (length s) cur) caps else None
      | None => None
      end
  end.

(** One match starting at [cur]: where it ends and what the groups hold. *)
Definition match_here (r : regex) (cur : cursor) : option (cursor * captures) :=
  rmatch r cur [] (fun cur' caps => Some (cur', caps)).

Definition matched_text (cur cur' : cursor) : pystr :=
  take (length (rest cur) - length (rest cur')) (rest cur).

(** All non-overlapping matches, left to right: the matched text and the
    groups of each. *)
Fixpoint scan (fuel : nat) (r : regex) (cur : cursor) : list (pystr * captures) :=
  match fuel with
  | O => []
  | S fuel' =>
      match match_here r cur with
      | Some (cur', caps) =>
          (matched_text cur cur', caps) ::
          (if (length (rest cur') <? length (rest cur))%nat
           then scan fuel' r cur'
           else match rest cur with
                | c :: s' => scan fuel' r (mkCursor (Some c) s')
                | [] => []
                end)
      | None =>
          match rest cur with
          | c :: s' => scan fuel' r (mkCursor (Some c) s')
          | [] => []
          end
      end
  end.

Definition finditer (r : regex) (s : pystr) : list (pystr * captures) :=
  scan (S (length s)) r (mkCursor None s).

Definition group (i : nat) (m : pystr * captures) : pystr :=
  default [] (capture i (snd m)).

(** [re.findall] for a pattern without a group, with one group, and with
    two groups. *)
Definition findall0 (r : regex) (s : pystr) : list pystr :=
  map fst (finditer r s).
Definition findall1 (r : regex) (s : pystr) : list pystr :=
  map (group 1) (finditer r s).
Definition findall2 (r : regex) (s : pystr) : list (pystr * pystr) :=
  map (fun m => (group 1 m, group 2 m)) (finditer r s).

(** [re.search(r, s)] as a truth value. *)
Definition search (r : regex) (s : pystr) : bool :=
  match finditer r s with
  | [] => false
  | _ :: _ => true
  end.
End Regex.

(** ** Data of the pipeline

    The dictionaries of the source are records; a key that the source
    reads with [.get(key, default)] is an optional field ([None]: the key
    is absent). *)

Record SemanticElements := mkSemanticElements {
  actions : list pystr;
  descriptors : list pystr;
  qualifiers : list pystr;
  full_text : pystr
}.

Record MovementEntropy := mkMovementEntropy {
  pattern_hash : option pystr;
  complexity : option pystr;
  movement_types : option N;
  me_signature : option pystr
}.

Record BehavioralSignature := mkBehavioralSignature {
  complexity_score : option pystr;
  bs_signature : option pystr;
  confidence : option pystr;
  features_detected : option N
}.

Record ContextualModifiers := mkContextualModifiers {
  temporal : pystr;
  movement_entropy : option MovementEntropy;
  behavioral_signature : option BehavioralSignature;
  session : pystr;
  compound_modifier : option pystr
}.

(** [d.get(outer, {}).get(inner, dflt)] *)
Definition get2 {A B} (outer : option A) (inner : A -> option B) (dflt : B) : B :=
  match outer with
  | Some d => default dflt (inner d)
  | None => dflt
  end.

(** [d[key]] *)
Definition getitem {A} (key : string) (o : option A) : M A :=
  match o with
  | Some v => ret v
  | None => raise (KeyError (lit key))
  end.

(** [s[0]] *)
Definition first_char (s : pystr) : M N :=
  match s with
  | c :: _ => ret c
  | [] => raise (IndexError (lit "string index out of range"))
  end.

(** A string is true when it is not empty. *)
Definition truthy (s : pystr) : bool :=
  match s with [] => false | _ :: _ => true end.

(** [a or b] on strings *)
Definition or_else (a b : pystr) : pystr := if truthy a then a else b.

Fixpoint mapM {A B} (f : A -> M B) (l : list A) : M (list B) :=
  match l with
  | [] => ret []
  | x :: l' => let* y := f x in let* ys := mapM f l' in ret (y :: ys)
  end.

Definition complexity_of (m : ContextualModifiers) : pystr :=
  get2 (movement_entropy m) complexity (lit "medium").

(** ** Vocabularies of [__init__] *)

Definition char_substitutions_basic : list (N * pystr) :=
  [(97, lit "@"); (101, lit "3"); (105, lit "!"); (111, lit "0"); (115, lit "$");
   (116, lit "7"); (108, lit "1"); (103, lit "9"); (98, lit "6")].

Definition char_substitutions_advanced : list (N * pystr) :=
  [(117, [U.micro]); (110, [U.n_tilde]); (99, [U.cent]); (121, [U.yen]);
   (112, [U.thorn]); (114, [U.r_caron]); (109, [U.cyr_em])].

Definition char_substitutions_contextual : list (pystr * pystr) :=
  [(lit "walk", lit "w4lk"); (lit "move", lit "m0v3"); (lit "turn", lit "7urn");
   (lit "step", lit "57ep"); (lit "wave", lit "w4v3")].

Definition movement_transform : list (N * pystr) :=
  [(119, [U.sine_wave]); (115, lit "~"); (114, [U.cw_arrow]); (108, [U.acw_arrow]);
   (109, [U.updown_arrow]); (117, [U.up_arrow]); (100, [U.down_arrow]);
   (102, [U.right_arrow])].

Definition movement_biometrics : list (list pystr) :=
  [ map lit ["stride"; "cadence"; "pace"; "rhythm"; "flow"];
    map lit ["sync"; "balance"; "stability"; "fluidity"; "precision"];
    map lit ["vigorous"; "gentle"; "explosive"; "sustained"; "irregular"];
    map lit ["linear"; "curved"; "angular"; "circular"; "spiral"] ]%string.

Definition W : regex := RClass CWord.
Definition Sp : regex := RClass CSpace.

(** [\b\w+\b] *)
Definition word_pattern : regex := RSeq [RBound; RPlus W; RBound].

(** [\b(alt)\b] *)
Definition word_group (alt : regex) : regex := RSeq [RBound; RGroup 1 alt; RBound].

(** stem followed by an optional "s" (or "es") *)
Definition stem_s (l : list string) : regex :=
  RAny (map (fun w => RCat (RLit w) (ROpt (RLit "s"))) l).

(** [movement_patterns], 'verbs' then 'actions', as the dictionary lists them. *)
Definition movement_patterns : list regex :=
  [ word_group (RCat (RPlus W) (RLit "ing"));
    word_group (RCat (RPlus W) (RLit "ed"));
    word_group (stem_s ["move"; "step"; "turn"; "bend"; "lift"; "wave"; "raise"; "lower"]);
    word_group (RAny [RCat (RLit "swing") (ROpt (RLit "s"));
                      RCat (RLit "rotate") (ROpt (RLit "s"));
                      RCat (RLit "extend") (ROpt (RLit "s"));
                      RCat (RLit "stretche") (ROpt (RLit "s"));
                      RCat (RLit "balance") (ROpt (RLit "s"));
                      RCat (RLit "gesture") (ROpt (RLit "s"))]);
    word_group (RWords ["moving"; "walking"; "running"; "jumping"; "reaching";
                        "pointing"; "waving"]);
    word_group (RWords ["turning"; "bending"; "stretching"; "lifting"; "lowering";
                        "raising"]);
    word_group (RWords ["swinging"; "rotating"; "extending"; "balancing"; "stepping";
                        "gesturing"]) ]%string.

Definition body_parts : list pystr :=
  map lit ["arm"; "hand"; "leg"; "foot"; "head"; "torso"; "body"; "shoulder";
           "knee"; "elbow"]%string.
Definition directions : list pystr :=
  map lit ["left"; "right"; "up"; "down"; "forward"; "backward"; "above"; "below";
           "side"]%string.
Definition intensities : list pystr :=
  map lit ["gentle"; "rapid"; "slow"; "quick"; "smooth"; "abrupt"; "rhythmic";
           "steady"]%string.

(** [contextual_terms.items()], in the order of the dictionary. *)
Definition contextual_terms : list (list pystr) := [body_parts; directions; intensities].

(** The pattern built around one body part:
    [\b\w+\b(?:\s+\w+){0,4}\s+PART|\bPART\b(?:\s+\w+){0,4}\s+\w+ing\b] *)
Definition body_part_pattern (part : pystr) : regex :=
  RAlt (RSeq [RBound; RPlus W; RBound; RUpTo 4 (RCat (RPlus Sp) (RPlus W));
              RPlus Sp; RStr part])
       (RSeq [RBound; RStr part; RBound; RUpTo 4 (RCat (RPlus Sp) (RPlus W));
              RPlus Sp; RPlus W; RLit "ing"; RBound]).

Definition spatial_patterns : list regex :=
  [ RSeq [RBound;
          RGroup 1 (RAny [RLit "above"; RLit "below"; RLit "beside"; RLit "near";
                          RLit "against"; RCat (RLit "toward") (ROpt (RLit "s"))]);
          RPlus Sp; RPlus W];
    word_group (RWords ["upward"; "downward"; "sideways"; "clockwise";
                        "counter-clockwise"]);
    word_group (RWords ["horizontal"; "vertical"; "diagonal"; "circular"]) ]%string.

Definition quality_patterns : list regex :=
  [ word_group (RWords ["smooth"; "rough"; "jerky"; "fluid"; "stiff"; "relaxed"; "tense"]);
    word_group (RWords ["quick"; "slow"; "rapid"; "gradual"; "sudden"; "gentle"]);
    word_group (RWords ["rhythmic"; "erratic"; "steady"; "consistent"; "irregular"]);
    word_group (RWords ["natural"; "forced"; "effortless"; "deliberate"]) ]%string.

Definition comparative_patterns : list regex :=
  [ RSeq [RBound; RGroup 1 (RCat (RPlus W) (RLit "er")); RPlus Sp;
          RGroup 2 (RWords ["than"; "movement"]); RBound];
    RSeq [RBound; RGroup 1 (RWords ["more"; "less"]); RPlus Sp;
          RGroup 2 (RCat (RPlus W) (RLit "ly")); RBound] ]%string.

Section Generator.
Variable rt : Runtime.

(** *** Semantic extraction *)

(** The words of one body-part match that are kept. *)
Definition body_part_words (m : pystr) : list pystr :=
  List.filter (fun word => endswith (lit "ing") word
                           || mem_str word (map lit ["moves"; "turns"; "lifts"; "waves"]%string))
              (split_ws rt m).

Definition is_action_word (action : pystr) : bool :=
  (3 <=? len action) && isalpha rt action &&
  (existsb (fun suffix => endswith suffix action) (map lit ["ing"; "ed"]%string)
   || existsb (fun root => contains root action)
              (map lit ["move"; "turn"; "lift"; "wave"; "step"]%string)).

Definition _extract_actions_dynamically (text : pystr) : M (list pystr) :=
  let by_pattern :=
    flat_map (fun pattern =>
                map (lower rt)
                    (List.filter (fun m => 2 <? len m) (findall1 rt true pattern text)))
             movement_patterns in
  let by_body_part :=
    flat_map (fun body_part =>
                if contains body_part text
                then flat_map body_part_words
                              (findall0 rt false (body_part_pattern body_part) text)
                else [])
             body_parts in
  let* actions := iter_set (by_pattern ++ by_body_part) in
  let filtered_actions := List.filter (fun a => is_action_word a) actions in
  iter_set filtered_actions.

Definition _extract_contextual_descriptors (text : pystr) : M (list pystr) :=
  let terms :=
    flat_map (fun terms => List.filter (fun term => contains term text) terms)
             contextual_terms in
  let spatial := flat_map (fun pattern => findall1 rt false pattern text) spatial_patterns in
  iter_set (terms ++ spatial).

Definition _extract_movement_qualifiers (text : pystr) : M (list pystr) :=
  let quality := flat_map (fun pattern => findall1 rt false pattern text) quality_patterns in
  let comparative :=
    flat_map (fun pattern =>
                flat_map (fun m => List.filter (fun word => 2 <? len word) [fst m; snd m])
                         (findall2 rt false pattern text))
             comparative_patterns in
  iter_set (quality ++ comparative).

Definition extract_semantic_elements (movement_description : pystr) : M SemanticElements :=
  let text := lower rt movement_description in
  let* actions := _extract_actions_dynamically text in
  let* descriptors := _extract_contextual_descriptors text in
  let* qualifiers := _extract_movement_qualifiers text in
  ret (mkSemanticElements (take 3 actions) (take 3 descriptors) (take 2 qualifiers) text).

(** *** Contextual modifiers *)

(** How many vocabulary terms occur in the text. *)
Definition count_terms (terms : list pystr) (text : pystr) : N :=
  len_list (List.filter (fun pattern => contains pattern text) terms).

(** The three-way classification of [_generate_movement_entropy]. *)
Definition complexity_level (movement_types : N) : pystr :=
  if 5 <? movement_types then lit "high"
  else if 2 <? movement_types then lit "medium"
  else lit "low".

Definition _generate_movement_entropy (movement_text : pystr) : M MovementEntropy :=
  if negb (truthy movement_text) then
    let* h := token_hex 2 in
    ret (mkMovementEntropy (Some h) (Some (lit "low")) None None)
  else
    let text_lower := lower rt movement_text in
    let movement_types := count_terms (concat movement_biometrics) text_lower in
    let movement_words := findall0 rt false word_pattern text_lower in
    let pattern_signature :=
      take 8 (flat_map (fun word => take 1 word)
                       (List.filter (fun word => 3 <? len word) movement_words)) in
    let* bytes := utf8_encode (pattern_signature ++ str_of_N movement_types) in
    let movement_hash := take 3 (md5_hexdigest rt bytes) in
    ret (mkMovementEntropy (Some movement_hash) (Some (complexity_level movement_types))
                           (Some movement_types) (Some (take 4 pattern_signature))).

Definition coordination_indicators : list pystr :=
  map lit ["smooth"; "coordinated"; "synchronized"; "balanced"; "stable"]%string.
Definition energy_indicators : list pystr :=
  map lit ["quick"; "slow"; "vigorous"; "gentle"; "explosive"; "sustained"]%string.
Definition precision_indicators : list pystr :=
  map lit ["precise"; "deliberate"; "controlled"; "natural"; "fluid"]%string.

Definition _analyze_behavioral_patterns (movement_text : pystr) : M BehavioralSignature :=
  if negb (truthy movement_text) then
    ret (mkBehavioralSignature (Some (lit "0")) None (Some (lit "low")) None)
  else
    let text_lower := lower rt movement_text in
    let c := count_terms coordination_indicators text_lower in
    let e := count_terms energy_indicators text_lower in
    let p := count_terms precision_indicators text_lower in
    let complexity_score := 2 * c + 3 * e + 1 * p in
    let behavioral_features :=
      repeat (lit "C") (N.to_nat c) ++ repeat (lit "E") (N.to_nat e)
      ++ repeat (lit "P") (N.to_nat p) in
    let* tags := iter_set behavioral_features in
    let behavioral_signature := or_else (take 3 (concat tags)) (lit "GEN") in
    let confidence :=
      if 8 <? complexity_score then lit "high"
      else if 4 <? complexity_score then lit "medium"
      else lit "low" in
    ret (mkBehavioralSignature (Some (str_of_N complexity_score))
                               (Some behavioral_signature) (Some confidence)
                               (Some (len_list behavioral_features))).

Definition generate_contextual_modifiers (movement_analysis : pystr) : M ContextualModifiers :=
  let* now := datetime_now in
  let micro_time := take 3 (str_of_N (dt_microsecond now)) in
  let compound_time :=
    str_of_N (dt_hour now) ++ str_of_N (dt_minute now) ++ str_of_N (dt_second now) in
  let cyclical := str_of_N (dt_weekday now) ++ str_of_N (dt_day now mod 7) in
  let seasonal := str_of_N (dt_month now) ++ str_of_N (dt_day now / 7 + 1) in
  let* movement_entropy := _generate_movement_entropy movement_analysis in
  let* behavioral_signature := _analyze_behavioral_patterns movement_analysis in
  let* h := getitem "pattern_hash" (pattern_hash movement_entropy) in
  let* s := getitem "complexity_score" (complexity_score behavioral_signature) in
  let* bytes := utf8_encode (compound_time ++ h ++ s ++ micro_time) in
  let combined_hash := sha256_hexdigest rt bytes in
  let* session := token_hex 3 in
  ret (mkContextualModifiers (take 4 combined_hash) (Some movement_entropy)
                             (Some behavioral_signature) session
                             (Some (take 4 (drop 4 combined_hash)))).

(** *** Character-substitution randomizer *)

Fixpoint assoc_char (c : N) (table : list (N * pystr)) : option pystr :=
  match table with
  | [] => None
  | (k, v) :: table' => if c =? k then Some v else assoc_char c table'
  end.

Fixpoint assoc_str (s : pystr) (table : list (pystr * pystr)) : option pystr :=
  match table with
  | [] => None
  | (k, v) :: table' => if pystr_eqb s k then Some v else assoc_str s table'
  end.

(** [cond and random.random() < percent / 100]: the draw happens only
    when [cond] holds. *)
Definition and_random (cond : bool) (percent : N) : M bool :=
  if cond then random_below percent else ret false.

(** The loop over [result]: [i] is the index of the head of [chars]. *)
Fixpoint randomize_from (i : N) (changes_made max_changes : N) (chars : pystr) : M pystr :=
  match chars with
  | [] => ret []
  | char :: chars' =>
      if max_changes <=? changes_made then ret chars
      else
        let* phase1 := and_random (bool_decide (is_Some (assoc_char char char_substitutions_basic))) 40 in
        if phase1 then
          let* rest := randomize_from (i + 1) (changes_made + 1) max_changes chars' in
          ret (default [char] (assoc_char char char_substitutions_basic) ++ rest)
        else
        let* phase2 := and_random (bool_decide (is_Some (assoc_char char char_substitutions_advanced))) 20 in
        if phase2 then
          let* rest := randomize_from (i + 1) (changes_made + 1) max_changes chars' in
          ret (default [char] (assoc_char char char_substitutions_advanced) ++ rest)
        else
        let* phase3 := and_random (char_isalpha rt char) 25 in
        if phase3 then
          let* rest := randomize_from (i + 1) (changes_made + 1) max_changes chars' in
          ret ((if i mod 2 =? 0 then char_upper rt char else str_of_N (char mod 10)) ++ rest)
        else
        let* phase4 := and_random (char_isalpha rt char) 15 in
        match (if phase4 then assoc_char char movement_transform else None) with
        | Some t =>
            let* rest := randomize_from (i + 1) (changes_made + 1) max_changes chars' in
            ret (t ++ rest)
        | None =>
            let* rest := randomize_from (i + 1) changes_made max_changes chars' in
            ret (char :: rest)
        end
  end.

(** [int(n * entropy_level)] for the level [percent / 100]: for the levels
    the generator passes (0.3, 0.35, 0.4) and [n] below 180 the float
    product truncates to the integer quotient; elsewhere it is taken from
    the runtime (at 0.35 and 180 it is 62, one below the quotient). *)
Definition scaled_length (n percent : N) : N :=
  if existsb (N.eqb percent) [30; 35; 40] && (n <? 180)
  then n * percent / 100
  else float_scale rt n percent.

(** [entropy_percent] is [entropy_level] in hundredths (0.4 is 40). *)
Definition apply_entropy_randomization (text : pystr) (entropy_percent : N)
    (context : pystr) : M pystr :=
  if negb (truthy text) then ret text
  else
    let result := lower rt text in
    let max_changes := N.max 1 (scaled_length (len text) entropy_percent) in
    match (if pystr_eqb context (lit "movement")
           then assoc_str (lower rt text) char_substitutions_contextual else None) with
    | Some substitution => ret substitution
    | None => randomize_from 0 0 max_changes result
    end.

(** *** Assembly *)

Definition generate_biometric_hash (semantic_elements : SemanticElements)
    (behavioral_data : option BehavioralSignature) : M pystr :=
  let* action_signature :=
    match actions semantic_elements with
    | [] => ret []
    | _ :: _ =>
        let* initials := mapM (fun action => let* c := first_char action in ret (char_upper rt c))
                              (take 3 (actions semantic_elements)) in
        ret (concat initials)
    end in
  let score := get2 behavioral_data complexity_score [] in
  let signature := get2 behavioral_data bs_signature [] in
  let biometric_string := action_signature ++ score ++ signature in
  if truthy biometric_string then
    let* bytes := utf8_encode biometric_string in
    ret (take 6 (sha256_hexdigest rt bytes))
  else token_hex 3.

Definition priority_actions : list pystr :=
  map lit ["walking"; "running"; "jumping"; "waving"; "pointing"; "turning"]%string.

(** [max(actions, key=len)]: the first of the longest entries. *)
Fixpoint longest (best : pystr) (l : list pystr) : pystr :=
  match l with
  | [] => best
  | x :: l' => longest (if len best <? len x then x else best) l'
  end.

Definition _select_primary_action (actions : list pystr) : pystr :=
  let hits :=
    flat_map (fun priority_action =>
                List.filter (fun action => contains priority_action action) actions)
             priority_actions in
  match hits with
  | action :: _ => action
  | [] =>
      match actions with
      | a :: l => longest a l
      | [] => lit "move"
      end
  end.

Definition _extract_multi_source_descriptor (semantic_elements : SemanticElements) : M pystr :=
  let* descriptor :=
    match qualifiers semantic_elements with
    | q :: _ => apply_entropy_randomization (take 5 q) 30 (lit "general")
    | [] =>
        match descriptors semantic_elements with
        | d :: _ => apply_entropy_randomization (take 4 d) 35 (lit "general")
        | [] =>
            match actions semantic_elements with
            | _ :: a :: _ => apply_entropy_randomization (take 4 a) 40 (lit "general")
            | _ => ret []
            end
        end
    end in
  ret (or_else descriptor [100; U.Psi; 110]).

Definition _create_advanced_movement_signature (semantic_elements : SemanticElements)
    (contextual_modifiers : ContextualModifiers) : M pystr :=
  let from_actions :=
    flat_map (fun action => match action with
                            | c :: _ => char_upper rt c
                            | [] => []
                            end)
             (take 2 (actions semantic_elements)) in
  let behavioral := take 2 (get2 (behavioral_signature contextual_modifiers) bs_signature []) in
  let entropy := take 2 (get2 (movement_entropy contextual_modifiers) me_signature []) in
  let complexity := complexity_of contextual_modifiers in
  let marker :=
    if pystr_eqb complexity (lit "high") then [U.Omega]
    else if pystr_eqb complexity (lit "low") then [U.alpha]
    else [] in
  let base_signature := or_else (from_actions ++ behavioral ++ entropy ++ marker) [77; U.Sigma] in
  let* bytes := utf8_encode base_signature in
  ret (take 4 (md5_hexdigest rt bytes)).

Definition high_security_templates : list pystr :=
  map lit ["{action}_{biometric}_{temporal}_{random}";
           "{biometric}{action}_{entropy}_{behavioral}";
           "{signature}{action}_{temporal}{biometric}";
           "{action}_{behavioral}_{entropy}_{signature}"]%string.

Definition medium_security_templates : list pystr :=
  map lit ["{action}_{modifier}_{temporal}_{random}";
           "{action}{signature}_{entropy}_{random}";
           "{modifier}_{action}_{biometric}_{temporal}"]%string.

Definition use_high_security (semantic_elements : SemanticElements)
    (contextual_modifiers : ContextualModifiers) : bool :=
  let behavioral_confidence :=
    get2 (behavioral_signature contextual_modifiers) confidence (lit "low") in
  let movement_complexity := complexity_of contextual_modifiers in
  mem_str behavioral_confidence (map lit ["high"; "medium"]%string)
  && mem_str movement_complexity (map lit ["high"; "medium"]%string)
  && (2 <=? len_list (actions semantic_elements)).

Definition _select_security_optimal_template (semantic_elements : SemanticElements)
    (contextual_modifiers : ContextualModifiers) : M pystr :=
  let templates :=
    if use_high_security semantic_elements contextual_modifiers
    then high_security_templates else medium_security_templates in
  random_choice templates.

(** The rendering of a plain template: text is copied, [{name}] is
    replaced by the component of that name (KeyError when there is none),
    [{{] and [}}] stand for a brace. *)
Fixpoint read_field (s : pystr) (acc : pystr) : option (pystr * pystr) :=
  match s with
  | [] => None
  | c :: s' => if c =? 125 then Some (rev acc, s') else read_field s' (c :: acc)
  end.

Fixpoint format_from (fuel : nat) (t : pystr) (components : gmap pystr pystr)
    : outcome pystr :=
  match fuel, t with
  | _, [] => Ok []
  | O, _ :: _ => Ok []
  | S fuel', c :: t' =>
      let literal (c : N) (rest : pystr) :=
        match format_from fuel' rest components with
        | Ok r => Ok (c :: r)
        | Raise e => Raise e
        end in
      if c =? 123 then
        match t' with
        | 123 :: t'' => literal 123 t''
        | _ =>
            match read_field t' [] with
            | None => Raise (ValueError (lit "expected '}' before end of string"))
            | Some (name, rest) =>
                match components !! name with
                | None => Raise (KeyError name)
                | Some v =>
                    match format_from fuel' rest components with
                    | Ok r => Ok (v ++ r)
                    | Raise e => Raise e
                    end
                end
            end
        end
      else if c =? 125 then
        match t' with
        | 125 :: t'' => literal 125 t''
        | _ => Raise (ValueError (lit "Single '}' encountered in format string"))
        end
      else literal c t'
  end.

(** The name of a plain field: an ASCII identifier. *)
Definition is_name_start (c : N) : bool :=
  is_ascii_upper c || is_ascii_lower c || (c =? 95).

Definition is_field_name (name : pystr) : bool :=
  match name with
  | c :: _ =>
      is_name_start c && forallb (fun c => is_name_start c || is_ascii_digit c) name
  | [] => false
  end.

(** A template of literal text, doubled braces and plain [{name}]
    fields. *)
Fixpoint plain_from (fuel : nat) (t : pystr) : bool :=
  match fuel, t with
  | _, [] => true
  | O, _ :: _ => false
  | S fuel', c :: t' =>
      if c =? 123 then
        match t' with
        | 123 :: t'' => plain_from fuel' t''
        | _ =>
            match read_field t' [] with
            | None => false
            | Some (name, rest) => is_field_name name && plain_from fuel' rest
            end
        end
      else if c =? 125 then
        match t' with
        | 125 :: t'' => plain_from fuel' t''
        | _ => false
        end
      else plain_from fuel' t'
  end.

Definition plain_template (template : pystr) : bool :=
  plain_from (length template) template.

(** [template.format] with the components as keyword arguments: written
    out for a plain template, taken from the runtime for any other
    (positional fields, conversions, format specifications, attribute and
    index access, unpaired braces). *)
Definition format (template : pystr) (components : gmap pystr pystr) : outcome pystr :=
  if plain_template template
  then format_from (length template) template components
  else str_format rt template components.

Definition fallback_template : pystr := lit "{action}_{biometric}_{temporal}_{random}".

Definition _dynamic_password_assembly (template : pystr)
    (components : gmap pystr pystr) : M pystr :=
  match format template components with
  | Ok password => ret password
  | Raise (KeyError _) =>
      let action := default [109; U.Theta; 118] (components !! lit "action") in
      let biometric := default (lit "B10") (components !! lit "biometric") in
      let* t := token_hex 2 in
      let temporal := default t (components !! lit "temporal") in
      let* r := token_hex 2 in
      let random := default r (components !! lit "random") in
      match format fallback_template
              (<[lit "action" := action]> (<[lit "biometric" := biometric]>
               (<[lit "temporal" := temporal]> (<[lit "random" := random]> ∅)))) with
      | Ok password => ret password
      | Raise e => raise e
      end
  | Raise e => raise e
  end.

(** *** Complexity enforcement *)

Definition punctuation : cclass := CChars (lit "!@#$%^&*()_+-=[]{}|;:,.<>?").
Definition kinetic_markers : cclass :=
  CChars [U.Omega; U.sine_wave; U.cw_arrow; U.acw_arrow; U.updown_arrow;
          U.up_arrow; U.down_arrow; U.right_arrow].
Definition greek_markers : cclass :=
  CChars [U.Theta; U.n_ary_sum; U.Psi; U.alpha; U.beta; U.gamma; U.delta; U.epsilon].
Definition biometric_markers : cclass :=
  CChars [U.Omega; U.sine_wave; U.cw_arrow; U.acw_arrow; U.updown_arrow;
          U.up_arrow; U.down_arrow; U.right_arrow; U.Theta; U.Psi;
          U.alpha; U.beta; U.gamma; U.delta; U.epsilon].

Definition has (k : cclass) (password : pystr) : bool :=
  search rt false (RClass k) password.

(** [while len(password) < min_length: password += secrets.token_hex(1)] *)
Fixpoint pad_hex (fuel : nat) (min_length : N) (password : pystr) : M pystr :=
  match fuel with
  | O => ret password
  | S fuel' =>
      if len password <? min_length then
        let* h := token_hex 1 in pad_hex fuel' min_length (password ++ h)
      else ret password
  end.

Definition ensure_complexity (password : pystr) : M pystr :=
  let* password :=
    if negb (has punctuation password)
    then let* c := random_choice (lit "!@#$%") in ret (password ++ [c])
    else ret password in
  let* password :=
    if negb (has CDigit password)
    then let* d := random_digit in ret (password ++ str_of_N d)
    else ret password in
  let password :=
    if negb (has (CRange 65 90) password)
    then match password with
         | c :: tail => char_upper rt c ++ tail
         | [] => password
         end
    else password in
  let* password := pad_hex 12 12 password in
  ret (if 20 <? len password then take 20 password else password).

Definition ensure_advanced_complexity (password : pystr)
    (contextual_modifiers : ContextualModifiers) : M pystr :=
  let* password := ensure_complexity password in
  let behavioral_confidence :=
    get2 (behavioral_signature contextual_modifiers) confidence (lit "low") in
  let* password :=
    if pystr_eqb behavioral_confidence (lit "high") && negb (has kinetic_markers password)
    then let* c := random_choice [U.Omega; U.sine_wave; U.cw_arrow] in ret (password ++ [c])
    else ret password in
  let* password :=
    if negb (has greek_markers password)
    then let* c := random_choice [U.Theta; U.n_ary_sum; U.Psi] in ret (password ++ [c])
    else ret password in
  let movement_complexity := complexity_of contextual_modifiers in
  let min_length : N :=
    if pystr_eqb movement_complexity (lit "high") then 16
    else if pystr_eqb movement_complexity (lit "medium") then 14
    else 12 in
  let* password := pad_hex (N.to_nat min_length) min_length password in
  ret (if 24 <? len password then take 24 password else password).

(** The dictionary [password_components] of [assemble_password]. *)
Definition password_components
    (action modifier biometric temporal entropy behavioral random signature : pystr)
    : gmap pystr pystr :=
  <[lit "action" := action]>
  (<[lit "modifier" := modifier]>
  (<[lit "biometric" := biometric]>
  (<[lit "temporal" := temporal]>
  (<[lit "entropy" := entropy]>
  (<[lit "behavioral" := behavioral]>
  (<[lit "random" := random]>
  (<[lit "signature" := signature]> ∅))))))).

Definition assemble_password (semantic_elements : SemanticElements)
    (contextual_modifiers : ContextualModifiers) : M pystr :=
  let* biometric_hash :=
    generate_biometric_hash semantic_elements (behavioral_signature contextual_modifiers) in
  let* action :=
    match actions semantic_elements with
    | [] => ret []
    | _ :: _ =>
        let primary_action := _select_primary_action (actions semantic_elements) in
        apply_entropy_randomization (take 6 primary_action) 40 (lit "movement")
    end in
  let* descriptor := _extract_multi_source_descriptor semantic_elements in
  let* movement_signature :=
    _create_advanced_movement_signature semantic_elements contextual_modifiers in
  let temporal_layer := temporal contextual_modifiers in
  let* unused_default := token_hex 2 in
  let entropy_layer := default unused_default (compound_modifier contextual_modifiers) in
  let behavioral_layer :=
    get2 (behavioral_signature contextual_modifiers) bs_signature (lit "GEN") in
  let movement_complexity := complexity_of contextual_modifiers in
  let random_entropy :=
    if pystr_eqb movement_complexity (lit "high") then 3%nat
    else if pystr_eqb movement_complexity (lit "medium") then 2%nat
    else 1%nat in
  let* random_component := token_hex random_entropy in
  let* template :=
    _select_security_optimal_template semantic_elements contextual_modifiers in
  let* password :=
    _dynamic_password_assembly template
      (password_components (or_else action [109; U.Theta; 118]) descriptor
         (take 4 biometric_hash) temporal_layer entropy_layer behavioral_layer
         random_component movement_signature) in
  ensure_advanced_complexity password contextual_modifiers.

(** *** Strength assessment *)

Definition sequential_patterns : regex :=
  RGroup 1 (RWords ["012"; "123"; "234"; "345"; "456"; "567"; "678"; "789"; "890";
                    "abc"; "def"; "ghi"]%string).

(** [(.)\1{2,}] *)
Definition repeated_character : regex :=
  RSeq [RGroup 1 (RClass CDot); RBackref 1; RBackref 1; RStar (RBackref 1)].

(** [len(set(password))] *)
Fixpoint distinct_chars (s : pystr) : pystr :=
  match s with
  | [] => []
  | c :: s' => c :: List.filter (fun d => negb (c =? d)) (distinct_chars s')
  end.

Definition strength_of_score (score : Z) : pystr :=
  if (12 <=? score)%Z then lit "Exceptional"
  else if (9 <=? score)%Z then lit "Very Strong"
  else if (6 <=? score)%Z then lit "Strong"
  else if (4 <=? score)%Z then lit "Medium"
  else lit "Weak".

(** [score], [factors], [recommendations], [char_types] as the function
    updates them. *)
Record tally := mkTally {
  t_score : Z; t_factors : list pystr; t_recommendations : list pystr; t_types : N
}.

Definition add_score (n : Z) (t : tally) : tally :=
  mkTally (t_score t + n) (t_factors t) (t_recommendations t) (t_types t).
Definition add_factor (f : string) (t : tally) : tally :=
  mkTally (t_score t) (t_factors t ++ [lit f]) (t_recommendations t) (t_types t).
Definition add_recommendation (r : string) (t : tally) : tally :=
  mkTally (t_score t) (t_factors t) (t_recommendations t ++ [lit r]) (t_types t).
Definition add_type (t : tally) : tally :=
  mkTally (t_score t) (t_factors t) (t_recommendations t) (t_types t + 1).
Definition when (b : bool) (f : tally -> tally) (t : tally) : tally :=
  if b then f t else t.

Record StrengthAnalysis := mkStrengthAnalysis {
  sa_strength : pystr;
  sa_score : Z;
  sa_max_score : Z;
  sa_factors : list pystr;
  sa_recommendations : list pystr;
  sa_character_types : N
}.

(** The comparisons [unique_chars >= len(password) * 0.8] and [* 0.6] are
    made on integers, as [5 * unique_chars >= 4 * len] and [>= 3 * len]. *)
Definition score_tally (password : pystr)
    (contextual_data : option ContextualModifiers) : tally :=
  let t := mkTally 0 [] [] 0 in
  let t :=
    if 16 <=? len password
    then add_factor "Excellent length (16+ chars)" (add_score 3 t)
    else if 12 <=? len password
    then add_factor "Good length (12+ chars)" (add_score 2 t)
    else add_recommendation "Increase length to 12+ characters" t in
  let t := when (has (CRange 97 122) password) (fun t => add_type (add_score 1 t)) t in
  let t := when (has (CRange 65 90) password) (fun t => add_type (add_score 1 t)) t in
  let t := when (has CDigit password) (fun t => add_type (add_score 1 t)) t in
  let t := when (has punctuation password) (fun t => add_type (add_score 2 t)) t in
  let t := when (has biometric_markers password)
                (fun t => add_factor "Biometric Unicode characters detected" (add_score 3 t)) t in
  let t :=
    match contextual_data with
    | None => t
    | Some contextual_data =>
        let behavioral_confidence :=
          get2 (behavioral_signature contextual_data) confidence (lit "low") in
        let movement_complexity := complexity_of contextual_data in
        let t :=
          if pystr_eqb behavioral_confidence (lit "high")
          then add_factor "High behavioral confidence" (add_score 2 t)
          else if pystr_eqb behavioral_confidence (lit "medium")
          then add_factor "Medium behavioral confidence" (add_score 1 t)
          else t in
        if pystr_eqb movement_complexity (lit "high")
        then add_factor "High movement complexity" (add_score 2 t)
        else if pystr_eqb movement_complexity (lit "medium")
        then add_score 1 t
        else t
    end in
  let unique_chars := len (distinct_chars password) in
  let t :=
    if 4 * len password <=? 5 * unique_chars
    then add_factor "High character uniqueness" (add_score 2 t)
    else if 3 * len password <=? 5 * unique_chars
    then add_score 1 t
    else t in
  let t := when (search rt false repeated_character password)
                (fun t => add_recommendation "Reduce character repetition" (add_score (-1) t)) t in
  let t := when (search rt false sequential_patterns (lower rt password))
                (fun t => add_recommendation "Avoid sequential patterns" (add_score (-2) t)) t in
  t.

Definition assess_password_strength (password : pystr)
    (contextual_data : option ContextualModifiers) : StrengthAnalysis :=
  let t := score_tally password contextual_data in
  mkStrengthAnalysis (strength_of_score (t_score t)) (t_score t) 15
                     (t_factors t) (t_recommendations t) (t_types t).

(** *** Diagnostics *)

(** One line of [feedback]; the text of the line is a rendering of these
    data ([FbUtilization e w] stands for the rate [e / w * 100]). *)
Inductive feedback_line :=
| FbActions (names : list pystr)
| FbNoActions
| FbDescriptors (count : N)
| FbNoDescriptors
| FbQualifiers (names : list pystr)
| FbUtilization (extracted_words text_words : N).

Record ExtractionAnalysis := mkExtractionAnalysis {
  effectiveness_score : N;
  ea_max_score : N;
  feedback : list feedback_line;
  utilization_rate : N * N      (* extracted words * 100 over text words; (0, 1) is 0 *)
}.

Definition analyze_extraction_effectiveness (movement_text : pystr)
    (extracted_elements : SemanticElements) : ExtractionAnalysis :=
  let has_a := negb (bool_decide (actions extracted_elements = [])) in
  let has_d := negb (bool_decide (descriptors extracted_elements = [])) in
  let has_q := negb (bool_decide (qualifiers extracted_elements = [])) in
  let effectiveness_score :=
    (if has_a then 3 else 0) + (if has_d then 2 else 0) + (if has_q then 1 else 0) in
  let text_words := len_list (split_ws rt movement_text) in
  let extracted_words :=
    len_list (actions extracted_elements) + len_list (descriptors extracted_elements)
    + len_list (qualifiers extracted_elements) in
  let feedback :=
    [if has_a then FbActions (actions extracted_elements) else FbNoActions]
    ++ [if has_d then FbDescriptors (len_list (descriptors extracted_elements))
        else FbNoDescriptors]
    ++ (if has_q then [FbQualifiers (qualifiers extracted_elements)] else [])
    ++ (if 0 <? text_words then [FbUtilization extracted_words text_words] else []) in
  mkExtractionAnalysis effectiveness_score 6 feedback
    (if 0 <? text_words then (extracted_words * 100, text_words) else (0, 1)).

Definition _get_security_features_summary (contextual_modifiers : ContextualModifiers)
    : list pystr :=
  let behavioral_confidence :=
    get2 (behavioral_signature contextual_modifiers) confidence (lit "low") in
  let movement_complexity := complexity_of contextual_modifiers in
  (if mem_str behavioral_confidence (map lit ["high"; "medium"]%string)
   then [lit "Behavioral biometrics (" ++ behavioral_confidence ++ lit " confidence)"]
   else [])
  ++ [lit "Movement entropy analysis (" ++ movement_complexity ++ lit " complexity)"]
  ++ (if truthy (default [] (compound_modifier contextual_modifiers))
      then [lit "Multi-layered cryptographic hashing"] else [])
  ++ [lit "High-precision temporal entropy";
      lit "Multi-tier character substitution";
      lit "Movement pattern fingerprinting"].
End Generator.

(** ** The orchestrator *)

(** The value under ['components']: the three diagnostics of a normal
    run, or the error report of the fallback. *)
Inductive Components :=
| PipelineComponents (semantic_elements : SemanticElements)
    (contextual_modifiers : ContextualModifiers)
    (extraction_analysis : ExtractionAnalysis)
| ErrorComponents (error : pystr) (fallback_used : bool).

(** The dictionary [generate_password] returns; [None] in an optional
    field says that the dictionary has no such key. *)
Record PasswordResult := mkPasswordResult {
  password : pystr;
  components : Components;
  strength : pystr;
  strength_analysis : option StrengthAnalysis;
  generation_method : pystr;
  security_features : option (list pystr)
}.

(** The methods [generate_password] calls on [self]. *)
Record Generator := mkGenerator {
  m_extract_semantic_elements : pystr -> M SemanticElements;
  m_analyze_extraction_effectiveness : pystr -> SemanticElements -> M ExtractionAnalysis;
  m_generate_contextual_modifiers : pystr -> M ContextualModifiers;
  m_assemble_password : SemanticElements -> ContextualModifiers -> M pystr;
  m_assess_password_strength : pystr -> option ContextualModifiers -> M StrengthAnalysis;
  m_get_security_features_summary : ContextualModifiers -> M (list pystr)
}.

(** [list(set(a + b))] *)
Definition merge_unique (a b : list pystr) : M (list pystr) := iter_set (a ++ b).

(** The body of the [try] block. *)
Definition generate_password_body (self : Generator)
    (movement_analysis movement_summary : pystr) : M PasswordResult :=
  let* analysis_elements := m_extract_semantic_elements self movement_analysis in
  let* summary_elements := m_extract_semantic_elements self movement_summary in
  let* merged_actions :=
    merge_unique (actions summary_elements) (actions analysis_elements) in
  let* merged_descriptors :=
    merge_unique (descriptors summary_elements) (descriptors analysis_elements) in
  let* merged_qualifiers :=
    merge_unique (qualifiers summary_elements) (qualifiers analysis_elements) in
  let combined_elements :=
    mkSemanticElements (take 3 merged_actions) (take 3 merged_descriptors)
                       (take 2 merged_qualifiers)
                       (full_text summary_elements ++ lit " " ++ full_text analysis_elements) in
  let* extraction_analysis :=
    m_analyze_extraction_effectiveness self (full_text combined_elements) combined_elements in
  let* contextual_modifiers :=
    m_generate_contextual_modifiers self (full_text combined_elements) in
  let* password := m_assemble_password self combined_elements contextual_modifiers in
  let* strength_analysis :=
    m_assess_password_strength self password (Some contextual_modifiers) in
  let* features := m_get_security_features_summary self contextual_modifiers in
  ret (mkPasswordResult password
         (PipelineComponents combined_elements contextual_modifiers extraction_analysis)
         (sa_strength strength_analysis) (Some strength_analysis)
         (lit "advanced_biometric_extraction") (Some features)).

(** The [except Exception as e] branch. *)
Definition generate_password_fallback (e : exn) : M PasswordResult :=
  let* h := token_hex 4 in
  let* now := datetime_now in
  let fallback_password := lit "Move" ++ h ++ str_of_N (dt_hour now) ++ lit "!" in
  ret (mkPasswordResult fallback_password (ErrorComponents (str_of_exn e) true)
         (lit "Medium") None (lit "fallback") None).

Definition generate_password (self : Generator)
    (movement_analysis movement_summary : pystr) : M PasswordResult :=
  try_except (generate_password_body self movement_analysis movement_summary)
             generate_password_fallback.

(** The class as the source defines it. *)
Definition MovementPasswordGenerator (rt : Runtime) : Generator :=
  mkGenerator
    (extract_semantic_elements rt)
    (fun text elements => ret (analyze_extraction_effectiveness rt text elements))
    (generate_contextual_modifiers rt)
    (assemble_password rt)
    (fun password data => ret (assess_password_strength rt password data))
    (fun modifiers => ret (_get_security_features_summary modifiers)).

(** ** The upload shell

    The functions around the generator: the file-name check, the retry
    loop around a request and the fallback over models.  A request is an
    external call: the closure [func] of the source is given by a label
    that names what it asks for (the model, in [make_request]) and by its
    outcomes, [func k] being the outcome of the call number [k] (counted
    over the whole run).  The shell state counts the calls made, logs
    their labels and logs the sleeps: a logged delay [d] stands for [d]
    seconds plus the random part [random.uniform(0, 1)], which is below
    one. *)

Definition ALLOWED_EXTENSIONS : list pystr :=
  map lit ["mp4"; "avi"; "mov"; "mkv"; "webm"]%string.

(** The text before and after the first [sep], if there is one. *)
Fixpoint split_first (sep : N) (s : pystr) : option (pystr * pystr) :=
  match s with
  | [] => None
  | c :: s' =>
      if c =? sep then Some ([], s')
      else match split_first sep s' with
           | Some (a, b) => Some (c :: a, b)
           | None => None
           end
  end.

(** [s.rsplit(sep, 1)] for a one-character separator: cut at the last one. *)
Definition rsplit1 (sep : N) (s : pystr) : list pystr :=
  match split_first sep (rev s) with
  | Some (a, b) => [rev b; rev a]
  | None => [s]
  end.

(** [l[i]] *)
Definition index {A} (l : list A) (i : nat) : outcome A :=
  match l !! i with
  | Some x => Ok x
  | None => Raise (IndexError (lit "list index out of range"))
  end.

Definition allowed_file (rt : Runtime) (filename : pystr) : outcome bool :=
  if mem_char 46 filename then
    match index (rsplit1 46 filename) 1 with
    | Ok extension => Ok (mem_str (lower rt extension) ALLOWED_EXTENSIONS)
    | Raise e => Raise e
    end
  else Ok false.

Record Shell := mkShell {
  calls : nat;            (* requests made so far *)
  sleeps : list Z;        (* the delays slept, oldest first *)
  requests : list pystr   (* the labels of the requests made, oldest first *)
}.

Definition called (label : pystr) (st : Shell) : Shell :=
  mkShell (S (calls st)) (sleeps st) (requests st ++ [label]).
Definition slept (delay : Z) (st : Shell) : Shell :=
  mkShell (calls st) (sleeps st ++ [delay]) (requests st).

Definition retry_keywords : list pystr :=
  map lit ["503"; "overloaded"; "unavailable"; "rate limit"; "quota"]%string.

(** [any(keyword in str(e).lower() for keyword in [...])] *)
Definition is_retryable (rt : Runtime) (e : exn) : bool :=
  existsb (fun keyword => contains keyword (lower rt (str_of_exn e))) retry_keywords.

(** [str(n)] for an integer. *)
Definition str_of_Z (z : Z) : pystr :=
  match z with
  | Zneg p => lit "-" ++ str_of_N (Npos p)
  | _ => str_of_N (Z.to_N z)
  end.

(** The clock counts 2^63 nanoseconds: a length of [delay] seconds plus
    the random part fits when [delay] is below this. *)
Definition sleep_limit : Z := 9223372036.

(** [time.sleep(delay + random.uniform(0, 1))]: the exception it raises,
    [None] when it sleeps.  A negative length is refused; a length beyond
    the range of the clock is left to the runtime. *)
Definition time_sleep (rt : Runtime) (delay : Z) : option exn :=
  if ((0 <=? delay) && (delay <? sleep_limit))%Z then None
  else if ((- sleep_limit <=? delay) && (delay <? 0))%Z
  then Some (ValueError (lit "sleep length must be non-negative"))
  else sleep_beyond rt delay.

(** The loop [for attempt in range(max_retries)], from [attempt] on with
    [remaining] iterations to go; when the loop ends the function falls
    off its end and returns [None].  An exception of [time.sleep] is
    raised inside the handler and leaves the function. *)
Fixpoint retry_loop {A} (rt : Runtime) (label : pystr) (func : nat -> outcome A)
    (max_retries base_delay : Z) (remaining : nat) (attempt : Z) (st : Shell)
    : outcome (option A) * Shell :=
  match remaining with
  | O => (Ok None, st)
  | S remaining' =>
      match func (calls st) with
      | Ok a => (Ok (Some a), called label st)
      | Raise e =>
          if is_retryable rt e then
            if (attempt <? max_retries - 1)%Z then
              let delay := (base_delay * 2 ^ attempt)%Z in
              match time_sleep rt delay with
              | Some refusal => (Raise refusal, called label st)
              | None =>
                  retry_loop rt label func max_retries base_delay remaining'
                             (attempt + 1)%Z (slept delay (called label st))
              end
            else
              (Raise (RuntimeError (lit "All " ++ str_of_Z max_retries
                                    ++ lit " attempts failed. Last error: "
                                    ++ str_of_exn e)),
               called label st)
          else (Raise e, called label st)
      end
  end.

Definition retry_with_backoff {A} (rt : Runtime) (label : pystr)
    (func : nat -> outcome A) (max_retries base_delay : Z) (st : Shell)
    : outcome (option A) * Shell :=
  retry_loop rt label func max_retries base_delay (Z.to_nat max_retries) 0%Z st.

Definition models_to_try : list pystr :=
  map lit ["gemini-2.0-flash-exp"; "gemini-1.5-flash"; "gemini-1.5-pro"]%string.

(** [str(last_error)], where [last_error] starts as [None]. *)
Definition str_of_last_error (last_error : option exn) : pystr :=
  match last_error with
  | Some e => str_of_exn e
  | None => lit "None"
  end.

(** The loop over the models; [request model k] is the outcome of the
    call number [k] when it is made with [model]. *)
Fixpoint try_models {A} (rt : Runtime) (request : pystr -> nat -> outcome A)
    (max_retries : Z) (models : list pystr) (last_error : option exn) (st : Shell)
    : outcome (option A) * Shell :=
  match models with
  | [] =>
      (Raise (RuntimeError (lit "All models failed. Last error: "
                            ++ str_of_last_error last_error)), st)
  | model_name :: models' =>
      match retry_with_backoff rt model_name (request model_name) max_retries 2 st with
      | (Ok response, st') => (Ok response, st')
      | (Raise e, st') => try_models rt request max_retries models' (Some e) st'
      end
  end.

Definition analyze_with_gemini {A} (rt : Runtime) (request : pystr -> nat -> outcome A)
    (max_retries : Z) (st : Shell) : outcome (option A) * Shell :=
  try_models rt request max_retries models_to_try None st.


(** ** The earlier template selection

    [password_templates] of [__init__] and [_select_optimal_template],
    which [assemble_password] no longer calls. *)

Definition password_templates : list pystr :=
  map lit ["{action}_{modifier}_{context}_{random}";
           "{action}{context}_{modifier}{random}";
           "{modifier}_{action}_{random}_{context}";
           "{random}{action}_{context}_{modifier}"]%string.

Definition enhanced_templates : list pystr :=
  map lit ["{action}_{modifier}_{context}_{random}";
           "{action}{signature}_{context}_{random}";
           "{modifier}_{action}_{random}_{context}";
           "{signature}{action}_{context}_{modifier}";
           "{action}_{context}{signature}_{random}"]%string.

Definition _select_optimal_template (semantic_elements : SemanticElements) : M pystr :=
  if (2 <=? len_list (actions semantic_elements))
     || (2 <=? len_list (descriptors semantic_elements))
     || negb (bool_decide (qualifiers semantic_elements = []))
  then random_choice enhanced_templates
  else random_choice password_templates.

(** ** Concrete runtimes, worlds and generators for the examples *)

(** A runtime whose tables say nothing beyond what is fixed above: the
    other code points have no case and belong to no class; the digests are
    checksums. *)
Definition plain_runtime : Runtime :=
  mkRuntime (fun c => [c]) (fun c => [c]) (fun _ => false) (fun _ => false)
            (fun _ => false) (fun _ => false) (fun _ _ => false)
            (fun _ => false) (fun _ => false)
            (fun bytes => fold_right N.add 0 bytes * 2654435761)
            (fun bytes => fold_right N.add 0 bytes * 40503 + 7)
            (fun _ _ => Raise (ValueError (lit "Invalid format specifier")))
            (fun _ => Some (OtherError (lit "OverflowError")
                              (lit "timestamp too large to convert to C _PyTime_t")))
            (fun n p => n * p / 100).

(** Tuesday 14 June, 09:05:07.123456 at every reading of the clock. *)
Definition morning : DateTime := mkDateTime 9 5 7 123456 1 13 5.

(** A world whose random draws are all [n]. *)
Definition constant_world (n : N) : World :=
  mkWorld (fun _ => n) 0 (fun _ => morning) 0.

(** A world whose random draws follow the list [l], then stay 0. *)
Definition scripted_world (l : list N) : World :=
  mkWorld (fun i => nth i l 0) 0 (fun _ => morning) 0.

(** The generator with [assemble_password] replaced by a method that
    raises, as a test forcing an internal failure does. *)
Definition failing_generator (rt : Runtime) : Generator :=
  mkGenerator
    (extract_semantic_elements rt)
    (fun text elements => ret (analyze_extraction_effectiveness rt text elements))
    (generate_contextual_modifiers rt)
    (fun _ _ => raise (RuntimeError (lit "template rendering failed")))
    (fun password data => ret (assess_password_strength rt password data))
    (fun modifiers => ret (_get_security_features_summary modifiers)).

Definition strength_tiers : list pystr :=
  map lit ["Weak"; "Medium"; "Strong"; "Very Strong"; "Exceptional"]%string.

(** ** Vocabulary of the statements *)

(** [m] started in [w] returns a value (it does not raise), and the value
    satisfies [P]. *)
Definition returns {A} (m : M A) (w : World) (P : A -> Prop) : Prop :=
  exists a w', m w = (Ok a, w') /\ P a.

(** If [m] started in [w] returns a value, the value satisfies [P]. *)
Definition ensures {A} (m : M A) (w : World) (P : A -> Prop) : Prop :=
  forall a w', m w = (Ok a, w') -> P a.

Definition is_hex_char (c : N) : bool :=
  ((48 <=? c) && (c <=? 57)) || ((97 <=? c) && (c <=? 102)).

Definition is_digit_char (c : N) : bool := (48 <=? c) && (c <=? 57).

(** The shape of the fallback password: "Move", eight hex digits, the
    hour, "!". *)
Definition fallback_shape (p : pystr) : Prop :=
  exists h d,
    p = lit "Move" ++ h ++ d ++ lit "!"
    /\ length h = 8%nat /\ forallb is_hex_char h = true
    /\ (length d = 1%nat \/ length d = 2%nat) /\ forallb is_digit_char d = true.

(** The floor [ensure_advanced_complexity] pads to. *)
Definition min_length_of (contextual_modifiers : ContextualModifiers) : N :=
  if pystr_eqb (complexity_of contextual_modifiers) (lit "high") then 16
  else if pystr_eqb (complexity_of contextual_modifiers) (lit "medium") then 14
  else 12.

Definition strong_password : pystr := lit "Aq1!wertyuiopsdf" ++ [U.Omega].

Definition rich_modifiers : ContextualModifiers :=
  mkContextualModifiers (lit "0a1b")
    (Some (mkMovementEntropy (Some (lit "abc")) (Some (lit "high")) (Some 6)
                             (Some (lit "svfc"))))
    (Some (mkBehavioralSignature (Some (lit "11")) (Some (lit "CEP")) (Some (lit "high"))
                                 (Some 5)))
    (lit "0f1e2d") (Some (lit "c3d4")).

(** What the modifier generator computes for a text without any
    vocabulary term and without any word of more than three letters. *)
Definition blank_entropy (h : pystr) : MovementEntropy :=
  mkMovementEntropy (Some h) (Some (lit "low")) (Some 0) (Some []).

Definition blank_behavior : BehavioralSignature :=
  mkBehavioralSignature (Some (lit "0")) (Some (lit "GEN")) (Some (lit "low")) (Some 0).

(** The dictionaries of the two empty-text branches. *)
Definition empty_text_entropy (h : pystr) : MovementEntropy :=
  mkMovementEntropy (Some h) (Some (lit "low")) None None.

Definition empty_text_behavior : BehavioralSignature :=
  mkBehavioralSignature (Some (lit "0")) None (Some (lit "low")) None.

(** The modifiers of a text that is a single space. *)
Definition blank_modifiers (rt : Runtime) (t s c : pystr) : ContextualModifiers :=
  mkContextualModifiers t
    (Some (blank_entropy (take 3 (md5_hexdigest rt (lit "0")))))
    (Some blank_behavior) s (Some c).

(** What [assemble_password] does with no semantic elements and the
    modifiers of a blank text: the action and modifier slots get the
    literal fallbacks, the biometric slot the digest of "0GEN", and a
    medium-security template is rendered and sent through
    [ensure_advanced_complexity]. *)
Definition assembled_from_blank (rt : Runtime) (t s c : pystr) (p : pystr) : Prop :=
  exists template random p0 w1 w2,
    In template medium_security_templates
    /\ format rt template
         (password_components [109; U.Theta; 118] [100; U.Psi; 110]
            (take 4 (take 6 (sha256_hexdigest rt (lit "0GEN")))) t c (lit "GEN") random
            (take 4 (md5_hexdigest rt [71; 69; 206; 177]))) = Ok p0
    /\ ensure_advanced_complexity rt p0 (blank_modifiers rt t s c) w1 = (Ok p, w2)
    /\ 12 <= len p <= 24.

(** What [assemble_password] renders for the text "step": the action
    "57ep", the literal modifier, four hex digits, two hex digits. *)
Definition stepped_password : pystr := lit "57ep_d" ++ [U.Psi] ++ lit "n_ab12_c3".

Definition long_password : pystr := lit "abcdefghijklmnopqrstuvwxyz".

(** The invariants of a [SemanticElements] value: the caps 3 / 3 / 2, no
    duplicates, and only action words among the actions. *)
Definition well_formed_elements (rt : Runtime) (se : SemanticElements) : Prop :=
  NoDup (actions se) /\ (length (actions se) <= 3)%nat
  /\ Forall (fun a => is_action_word rt a = true) (actions se)
  /\ NoDup (descriptors se) /\ (length (descriptors se) <= 3)%nat
  /\ NoDup (qualifiers se) /\ (length (qualifiers se) <= 2)%nat.

(** The delays of [k] successive sleeps that start at attempt [a]. *)
Definition backoff_delays (base_delay a : Z) (k : nat) : list Z :=
  map (fun i => (base_delay * 2 ^ (a + Z.of_nat i))%Z) (seq 0 k).

(** The exception raised when the last attempt fails with a retryable
    error [e]. *)
Definition exhausted (max_retries : Z) (e : exn) : exn :=
  RuntimeError (lit "All " ++ str_of_Z max_retries
                ++ lit " attempts failed. Last error: " ++ str_of_exn e).

(** What [retry_with_backoff] raises after [k] calls, the last of which
    failed with [e0]: [e0] itself when it is not retryable; the report of
    exhaustion when it was the last attempt; the refusal of [time.sleep]
    when the sleep before the next attempt is refused. *)
Definition retry_failure (rt : Runtime) (max_retries base_delay : Z) (k : nat)
    (e0 e : exn) : Prop :=
  (is_retryable rt e0 = false /\ e = e0)
  \/ (is_retryable rt e0 = true /\ Z.of_nat k = max_retries
      /\ e = exhausted max_retries e0)
  \/ (is_retryable rt e0 = true /\ (Z.of_nat k < max_retries)%Z
      /\ time_sleep rt (base_delay * 2 ^ Z.of_nat (k - 1)) = Some e).


(** A string of [n] lower-case hex digits. *)
Definition hex_string (n : nat) (s : pystr) : Prop :=
  length s = n /\ forallb is_hex_char s = true.

(** A string that [encode()] accepts: no surrogate code point. *)
Definition encodable (s : pystr) : bool := forallb (fun c => negb (is_surrogate c)) s.

(** The three levels of complexity and of confidence. *)
Definition levels : list pystr := map lit ["low"; "medium"; "high"]%string.

(** The counts of [_analyze_behavioral_patterns] and the score it derives
    from them. *)
Definition indicator_counts (rt : Runtime) (movement_text : pystr) : N * N * N :=
  (count_terms coordination_indicators (lower rt movement_text),
   count_terms energy_indicators (lower rt movement_text),
   count_terms precision_indicators (lower rt movement_text)).

(** The strings of the modifiers that the assembler hashes hold no
    surrogate. *)
Definition encodable_modifiers (cm : ContextualModifiers) : Prop :=
  encodable (get2 (behavioral_signature cm) complexity_score []) = true
  /\ encodable (get2 (behavioral_signature cm) bs_signature []) = true
  /\ encodable (get2 (movement_entropy cm) me_signature []) = true.

(** Every character is ASCII. *)
Definition is_ascii (s : pystr) : bool := forallb (fun c => c <? 128) s.

(** The number of positions of [chars] whose piece in [pieces] is not the
    character itself. *)
Fixpoint changed (chars : pystr) (pieces : list pystr) : N :=
  match chars, pieces with
  | c :: chars', p :: pieces' =>
      (if pystr_eqb p [c] then 0 else 1) + changed chars' pieces'
  | _, _ => 0
  end.

(** A piece of one character. *)
Definition one_char (p : pystr) : Prop := length p = 1%nat.




(** Upper-casing a code point that is not a surrogate gives no surrogate,
    as in every version of the Unicode database. *)
Definition upper_encodable (rt : Runtime) : Prop :=
  forall c, is_surrogate c = false -> encodable (uc_upper rt c) = true.

(** * Properties *)

(** ** Reasoning about computations *)

Lemma returns_ret {A} (a : A) w (P : A -> Prop) : P a -> returns (ret a) w P.
Proof. intros H. exists a, w. split; [reflexivity | exact H]. Qed.

Lemma returns_bind {A B} (m : M A) (f : A -> M B) w (P : A -> Prop) (Q : B -> Prop) :
  returns m w P ->
  (forall a w', P a -> returns (f a) w' Q) ->
  returns (bind m f) w Q.
Proof.
  intros (a & w1 & Hm & Ha) Hf.
  destruct (Hf a w1 Ha) as (b & w2 & Hb & HQ).
  exists b, w2. split; [| exact HQ].
  unfold bind. rewrite Hm. exact Hb.
Qed.

Lemma returns_weaken {A} (m : M A) w (P Q : A -> Prop) :
  returns m w P -> (forall a, P a -> Q a) -> returns m w Q.
Proof. intros (a & w' & Hm & Ha) HPQ. exists a, w'. auto. Qed.

Lemma returns_ensures {A} (m : M A) w (P : A -> Prop) :
  returns m w P -> ensures m w P.
Proof.
  intros (a & w1 & Hm & Ha) b w2 Hb. rewrite Hm in Hb.
  injection Hb as -> _. exact Ha.
Qed.

Lemma ensures_bind {A B} (m : M A) (f : A -> M B) w (Q : B -> Prop) :
  (forall a w', m w = (Ok a, w') -> ensures (f a) w' Q) ->
  ensures (bind m f) w Q.
Proof.
  intros Hf b w2. unfold bind. destruct (m w) as [[a | e] w1] eqn:Hm.
  - apply (Hf a w1 eq_refl).
  - discriminate.
Qed.

Lemma ensures_ret {A} (a : A) w (P : A -> Prop) : P a -> ensures (ret a) w P.
Proof. intros H b w'. unfold ret. intros [= <- _]. exact H. Qed.

Lemma returns_try_except {A} (body : M A) (handler : exn -> M A) w (P : A -> Prop) :
  ensures body w P ->
  (forall e w', returns (handler e) w' P) ->
  returns (try_except body handler) w P.
Proof.
  intros Hbody Hhandler. unfold returns, try_except.
  destruct (body w) as [[a | e] w1] eqn:Hb.
  - exists a, w1. split; [reflexivity | apply (Hbody a w1 Hb)].
  - apply Hhandler.
Qed.

(** One step through a [bind] whose first computation may raise. *)
Ltac ensures_step :=
  lazymatch goal with
  | |- ensures (bind _ _) _ _ => apply ensures_bind; intros ? ? ?
  end.

(** ** The sources of randomness never raise *)

Lemma len_app (a b : pystr) : len (a ++ b) = len a + len b.
Proof. unfold len. rewrite length_app. lia. Qed.

Lemma hex_digit_is_hex n : n < 16 -> is_hex_char (hex_digit n) = true.
Proof.
  intros Hn. unfold hex_digit, is_hex_char.
  destruct (N.ltb_spec n 10).
  - apply orb_true_iff. left. apply andb_true_iff. split; apply N.leb_le; lia.
  - apply orb_true_iff. right. apply andb_true_iff. split; apply N.leb_le; lia.
Qed.

Lemma returns_draw w : returns draw w (fun _ => True).
Proof. unfold returns, draw. eauto. Qed.

Lemma returns_token_hex n w :
  returns (token_hex n) w
    (fun h => length h = (2 * n)%nat /\ forallb is_hex_char h = true).
Proof.
  revert w. induction n as [| n IH]; intros w.
  - apply returns_ret. split; reflexivity.
  - simpl token_hex.
    eapply returns_bind; [apply returns_draw |]. intros r w1 _.
    eapply returns_bind; [apply IH |]. intros rest w2 [Hlen Hhex].
    apply returns_ret. split.
    + simpl. lia.
    + simpl. rewrite Hhex.
      rewrite !hex_digit_is_hex; [reflexivity | |].
      * apply N.mod_lt. lia.
      * apply N.Div0.div_lt_upper_bound. pose proof (N.mod_lt r 256). lia.
Qed.

Lemma returns_random_choice {A} (l : list A) w :
  l <> [] -> returns (random_choice l) w (fun x => In x l).
Proof.
  intros Hl. unfold random_choice.
  eapply returns_bind; [apply returns_draw |]. intros r w1 _.
  assert (Hlt : (N.to_nat (r mod N.of_nat (length l)) < length l)%nat).
  { assert (N.of_nat (length l) <> 0) by (destruct l; [congruence | simpl; lia]).
    pose proof (N.mod_lt r (N.of_nat (length l)) H). lia. }
  destruct (lookup_lt_is_Some_2 l _ Hlt) as [x Hx].
  rewrite Hx. apply returns_ret.
  apply list_elem_of_In. eapply list_elem_of_lookup_2. exact Hx.
Qed.

Lemma returns_random_digit w : returns random_digit w (fun d => d < 10).
Proof.
  unfold random_digit.
  eapply returns_bind; [apply returns_draw |]. intros r w1 _.
  apply returns_ret. apply N.mod_lt. lia.
Qed.

Lemma returns_pad_hex fuel min_length p w :
  returns (pad_hex fuel min_length p) w
    (fun p' => len p <= len p'
               /\ (min_length <= len p + 2 * N.of_nat fuel -> min_length <= len p')
               /\ len p' <= N.max (len p) (min_length + 1)).
Proof.
  revert p w. induction fuel as [| fuel IH]; intros p w.
  - apply returns_ret. lia.
  - cbn [pad_hex]. destruct (N.ltb_spec (len p) min_length) as [Hlt | Hge].
    + eapply returns_bind; [apply returns_token_hex |]. intros h w1 [Hh _].
      assert (Hl : len h = 2) by (unfold len; rewrite Hh; reflexivity).
      eapply returns_weaken; [apply IH |]. cbv beta. intros p'.
      rewrite len_app, Hl. lia.
    + apply returns_ret. lia.
Qed.

(** ** Length of the password *)

Lemma len_take n (p : pystr) : len (take n p) = N.min (N.of_nat n) (len p).
Proof. unfold len. rewrite length_take. lia. Qed.

Lemma truncate_len (n : nat) (p : pystr) :
  len (if N.of_nat n <? len p then take n p else p) = N.min (N.of_nat n) (len p).
Proof.
  destruct (N.ltb_spec (N.of_nat n) (len p)).
  - rewrite len_take. reflexivity.
  - lia.
Qed.

(** An optional append of one random character never raises. *)
Lemma returns_append_choice (cond : bool) (cs : pystr) (p : pystr) w :
  cs <> [] ->
  returns (if cond then let* c := random_choice cs in ret (p ++ [c]) else ret p) w
          (fun p' => len p' <= len p + 1).
Proof.
  intros Hcs. destruct cond.
  - eapply returns_bind; [apply (returns_random_choice cs w Hcs) |].
    intros c w1 _. apply returns_ret. rewrite len_app. unfold len. simpl. lia.
  - apply returns_ret. lia.
Qed.

Section Lengths.
Variable rt : Runtime.

Lemma returns_ensure_complexity p w :
  returns (ensure_complexity rt p) w (fun p' => 12 <= len p' <= 20).
Proof.
  unfold ensure_complexity.
  eapply returns_bind.
  { apply (returns_append_choice _ (lit "!@#$%")). discriminate. }
  intros p1 w1 _. eapply returns_bind with (P := fun _ => True).
  { destruct (negb _).
    - eapply returns_bind; [apply returns_random_digit |].
      intros d w2 _. apply returns_ret. exact I.
    - apply returns_ret. exact I. }
  intros p2 w2 _. cbv zeta.
  eapply returns_bind; [apply returns_pad_hex |].
  intros p3 w3 (_ & Hmin & _). apply returns_ret.
  change 20 with (N.of_nat 20). rewrite truncate_len. lia.
Qed.

Lemma min_length_of_range cm : 12 <= min_length_of cm <= 16.
Proof. unfold min_length_of. repeat destruct (pystr_eqb _ _); lia. Qed.

(** After [ensure_advanced_complexity] the password has at least the
    floor its movement complexity asks for and at most 24 characters. *)
Lemma returns_ensure_advanced_complexity p cm w :
  returns (ensure_advanced_complexity rt p cm) w
          (fun p' => min_length_of cm <= len p' <= 24).
Proof.
  unfold ensure_advanced_complexity.
  eapply returns_bind; [apply returns_ensure_complexity |].
  intros p1 w1 _. cbv zeta.
  eapply returns_bind.
  { apply (returns_append_choice _ [U.Omega; U.sine_wave; U.cw_arrow]). discriminate. }
  intros p2 w2 _.
  eapply returns_bind.
  { apply (returns_append_choice _ [U.Theta; U.n_ary_sum; U.Psi]). discriminate. }
  intros p3 w3 _.
  fold (min_length_of cm).
  pose proof (min_length_of_range cm) as Hrange.
  eapply returns_bind; [apply returns_pad_hex |].
  intros p4 w4 (_ & Hmin & _). apply returns_ret.
  change 24 with (N.of_nat 24). rewrite truncate_len. lia.
Qed.

Lemma ensures_assemble_password se cm w :
  ensures (assemble_password rt se cm) w (fun p => 12 <= len p <= 24).
Proof.
  unfold assemble_password.
  repeat first [ progress cbv zeta | ensures_step ].
  apply returns_ensures.
  eapply returns_weaken; [apply returns_ensure_advanced_complexity |].
  cbv beta. intros p. pose proof (min_length_of_range cm). lia.
Qed.
End Lengths.

(** [token_hex n] reads [n] values of the random stream. *)
Lemma token_hex_run n w :
  exists h,
    token_hex n w = (Ok h, mkWorld (rng w) (rng_pos w + n) (clock w) (clock_pos w))
    /\ length h = (2 * n)%nat /\ forallb is_hex_char h = true.
Proof.
  revert w. induction n as [| n IH]; intros w.
  - exists []. cbn [token_hex]. unfold ret. rewrite Nat.add_0_r. destruct w. auto.
  - cbn [token_hex]. unfold bind at 1. unfold draw.
    destruct (IH (mkWorld (rng w) (S (rng_pos w)) (clock w) (clock_pos w)))
      as (rest & Hrun & Hlen & Hhex).
    cbn [rng rng_pos clock clock_pos] in Hrun.
    exists (hex_digit ((rng w (rng_pos w) mod 256) / 16)
            :: hex_digit (rng w (rng_pos w) mod 16) :: rest).
    split; [| split].
    + unfold bind. rewrite Hrun. unfold ret. do 2 f_equal. lia.
    + simpl. lia.
    + simpl. rewrite Hhex, !hex_digit_is_hex; [reflexivity | |].
      * apply N.mod_lt. lia.
      * apply N.Div0.div_lt_upper_bound.
        assert (rng w (rng_pos w) mod 256 < 256) by (apply N.mod_lt; lia). lia.
Qed.

(** [str(hour)] is one or two decimal digits. *)
Lemma str_of_hour n :
  n < 24 ->
  (length (str_of_N n) = 1%nat \/ length (str_of_N n) = 2%nat)
  /\ forallb is_digit_char (str_of_N n) = true.
Proof.
  intros Hn.
  assert (Hm : exists m, (m < 24)%nat /\ n = N.of_nat m) by (exists (N.to_nat n); lia).
  destruct Hm as (m & Hm & ->).
  do 24 (destruct m as [| m]; [vm_compute; auto |]). lia.
Qed.

Lemma fallback_shape_len p : fallback_shape p -> 14 <= len p <= 15.
Proof.
  intros (h & d & -> & Hh & _ & Hd & _).
  rewrite !len_app. unfold len. rewrite Hh. simpl. lia.
Qed.

Lemma returns_generate_password_fallback e w :
  returns (generate_password_fallback e) w
    (fun r => fallback_shape (password r)
              /\ components r = ErrorComponents (str_of_exn e) true
              /\ strength r = lit "Medium"
              /\ generation_method r = lit "fallback"
              /\ strength_analysis r = None
              /\ security_features r = None).
Proof.
  unfold generate_password_fallback.
  eapply returns_bind; [apply returns_token_hex |]. intros h w1 [Hlen Hhex].
  eapply returns_bind with (P := fun _ => True).
  { unfold returns, datetime_now. eauto. }
  intros now w2 _. apply returns_ret. simpl.
  split; [| auto 10].
  exists h, (str_of_N (dt_hour now)).
  destruct (str_of_hour (dt_hour now)) as [Hd1 Hd2].
  { unfold dt_hour. apply N.mod_lt. lia. }
  auto 10.
Qed.

Ltac unfold_methods :=
  cbn [MovementPasswordGenerator m_extract_semantic_elements
       m_analyze_extraction_effectiveness m_generate_contextual_modifiers
       m_assemble_password m_assess_password_strength
       m_get_security_features_summary].

Lemma ensures_generate_password_body rt movement_analysis movement_summary w :
  ensures (generate_password_body (MovementPasswordGenerator rt)
             movement_analysis movement_summary) w
          (fun r => 12 <= len (password r) <= 24).
Proof.
  unfold generate_password_body. unfold_methods.
  repeat first [ progress cbv zeta | ensures_step ].
  apply ensures_ret. cbn [password].
  match goal with
  | H : assemble_password _ _ _ _ = (Ok _, _) |- _ =>
      exact (ensures_assemble_password _ _ _ _ _ _ H)
  end.
Qed.

(** C1. For every pair of input strings and every state of the world,
    [generate_password] returns a result whose password has between 12 and
    24 characters; this holds on the normal path (whatever
    [assemble_password] returns comes out of [ensure_advanced_complexity]
    with 12 to 24 characters) and on the fallback path (whatever exception
    is handled, the fallback password has 14 or 15 characters). *)
Theorem generate_password_length (rt : Runtime)
    (movement_analysis movement_summary : pystr) (w : World) :
  (exists r w',
     generate_password (MovementPasswordGenerator rt) movement_analysis movement_summary w
       = (Ok r, w')
     /\ 12 <= len (password r) <= 24)
  /\ (forall se cm w0,
        match assemble_password rt se cm w0 with
        | (Ok p, _) => 12 <= len p <= 24
        | (Raise _, _) => True
        end)
  /\ (forall e w0, exists r w',
        generate_password_fallback e w0 = (Ok r, w')
        /\ 12 <= len (password r) <= 24).
Proof.
  assert (Hfallback : forall e w0,
             returns (generate_password_fallback e) w0
                     (fun r => 12 <= len (password r) <= 24)).
  { intros e w0.
    eapply returns_weaken; [apply returns_generate_password_fallback |].
    cbv beta. intros r (Hshape & _). apply fallback_shape_len in Hshape. lia. }
  split; [| split].
  - apply (returns_try_except _ _ w (fun r => 12 <= len (password r) <= 24)).
    + apply ensures_generate_password_body.
    + exact Hfallback.
  - intros se cm w0.
    destruct (assemble_password rt se cm w0) as [[p | e] w1] eqn:Hp; [| exact I].
    exact (ensures_assemble_password _ _ _ _ _ _ Hp).
  - exact Hfallback.
Qed.

(** ** The fallback path *)

(** What the [except] branch does in the world [w1] it is entered in:
    four draws, then one reading of the clock. *)
Lemma generate_password_fallback_run e w1 :
  exists h,
    token_hex 4 w1 = (Ok h, mkWorld (rng w1) (rng_pos w1 + 4) (clock w1) (clock_pos w1))
    /\ length h = 8%nat /\ forallb is_hex_char h = true
    /\ generate_password_fallback e w1
       = (Ok (mkPasswordResult
                (lit "Move" ++ h ++ str_of_N (dt_hour (clock w1 (clock_pos w1)))
                 ++ lit "!")
                (ErrorComponents (str_of_exn e) true) (lit "Medium") None
                (lit "fallback") None),
          mkWorld (rng w1) (rng_pos w1 + 4) (clock w1) (S (clock_pos w1))).
Proof.
  destruct (token_hex_run 4 w1) as (h & Hh & Hlen & Hhex).
  exists h. split; [exact Hh |]. split; [exact Hlen |]. split; [exact Hhex |].
  unfold generate_password_fallback. unfold bind at 1. rewrite Hh. reflexivity.
Qed.

(** C4. When the body of [generate_password] raises an exception [e], the
    call returns a result with generation_method "fallback", strength
    "Medium", the message of [e] under components, and a password made of
    "Move", the eight hex digits of [secrets.token_hex(4)], the current
    hour (the hour of the clock reading made when the exception is
    handled, in one or two digits, without a leading zero) and "!".  The
    handler draws four random bytes and reads the clock once. *)
Theorem generate_password_on_exception (self : Generator)
    (movement_analysis movement_summary : pystr) (w w1 : World) (e : exn) :
  generate_password_body self movement_analysis movement_summary w = (Raise e, w1) ->
  exists r h,
    generate_password self movement_analysis movement_summary w
    = (Ok r, mkWorld (rng w1) (rng_pos w1 + 4) (clock w1) (S (clock_pos w1)))
    /\ generation_method r = lit "fallback"
    /\ strength r = lit "Medium"
    /\ fallback_shape (password r)
    /\ components r = ErrorComponents (str_of_exn e) true
    /\ token_hex 4 w1
       = (Ok h, mkWorld (rng w1) (rng_pos w1 + 4) (clock w1) (clock_pos w1))
    /\ password r
       = lit "Move" ++ h ++ str_of_N (dt_hour (clock w1 (clock_pos w1))) ++ lit "!"
    /\ dt_hour (clock w1 (clock_pos w1)) < 24.
Proof.
  intros Hbody. unfold generate_password, try_except. rewrite Hbody.
  destruct (generate_password_fallback_run e w1) as (h & Hh & Hlen & Hhex & Hrun).
  assert (Hhour : dt_hour (clock w1 (clock_pos w1)) < 24).
  { unfold dt_hour. apply N.mod_lt. lia. }
  eexists _, h. split; [exact Hrun |].
  cbn [generation_method strength password components].
  split; [reflexivity |]. split; [reflexivity |].
  split.
  { exists h, (str_of_N (dt_hour (clock w1 (clock_pos w1)))).
    destruct (str_of_hour _ Hhour) as [Hd1 Hd2]. auto 10. }
  auto.
Qed.

Lemma generate_password_on_exception_witness :
  exists r,
    generate_password (failing_generator plain_runtime)
      (lit "the person is walking forward") (lit "a walk") (constant_world 0)
    = (Ok r, mkWorld (fun _ => 0) 12 (fun _ => morning) 2)
    /\ generation_method r = lit "fallback"
    /\ strength r = lit "Medium"
    /\ password r = lit "Move000000009!"
    /\ components r = ErrorComponents (lit "template rendering failed") true.
Proof.
  destruct (generate_password_on_exception (failing_generator plain_runtime)
              (lit "the person is walking forward") (lit "a walk") (constant_world 0)
              (mkWorld (fun _ => 0) 8 (fun _ => morning) 1)
              (RuntimeError (lit "template rendering failed")))
    as (r & h & Hrun & Hmethod & Hstrength & _ & Hcomp & Hh & Hpassword & _).
  - vm_compute. reflexivity.
  - exists r. split; [exact Hrun |]. split; [exact Hmethod |].
    split; [exact Hstrength |]. split; [| exact Hcomp].
    rewrite Hpassword. vm_compute in Hh. injection Hh as <-. vm_compute. reflexivity.
Defined.

(** ** The fields of the result *)

Lemma strength_of_score_tier z : In (strength_of_score z) strength_tiers.
Proof.
  unfold strength_of_score, strength_tiers.
  repeat destruct (_ <=? z)%Z; simpl; auto 10.
Qed.

(** The forced failure yields a result without the keys
    'strength_analysis' and 'security_features'. *)
Lemma fallback_result_lacks_fields :
  ~ (forall self movement_analysis movement_summary w r w',
       generate_password self movement_analysis movement_summary w = (Ok r, w') ->
       In (strength r) strength_tiers
       /\ is_Some (strength_analysis r) /\ is_Some (security_features r)).
Proof.
  intros H.
  destruct (generate_password (failing_generator plain_runtime)
              (lit "the person is walking forward") (lit "a walk") (constant_world 0))
    as [[r | e] w'] eqn:Hrun.
  - destruct (H _ _ _ _ _ _ Hrun) as (_ & [sa Hsa] & _).
    vm_compute in Hrun. injection Hrun as <- _. discriminate Hsa.
  - vm_compute in Hrun. discriminate Hrun.
Qed.

(** C8, as the code has it. Every call of [generate_password] returns a
    result with a password, components, a strength among the five tiers
    and a generation method.  A result of the normal path is marked
    "advanced_biometric_extraction" and also has strength_analysis and
    security_features; a result of the fallback path is marked "fallback",
    has strength "Medium" and has neither of the two. *)
Theorem generate_password_result_fields (rt : Runtime)
    (movement_analysis movement_summary : pystr) (w : World) :
  (exists r w',
     generate_password (MovementPasswordGenerator rt) movement_analysis movement_summary w
       = (Ok r, w')
     /\ In (strength r) strength_tiers
     /\ ((generation_method r = lit "advanced_biometric_extraction"
          /\ is_Some (strength_analysis r) /\ is_Some (security_features r)
          /\ exists se cm ea, components r = PipelineComponents se cm ea)
         \/ (generation_method r = lit "fallback"
             /\ strength r = lit "Medium"
             /\ strength_analysis r = None /\ security_features r = None
             /\ exists msg, components r = ErrorComponents msg true)))
  /\ (forall self w0,
        match generate_password_body self movement_analysis movement_summary w0 with
        | (Ok r, w1) =>
            generate_password self movement_analysis movement_summary w0 = (Ok r, w1)
        | (Raise e, w1) =>
            exists r w',
              generate_password self movement_analysis movement_summary w0 = (Ok r, w')
              /\ generation_method r = lit "fallback"
              /\ strength r = lit "Medium"
              /\ strength_analysis r = None /\ security_features r = None
              /\ components r = ErrorComponents (str_of_exn e) true
        end).
Proof.
  split.
  - apply returns_try_except.
    + unfold generate_password_body. unfold_methods.
      repeat first [ progress cbv zeta | ensures_step ].
      apply ensures_ret. cbn [strength generation_method strength_analysis
                              security_features components].
      match goal with
      | H : ret (assess_password_strength _ _ _) _ = (Ok _, _) |- _ =>
          unfold ret in H; injection H as <- _
      end.
      split; [apply strength_of_score_tier |].
      left. repeat split; eauto.
    + intros e w0.
      eapply returns_weaken; [apply returns_generate_password_fallback |].
      cbv beta. intros r (_ & Hcomp & Hstrength & Hmethod & Hsa & Hsf).
      split.
      * rewrite Hstrength. vm_compute. auto.
      * right. repeat split; eauto.
  - intros self w0. unfold generate_password, try_except.
    destruct (generate_password_body self movement_analysis movement_summary w0)
      as [[r | e] w1]; [reflexivity |].
    destruct (returns_generate_password_fallback e w1)
      as (r & w' & Hr & _ & Hcomp & Hstrength & Hmethod & Hsa & Hsf).
    exists r, w'. auto 10.
Qed.

(** ** Template rendering *)

Lemma select_template_in se cm w :
  returns (_select_security_optimal_template se cm) w
          (fun t => In t (high_security_templates ++ medium_security_templates)).
Proof.
  unfold _select_security_optimal_template.
  destruct (use_high_security se cm).
  - eapply returns_weaken; [apply returns_random_choice; discriminate |].
    cbv beta. intros t Ht. apply in_or_app. left. exact Ht.
  - eapply returns_weaken; [apply returns_random_choice; discriminate |].
    cbv beta. intros t Ht. apply in_or_app. right. exact Ht.
Qed.

(** Every template of the two sets renders against a dictionary that binds
    the eight slot names. *)
Lemma format_known_template (rt : Runtime) t
    (action modifier biometric temporal entropy behavioral random signature : pystr) :
  In t (high_security_templates ++ medium_security_templates) ->
  exists p,
    format rt t (password_components action modifier biometric temporal entropy
                behavioral random signature) = Ok p.
Proof.
  intros Ht. simpl in Ht.
  repeat (destruct Ht as [<- | Ht]; [eexists; vm_compute; reflexivity |]).
  destruct Ht.
Qed.


(** ** Strength assessment *)

(** C7. [assess_password_strength] uses neither the random source nor the
    clock: called on the same password and modifiers in any two states of
    the world, it returns the same analysis (score, strength tier, factors
    and recommendations), and it leaves the world as it found it. *)
Theorem assess_password_strength_deterministic (rt : Runtime) (password : pystr)
    (contextual_data : option ContextualModifiers) (w1 w2 : World) :
  let assess := m_assess_password_strength (MovementPasswordGenerator rt) in
  fst (assess password contextual_data w1) = fst (assess password contextual_data w2)
  /\ fst (assess password contextual_data w1)
     = Ok (assess_password_strength rt password contextual_data)
  /\ snd (assess password contextual_data w1) = w1.
Proof. cbv zeta. unfold_methods. unfold ret. simpl. auto. Qed.

Section ScoreBound.
Variable rt : Runtime.
Local Open Scope Z_scope.

Lemma peel_when b f t k a n :
  (forall t0, t_score (f t0) = t_score t0 + k) ->
  t_score t + (a + Z.max 0 k) <= n ->
  t_score (when b f t) + a <= n.
Proof. intros Hf H. unfold when. destruct b; [rewrite Hf |]; lia. Qed.

Lemma peel_add_score k t a n :
  t_score t + (a + k) <= n -> t_score (add_score k t) + a <= n.
Proof. cbn. lia. Qed.

Lemma peel_add_factor f t a n :
  t_score t + a <= n -> t_score (add_factor f t) + a <= n.
Proof. cbn. lia. Qed.

Lemma peel_add_recommendation r t a n :
  t_score t + a <= n -> t_score (add_recommendation r t) + a <= n.
Proof. cbn. lia. Qed.

Ltac peel :=
  lazymatch goal with
  | |- t_score (when _ _ _) + _ <= _ =>
      eapply peel_when; [intros; cbn; reflexivity |]
  | |- t_score (add_score _ _) + _ <= _ => apply peel_add_score
  | |- t_score (add_factor _ _) + _ <= _ => apply peel_add_factor
  | |- t_score (add_recommendation _ _) + _ <= _ => apply peel_add_recommendation
  | |- t_score (if ?c then _ else _) + _ <= _ => destruct c
  | |- t_score (match ?d with Some _ => _ | None => _ end) + _ <= _ => destruct d
  | |- t_score (mkTally _ _ _ _) + _ <= _ => cbn; lia
  end.

(** The rubric gives at most 17 points. *)
Lemma score_at_most_17 password contextual_data :
  sa_score (assess_password_strength rt password contextual_data) <= 17.
Proof.
  unfold assess_password_strength. cbv zeta. cbn [sa_score].
  rewrite <- (Z.add_0_r (t_score _)).
  unfold score_tally. cbv zeta.
  repeat peel.
Qed.
End ScoreBound.

(** C10. There are a password and contextual modifiers for which
    [assess_password_strength] reports a score of 17, above the max_score
    of 15 that the same report carries; and 17 is the most the rubric gives
    (3 for length, 1 + 1 + 1 for lower case, upper case and digit, 2 for
    punctuation, 3 for a biometric marker, 2 for high behavioral
    confidence, 2 for high movement complexity, 2 for character
    uniqueness). *)
Theorem score_exceeds_max_score (rt : Runtime) :
  (exists password contextual_data,
     let a := assess_password_strength rt password (Some contextual_data) in
     sa_max_score a = 15%Z /\ sa_score a = 17%Z /\ (sa_max_score a < sa_score a)%Z)
  /\ (forall password contextual_data,
        (sa_score (assess_password_strength rt password contextual_data) <= 17)%Z).
Proof.
  split.
  - exists strong_password, rich_modifiers. vm_compute. auto.
  - apply score_at_most_17.
Qed.

(** ** Movement entropy *)

Lemma utf8_encode_returns (s : pystr) w :
  forallb (fun c => negb (is_surrogate c)) s = true ->
  returns (utf8_encode s) w (fun _ => True).
Proof.
  revert w. induction s as [| c s IH]; intros w Hs.
  - apply returns_ret. exact I.
  - simpl in Hs. apply andb_true_iff in Hs as [Hc Hs].
    cbn [utf8_encode]. unfold utf8_char.
    destruct (c <? 128); [| destruct (c <? 2048)];
      [ | | apply negb_true_iff in Hc; unfold is_surrogate in Hc; rewrite Hc;
            destruct (c <? 65536) ];
      (eapply returns_bind; [apply (IH _ Hs) |]; intros; apply returns_ret; exact I).
Qed.

Lemma str_of_N_aux_digits fuel n acc :
  forallb is_digit_char acc = true ->
  forallb is_digit_char (str_of_N_aux fuel n acc) = true.
Proof.
  revert n acc. induction fuel as [| fuel IH]; intros n acc Hacc; [exact Hacc |].
  cbn [str_of_N_aux].
  assert (Hd : forallb is_digit_char ((48 + n mod 10) :: acc) = true).
  { cbn [forallb]. rewrite Hacc, andb_true_r. unfold is_digit_char.
    assert (Hlt : n mod 10 < 10) by (apply N.mod_lt; lia).
    revert Hlt. generalize (n mod 10). intros d Hlt.
    apply andb_true_iff. split; apply N.leb_le; lia. }
  destruct (n <? 10); [exact Hd | apply IH; exact Hd].
Qed.

Lemma str_of_N_digits n : forallb is_digit_char (str_of_N n) = true.
Proof. apply str_of_N_aux_digits. reflexivity. Qed.

Lemma digit_not_surrogate c : is_digit_char c = true -> negb (is_surrogate c) = true.
Proof.
  unfold is_digit_char, is_surrogate. intros H.
  apply andb_true_iff in H as [_ H]. apply N.leb_le in H.
  apply negb_true_iff, andb_false_iff. left. apply N.leb_gt. lia.
Qed.

Lemma hex_not_surrogate c : is_hex_char c = true -> negb (is_surrogate c) = true.
Proof.
  unfold is_hex_char, is_surrogate. intros H.
  apply negb_true_iff, andb_false_iff. left. apply N.leb_gt.
  apply orb_true_iff in H as [H | H]; apply andb_true_iff in H as [_ H];
    apply N.leb_le in H; lia.
Qed.

Lemma forallb_impl {A} (f g : A -> bool) (l : list A) :
  (forall x, f x = true -> g x = true) -> forallb f l = true -> forallb g l = true.
Proof.
  intros Hfg. induction l as [| x l IH]; [reflexivity |].
  simpl. intros H. apply andb_true_iff in H as [Hx Hl].
  rewrite (Hfg x Hx), (IH Hl). reflexivity.
Qed.

Section Words.
Variable rt : Runtime.

Lemma word_not_surrogate c : char_isword rt c = true -> negb (is_surrogate c) = true.
Proof.
  unfold char_isword. destruct (N.ltb_spec c 128) as [Hlt | Hge].
  - intros _. unfold is_surrogate.
    apply negb_true_iff, andb_false_iff. left. apply N.leb_gt. lia.
  - destruct (is_surrogate c); [discriminate | reflexivity].
Qed.

Lemma word_match_head cur cur' caps :
  match_here rt false word_pattern cur = Some (cur', caps) ->
  match rest cur with
  | c :: _ => char_isword rt c = true
  | [] => False
  end.
Proof.
  unfold match_here, word_pattern, W. cbn [RSeq RPlus rmatch].
  destruct (xorb _ _); [| discriminate].
  unfold step_char. destruct (rest cur) as [| c s']; [discriminate |].
  cbn [class_matches]. destruct (char_isword rt c); [auto | discriminate].
Qed.

Lemma scan_word_heads fuel cur m c :
  In m (scan rt false fuel word_pattern cur) ->
  head (fst m) = Some c -> char_isword rt c = true.
Proof.
  revert cur. induction fuel as [| fuel IH]; intros cur; [intros [] |].
  cbn [scan].
  destruct (match_here rt false word_pattern cur) as [[cur' caps] |] eqn:Hm.
  - apply word_match_head in Hm.
    intros [<- | Hin].
    + cbn [fst]. unfold matched_text.
      destruct (rest cur) as [| c0 s']; [destruct Hm |].
      destruct (length (c0 :: s') - length (rest cur'))%nat; [discriminate |].
      cbn. intros [= <-]. exact Hm.
    + destruct (_ <? _)%nat; [exact (IH _ Hin) |].
      destruct (rest cur); [destruct Hin | exact (IH _ Hin)].
  - destruct (rest cur); [intros [] | apply IH].
Qed.

Lemma pattern_signature_words (text : pystr) :
  forallb (char_isword rt)
    (take 8 (flat_map (fun word => take 1 word)
               (List.filter (fun word => 3 <? len word)
                  (findall0 rt false word_pattern text)))) = true.
Proof.
  apply forallb_forall. intros c Hc.
  apply list_elem_of_In, elem_of_take in Hc as (i & Hc & _).
  apply list_elem_of_lookup_2, list_elem_of_In, in_flat_map in Hc
    as (word & Hword & Hc).
  apply filter_In in Hword as [Hword _].
  unfold findall0, finditer in Hword. apply in_map_iff in Hword as (m & <- & Hm).
  apply (scan_word_heads _ _ m c Hm).
  destruct (fst m) as [| c0 s]; [destruct Hc |].
  cbn in Hc. destruct Hc as [<- | []]. reflexivity.
Qed.

(** C6. For every non-empty text, in every state of the world,
    [_generate_movement_entropy] returns; it records as movement_types
    the number of biometric-vocabulary terms that occur in the lower-cased
    text, and classifies the complexity as high when that number is
    greater than 5, medium when it is 3 to 5 (so medium at exactly 5),
    and low when it is at most 2. *)
Theorem movement_entropy_complexity (movement_text : pystr) (w : World) :
  truthy movement_text = true ->
  exists me w',
    _generate_movement_entropy rt movement_text w = (Ok me, w')
    /\ let n := count_terms (concat movement_biometrics) (lower rt movement_text) in
       movement_types me = Some n
       /\ (5 < n -> complexity me = Some (lit "high"))
       /\ (3 <= n <= 5 -> complexity me = Some (lit "medium"))
       /\ (n = 5 -> complexity me = Some (lit "medium"))
       /\ (n <= 2 -> complexity me = Some (lit "low")).
Proof.
  intros Htext. unfold _generate_movement_entropy. rewrite Htext. cbn [negb].
  cbv zeta.
  set (n := count_terms (concat movement_biometrics) (lower rt movement_text)).
  set (sig := take 8 _).
  destruct (utf8_encode_returns (sig ++ str_of_N n) w) as (bytes & w' & Hbytes & _).
  { rewrite forallb_app. apply andb_true_iff. split.
    - apply (forallb_impl (char_isword rt)); [apply word_not_surrogate |].
      apply pattern_signature_words.
    - apply (forallb_impl is_digit_char); [apply digit_not_surrogate |].
      apply str_of_N_digits. }
  exists (mkMovementEntropy (Some (take 3 (md5_hexdigest rt bytes)))
            (Some (complexity_level n)) (Some n) (Some (take 4 sig))), w'.
  split.
  - unfold bind. rewrite Hbytes. reflexivity.
  - cbn [movement_types complexity]. unfold complexity_level.
    split; [reflexivity |].
    destruct (N.ltb_spec 5 n); [| destruct (N.ltb_spec 2 n)];
      repeat split; intros; first [reflexivity | lia].
Qed.
End Words.

Lemma movement_entropy_complexity_witness :
  exists me w',
    _generate_movement_entropy plain_runtime
      (lit "A steady stride and cadence, an even pace, rhythm and flow")
      (constant_world 0) = (Ok me, w')
    /\ movement_types me = Some 5
    /\ complexity me = Some (lit "medium").
Proof.
  destruct (movement_entropy_complexity plain_runtime
              (lit "A steady stride and cadence, an even pace, rhythm and flow")
              (constant_world 0) eq_refl)
    as (me & w' & Hrun & Hn & _ & _ & Hfive & _).
  exists me, w'. split; [exact Hrun |]. split; [exact Hn |].
  apply Hfive. vm_compute. reflexivity.
Defined.

Lemma returns_eq {A} (m : M A) w a w' (P : A -> Prop) :
  m w = (Ok a, w') -> P a -> returns m w P.
Proof. intros Hm Ha. exists a, w'. auto. Qed.

Lemma returns_bind_eq {A B} (m : M A) (f : A -> M B) w a w' (Q : B -> Prop) :
  m w = (Ok a, w') -> returns (f a) w' Q -> returns (bind m f) w Q.
Proof.
  intros Hm (b & w2 & Hb & HQ). exists b, w2. split; [| exact HQ].
  unfold bind. rewrite Hm. exact Hb.
Qed.

Lemma returns_try_ok {A} (body : M A) (handler : exn -> M A) w (P : A -> Prop) :
  returns body w P -> returns (try_except body handler) w P.
Proof.
  intros (a & w' & Hb & Ha). exists a, w'. split; [| exact Ha].
  unfold try_except. rewrite Hb. reflexivity.
Qed.

Lemma forallb_take {A} (f : A -> bool) n (l : list A) :
  forallb f l = true -> forallb f (take n l) = true.
Proof.
  revert n. induction l as [| x l IH]; intros [| n] H; try reflexivity.
  simpl in *. apply andb_true_iff in H as [Hx Hl].
  rewrite Hx, (IH n Hl). reflexivity.
Qed.

Lemma hex_digits_hex k n acc :
  forallb is_hex_char acc = true -> forallb is_hex_char (hex_digits k n acc) = true.
Proof.
  revert n acc. induction k as [| k IH]; intros n acc Hacc; [exact Hacc |].
  cbn [hex_digits]. apply IH. cbn [forallb]. rewrite Hacc, andb_true_r.
  apply hex_digit_is_hex. apply N.mod_lt. lia.
Qed.

(** ** Empty inputs *)

Section EmptyInputs.
Variable rt : Runtime.

Lemma extract_semantic_elements_empty w :
  extract_semantic_elements rt [] w = (Ok (mkSemanticElements [] [] [] []), w).
Proof. reflexivity. Qed.

Lemma generate_movement_entropy_blank w :
  _generate_movement_entropy rt (lit " ") w
  = (Ok (blank_entropy (take 3 (md5_hexdigest rt (lit "0")))), w).
Proof. reflexivity. Qed.

Lemma analyze_behavioral_patterns_blank w :
  _analyze_behavioral_patterns rt (lit " ") w = (Ok blank_behavior, w).
Proof. reflexivity. Qed.

Lemma generate_biometric_hash_blank w :
  generate_biometric_hash rt (mkSemanticElements [] [] [] (lit " ")) (Some blank_behavior) w
  = (Ok (take 6 (sha256_hexdigest rt (lit "0GEN"))), w).
Proof. reflexivity. Qed.

Lemma utf8_encode_of_hex_and_digits (parts : list pystr) w :
  forallb (fun p => forallb (fun c => is_hex_char c || is_digit_char c) p) parts = true ->
  returns (utf8_encode (concat parts)) w (fun _ => True).
Proof.
  intros Hparts. apply utf8_encode_returns.
  apply forallb_forall. intros c Hc.
  apply in_concat in Hc as (p & Hp & Hc).
  rewrite forallb_forall in Hparts. specialize (Hparts p Hp).
  rewrite forallb_forall in Hparts. specialize (Hparts c Hc).
  apply orb_true_iff in Hparts as [H | H];
    [apply hex_not_surrogate | apply digit_not_surrogate]; exact H.
Qed.

Lemma digits_part n :
  forallb (fun c => is_hex_char c || is_digit_char c) (str_of_N n) = true.
Proof.
  apply (forallb_impl is_digit_char); [| apply str_of_N_digits].
  intros c ->. apply orb_true_r.
Qed.

Lemma hex_part n k :
  forallb (fun c => is_hex_char c || is_digit_char c) (take n (hex_digits k (md5 rt (lit "0")) []))
  = true.
Proof.
  apply forallb_take.
  apply (forallb_impl is_hex_char); [intros c ->; reflexivity |].
  apply hex_digits_hex. reflexivity.
Qed.

Lemma generate_contextual_modifiers_blank w :
  returns (generate_contextual_modifiers rt (lit " ")) w
          (fun cm => exists t s c, cm = blank_modifiers rt t s c).
Proof.
  unfold generate_contextual_modifiers.
  eapply returns_bind with (P := fun _ => True).
  { unfold returns, datetime_now. eauto. }
  intros now w1 _. cbv zeta.
  eapply returns_bind_eq; [apply generate_movement_entropy_blank |].
  eapply returns_bind_eq; [apply analyze_behavioral_patterns_blank |].
  cbn [getitem pattern_hash complexity_score blank_entropy blank_behavior].
  eapply returns_bind_eq; [reflexivity |].
  eapply returns_bind_eq; [reflexivity |].
  eapply returns_bind with (P := fun _ => True).
  { pose proof (utf8_encode_of_hex_and_digits
                  [str_of_N (dt_hour now); str_of_N (dt_minute now);
                   str_of_N (dt_second now); take 3 (md5_hexdigest rt (lit "0"));
                   lit "0"; take 3 (str_of_N (dt_microsecond now))] w1) as H.
    cbn [concat] in H. rewrite app_nil_r in H. rewrite <- ?app_assoc.
    apply H. cbn [forallb]. rewrite !digits_part. unfold md5_hexdigest.
    rewrite hex_part. rewrite (forallb_take _ _ _ (digits_part _)). reflexivity. }
  intros bytes w6 _.
  eapply returns_bind; [apply returns_token_hex |]. intros session w7 _.
  apply returns_ret. unfold blank_modifiers. eauto.
Qed.

Lemma assemble_password_blank t s c w :
  returns (assemble_password rt (mkSemanticElements [] [] [] (lit " "))
             (blank_modifiers rt t s c)) w
          (assembled_from_blank rt t s c).
Proof.
  unfold assemble_password.
  cbn [behavioral_signature blank_modifiers actions].
  eapply returns_bind_eq; [apply generate_biometric_hash_blank |].
  eapply returns_bind_eq; [reflexivity |].
  eapply returns_bind_eq; [reflexivity |].
  eapply returns_bind_eq; [reflexivity |].
  cbv zeta.
  eapply returns_bind; [apply returns_token_hex |]. intros unused w5 _.
  eapply returns_bind; [apply (returns_token_hex 1) |]. intros random w6 _.
  eapply returns_bind.
  { unfold _select_security_optimal_template.
    change (use_high_security _ _) with false.
    apply returns_random_choice. discriminate. }
  intros template w7 Htemplate.
  destruct (format_known_template rt template [109; U.Theta; 118] [100; U.Psi; 110]
              (take 4 (take 6 (sha256_hexdigest rt (lit "0GEN")))) t c (lit "GEN")
              random (take 4 (md5_hexdigest rt [71; 69; 206; 177])))
    as [p0 Hp0].
  { apply in_or_app. right. exact Htemplate. }
  eapply returns_bind_eq.
  { unfold _dynamic_password_assembly.
    change (format rt template _) with
      (format rt template
         (password_components [109; U.Theta; 118] [100; U.Psi; 110]
            (take 4 (take 6 (sha256_hexdigest rt (lit "0GEN")))) t c (lit "GEN") random
            (take 4 (md5_hexdigest rt [71; 69; 206; 177])))).
    rewrite Hp0. reflexivity. }
  destruct (returns_ensure_advanced_complexity rt p0
              (mkContextualModifiers t
                 (Some (blank_entropy (take 3 (md5_hexdigest rt (lit "0")))))
                 (Some blank_behavior) s (Some c)) w7)
    as (p & w9 & Hp & Hlen).
  exists p, w9. split; [exact Hp |].
  exists template, random, p0, w7, w9.
  pose proof (min_length_of_range
                (mkContextualModifiers t
                   (Some (blank_entropy (take 3 (md5_hexdigest rt (lit "0")))))
                   (Some blank_behavior) s (Some c))).
  repeat split; auto; lia.
Qed.
End EmptyInputs.

(** The two empty-text branches of the modifier generator return the
    dictionaries named above. *)
Lemma empty_text_branches rt w :
  returns (_generate_movement_entropy rt []) w (fun me => exists h, me = empty_text_entropy h)
  /\ _analyze_behavioral_patterns rt [] w = (Ok empty_text_behavior, w).
Proof.
  split; [| reflexivity].
  unfold _generate_movement_entropy. cbn [truthy negb].
  eapply returns_bind; [apply returns_token_hex |]. intros h w1 _.
  apply returns_ret. exists h. reflexivity.
Qed.

(** With two empty inputs the modifier generator does not take its
    empty-text branches: the text it receives is a single space. *)
Lemma empty_inputs_skip_empty_text_branches :
  ~ (forall rt w, exists r w' se cm ea h,
       generate_password (MovementPasswordGenerator rt) [] [] w = (Ok r, w')
       /\ generation_method r = lit "advanced_biometric_extraction"
       /\ components r = PipelineComponents se cm ea
       /\ actions se = [] /\ descriptors se = [] /\ qualifiers se = []
       /\ movement_entropy cm = Some (empty_text_entropy h)
       /\ behavioral_signature cm = Some empty_text_behavior).
Proof.
  intros H.
  destruct (H plain_runtime (constant_world 0))
    as (r & w' & se & cm & ea & h & Hrun & _ & Hcomp & _ & _ & _ & Hme & _).
  vm_compute in Hrun. injection Hrun as <- _.
  injection Hcomp as _ <- _. discriminate Hme.
Qed.

(** C5, as the code has it. When both inputs are the empty string,
    extraction yields no actions, descriptors or qualifiers, and
    [generate_password] returns, without raising, a result marked
    "advanced_biometric_extraction".  The merged text is a single space,
    so the modifier generator takes its ordinary branches with zero
    matches (movement_types 0, complexity low, empty signature,
    complexity_score "0", behavioral signature "GEN", confidence low).  The
    assembler puts its literal fallbacks in the action and modifier slots
    and the digest of "0GEN" in the biometric slot, and renders a
    medium-security template. *)
Theorem generate_password_empty_inputs (rt : Runtime) (w : World) :
  extract_semantic_elements rt [] w = (Ok (mkSemanticElements [] [] [] []), w)
  /\ exists r w' ea t s c,
       generate_password (MovementPasswordGenerator rt) [] [] w = (Ok r, w')
       /\ generation_method r = lit "advanced_biometric_extraction"
       /\ components r
          = PipelineComponents (mkSemanticElements [] [] [] (lit " "))
                               (blank_modifiers rt t s c) ea
       /\ assembled_from_blank rt t s c (password r).
Proof.
  split; [apply extract_semantic_elements_empty |].
  assert (Hbody : returns (generate_password_body (MovementPasswordGenerator rt) [] []) w
            (fun r => exists ea t s c,
               generation_method r = lit "advanced_biometric_extraction"
               /\ components r
                  = PipelineComponents (mkSemanticElements [] [] [] (lit " "))
                                       (blank_modifiers rt t s c) ea
               /\ assembled_from_blank rt t s c (password r))).
  { unfold generate_password_body. unfold_methods.
    eapply returns_bind_eq; [apply extract_semantic_elements_empty |].
    eapply returns_bind_eq; [apply extract_semantic_elements_empty |].
    do 3 (eapply returns_bind_eq; [reflexivity |]).
    cbv zeta.
    eapply returns_bind_eq; [reflexivity |].
    eapply returns_bind; [apply generate_contextual_modifiers_blank |].
    intros cm w1 (t & s & c & ->).
    eapply returns_bind; [apply assemble_password_blank |].
    intros p w2 Hp.
    do 2 (eapply returns_bind_eq; [reflexivity |]).
    apply returns_ret. cbn [generation_method components password].
    eexists _, t, s, c. split; [reflexivity |]. split; [reflexivity | exact Hp]. }
  destruct (returns_try_ok _ generate_password_fallback _ _ Hbody)
    as (r & w' & Hrun & ea & t & s & c & H).
  exists r, w', ea, t, s, c. split; [exact Hrun | exact H].
Qed.

(** ** The baseline complexity pass on two inputs *)

Lemma small_digit d : d < 10 -> In d [0; 1; 2; 3; 4; 5; 6; 7; 8; 9].
Proof.
  intros Hd.
  assert (Hm : exists m, (m < 10)%nat /\ d = N.of_nat m) by (exists (N.to_nat d); lia).
  destruct Hm as (m & Hm & ->).
  do 10 (destruct m as [| m]; [simpl; auto 11 |]). lia.
Qed.

(** C2 on the code. [ensure_complexity] returns "57ep_d(Psi)n_ab12_c3" as
    it is, for every runtime and every random outcome: its first character
    has no upper case, so no upper-case letter is added.  And from the 26
    lower-case letters it returns "Abcdefghijklmnopqrst": the symbol and
    the digit it appends are cut off again by the limit of 20. *)
Theorem ensure_complexity_misses (rt : Runtime) (w : World) :
  (ensure_complexity rt stepped_password w = (Ok stepped_password, w)
   /\ has rt (CRange 65 90) stepped_password = false
   /\ len stepped_password = 16)
  /\ (exists w',
        ensure_complexity rt long_password w = (Ok (lit "Abcdefghijklmnopqrst"), w')
        /\ has rt punctuation (lit "Abcdefghijklmnopqrst") = false
        /\ has rt CDigit (lit "Abcdefghijklmnopqrst") = false).
Proof.
  split; [repeat split |].
  assert (H : returns (ensure_complexity rt long_password) w
                      (fun p => p = lit "Abcdefghijklmnopqrst")).
  { unfold ensure_complexity.
    eapply returns_bind with (P := fun p1 => exists c, In c (lit "!@#$%")
                                            /\ p1 = long_password ++ [c]).
    { change (negb (has rt punctuation long_password)) with true. cbv iota.
      eapply returns_bind; [apply returns_random_choice; discriminate |].
      intros c w1 Hc. apply returns_ret. exists c. split; [exact Hc | reflexivity]. }
    intros p1 w1 (c & Hc & ->).
    eapply returns_bind with (P := fun p2 => exists d, In d [0; 1; 2; 3; 4; 5; 6; 7; 8; 9]
                                            /\ p2 = (long_password ++ [c]) ++ str_of_N d).
    { assert (Hnodigit : has rt CDigit (long_password ++ [c]) = false).
      { simpl in Hc. decompose [or] Hc; subst; try reflexivity; contradiction. }
      rewrite Hnodigit. cbn [negb].
      eapply returns_bind; [apply returns_random_digit |].
      intros d w2 Hd. apply returns_ret. exists d. split; [apply small_digit, Hd | reflexivity]. }
    intros p2 w2 (d & Hd & ->).
    eapply returns_eq; [| reflexivity].
    simpl in Hc, Hd.
    decompose [or] Hc; decompose [or] Hd; subst; try contradiction; reflexivity. }
  destruct H as (p & w' & Hrun & ->).
  exists w'. repeat split. exact Hrun.
Qed.

(** ** The merge step on one input *)

(** C3 on the code. With the draws that decide the iteration order of the
    sets all equal to 1, merging the summary's action "waving" with the
    three actions of the analysis lists the analysis entries first, and
    the cap of three then drops the summary's entry: the result of
    [generate_password] has the actions jumping, walking, running.  The
    merged text is the summary's text, a space, the analysis text. *)
Theorem merge_loses_summary_priority :
  fst (merge_unique [lit "waving"] [lit "walking"; lit "running"; lit "jumping"]
         (constant_world 1))
  = Ok [lit "walking"; lit "running"; lit "jumping"; lit "waving"]
  /\ exists r w' cm ea,
       generate_password (MovementPasswordGenerator plain_runtime)
         (lit "walking, then running and jumping") (lit "waving") (constant_world 1)
       = (Ok r, w')
       /\ components r
          = PipelineComponents
              (mkSemanticElements [lit "jumping"; lit "walking"; lit "running"] [] []
                 (lit "waving walking, then running and jumping"))
              cm ea.
Proof.
  split; [vm_compute; reflexivity |].
  destruct (generate_password (MovementPasswordGenerator plain_runtime)
              (lit "walking, then running and jumping") (lit "waving") (constant_world 1))
    as [[r | e] w'] eqn:Hrun.
  - vm_compute in Hrun. injection Hrun as <- _.
    eexists _, _, _, _. split; reflexivity.
  - vm_compute in Hrun. discriminate Hrun.
Qed.

(** ** Runs of the model *)

(** The matcher on the patterns of the extraction engine. *)
Example findall_present_participles :
  findall1 plain_runtime true (word_group (RCat (RPlus W) (RLit "ing")))
    (lit "the person is walking forward, turning and singing ing kings")
  = map lit ["walking"; "turning"; "singing"]%string.
Proof. vm_compute. reflexivity. Qed.

Example findall_around_body_part :
  findall0 plain_runtime false (body_part_pattern (lit "arm"))
    (lit "the person is walking forward with smooth arm movements, turning left")
  = [lit "is walking forward with smooth arm"].
Proof. vm_compute. reflexivity. Qed.

Example findall_comparatives :
  findall2 plain_runtime false (hd REps comparative_patterns)
    (lit "a faster than slower movement")
  = [(lit "faster", lit "than"); (lit "slower", lit "movement")].
Proof. vm_compute. reflexivity. Qed.

Example search_repeated_character :
  search plain_runtime false repeated_character (lit "abccd") = false
  /\ search plain_runtime false repeated_character (lit "abcccd") = true.
Proof. vm_compute. auto. Qed.

(** Extraction on a description of a walk. *)
Example extract_walk :
  fst (extract_semantic_elements plain_runtime
         (lit "the person is walking forward with smooth arm movements, turning left")
         (constant_world 0))
  = Ok (mkSemanticElements
          (map lit ["walking"; "turning"]%string)
          (map lit ["arm"; "left"; "forward"]%string)
          (map lit ["smooth"]%string)
          (lit "the person is walking forward with smooth arm movements, turning left")).
Proof. vm_compute. reflexivity. Qed.

(** The whole pipeline on the text "step": the password that comes out has
    no upper-case letter. *)
Example step_password :
  exists r w',
    generate_password (MovementPasswordGenerator plain_runtime) (lit "step") []
      (constant_world 0) = (Ok r, w')
    /\ password r = lit "57ep_d" ++ [U.Psi] ++ lit "n_0000_00"
    /\ has plain_runtime (CRange 65 90) (password r) = false.
Proof.
  destruct (generate_password (MovementPasswordGenerator plain_runtime) (lit "step") []
              (constant_world 0)) as [[r | e] w'] eqn:Hrun.
  - vm_compute in Hrun. injection Hrun as <- _.
    eexists _, _. repeat split.
  - vm_compute in Hrun. discriminate Hrun.
Qed.

(** * Further properties *)

(** ** Sets: [list(set(l))] *)

Lemma pystr_eqb_eq (a b : pystr) : pystr_eqb a b = true <-> a = b.
Proof.
  revert b. induction a as [| x a IH]; intros [| y b]; simpl; try (split; congruence).
  rewrite andb_true_iff, N.eqb_eq, IH. split; [intros [-> ->]; reflexivity |].
  intros [= -> ->]. auto.
Qed.

Lemma mem_str_In (s : pystr) (l : list pystr) : mem_str s l = true <-> In s l.
Proof.
  unfold mem_str. rewrite existsb_exists. split.
  - intros (x & Hx & Heq). apply pystr_eqb_eq in Heq. subst. exact Hx.
  - intros H. exists s. split; [exact H | apply pystr_eqb_eq; reflexivity].
Qed.

Lemma dedup_str_In (l : list pystr) x : In x (dedup_str l) <-> In x l.
Proof.
  induction l as [| y l IH]; simpl; [reflexivity |].
  rewrite filter_In, IH. split.
  - intros [H | [H _]]; auto.
  - intros [H | H]; [auto |].
    destruct (pystr_eqb y x) eqn:Heq.
    + apply pystr_eqb_eq in Heq. auto.
    + right. split; [exact H | reflexivity].
Qed.

Lemma dedup_str_NoDup (l : list pystr) : NoDup (dedup_str l).
Proof.
  induction l as [| y l IH]; simpl; constructor.
  - rewrite list_elem_of_In, filter_In. intros [_ H].
    rewrite (proj2 (pystr_eqb_eq y y) eq_refl) in H. discriminate.
  - apply NoDup_ListNoDup, List.NoDup_filter, NoDup_ListNoDup, IH.
Qed.

Lemma returns_shuffle {A} (fuel : nat) (l : list A) w :
  (length l <= fuel)%nat -> returns (shuffle fuel l) w (fun r => Permutation r l).
Proof.
  revert l w. induction fuel as [| fuel IH]; intros l w Hlen.
  - destruct l; [| simpl in Hlen; lia]. apply returns_ret. reflexivity.
  - cbn [shuffle]. destruct l as [| x l]; [apply returns_ret; reflexivity |].
    eapply returns_bind; [apply returns_draw |]. intros r w1 _. cbv zeta.
    set (i := N.to_nat (r mod N.of_nat (length (x :: l)))).
    assert (Hi : (i < length (x :: l))%nat).
    { subst i. assert (N.of_nat (length (x :: l)) <> 0) by (simpl; lia).
      pose proof (N.mod_lt r _ H). lia. }
    destruct (lookup_lt_is_Some_2 _ _ Hi) as [y Hy]. rewrite Hy.
    eapply returns_bind.
    { apply IH. rewrite length_delete by eauto. simpl in *. lia. }
    intros rest w2 Hrest. apply returns_ret.
    rewrite Hrest. symmetry. apply delete_Permutation. exact Hy.
Qed.

(** Iterating a set visits every element of the list it was built from,
    each once. *)
Lemma returns_iter_set (l : list pystr) w :
  returns (iter_set l) w (fun r => NoDup r /\ forall x, In x r <-> In x l).
Proof.
  unfold iter_set. cbv zeta.
  eapply returns_weaken; [apply returns_shuffle; reflexivity |].
  cbv beta. intros r Hperm. split.
  - rewrite Hperm. apply dedup_str_NoDup.
  - intros x. rewrite <- (dedup_str_In l).
    split; apply Permutation_in; [exact Hperm | symmetry; exact Hperm].
Qed.

Lemma NoDup_take {A} (n : nat) (l : list A) : NoDup l -> NoDup (take n l).
Proof.
  intros H. rewrite <- (take_drop n l) in H. apply NoDup_app in H as [H _]. exact H.
Qed.

Lemma In_take {A} (n : nat) (l : list A) x : In x (take n l) -> In x l.
Proof.
  intros H. rewrite <- (take_drop n l). apply in_or_app. left. exact H.
Qed.

(** X1. The merge of one field in [generate_password]: the merged list has
    no duplicates and holds exactly the entries of the summary and of the
    analysis; what is kept after the cap is duplicate-free, consists of
    the first [cap] merged entries (all of them when there are no more
    than [cap]), and each kept entry comes from the summary or the
    analysis. *)
Theorem merge_unique_capped (summary analysis : list pystr) (cap : nat) (w : World) :
  exists merged w',
    merge_unique summary analysis w = (Ok merged, w')
    /\ NoDup merged
    /\ (forall x, In x merged <-> In x summary \/ In x analysis)
    /\ NoDup (take cap merged)
    /\ length (take cap merged) = Nat.min cap (length merged)
    /\ Forall (fun x => In x summary \/ In x analysis) (take cap merged).
Proof.
  destruct (returns_iter_set (summary ++ analysis) w) as (merged & w' & Hrun & Hnd & Hin).
  exists merged, w'. split; [exact Hrun |]. split; [exact Hnd |].
  assert (Hin' : forall x, In x merged <-> In x summary \/ In x analysis).
  { intros x. rewrite Hin. apply in_app_iff. }
  split; [exact Hin' |]. split; [apply NoDup_take, Hnd |].
  split; [apply length_take |].
  apply List.Forall_forall. intros x Hx. apply Hin', (In_take cap), Hx.
Qed.

(** ** Invariants of extraction *)

Lemma returns_extract_actions rt text w :
  returns (_extract_actions_dynamically rt text) w
          (fun r => NoDup r /\ Forall (fun a => is_action_word rt a = true) r).
Proof.
  unfold _extract_actions_dynamically. cbv zeta.
  eapply returns_bind; [apply returns_iter_set |]. intros found w1 _.
  eapply returns_weaken; [apply returns_iter_set |]. cbv beta.
  intros r [Hnd Hin]. split; [exact Hnd |].
  apply List.Forall_forall. intros a Ha. apply Hin, filter_In in Ha. apply Ha.
Qed.

Lemma returns_extract_descriptors rt text w :
  returns (_extract_contextual_descriptors rt text) w
          (fun r => NoDup r
                    /\ forall term, In term (concat contextual_terms) ->
                                    contains term text = true -> In term r).
Proof.
  unfold _extract_contextual_descriptors. cbv zeta.
  eapply returns_weaken; [apply returns_iter_set |]. cbv beta.
  intros r [Hnd Hin]. split; [exact Hnd |].
  intros term Hterm Hpresent. apply Hin, in_or_app. left.
  apply in_concat in Hterm as (terms & Hterms & Hterm).
  apply in_flat_map. exists terms. split; [exact Hterms |].
  apply filter_In. auto.
Qed.

Lemma returns_extract_qualifiers rt text w :
  returns (_extract_movement_qualifiers rt text) w (fun r => NoDup r).
Proof.
  unfold _extract_movement_qualifiers. cbv zeta.
  eapply returns_weaken; [apply returns_iter_set |]. cbv beta. intros r [Hnd _]. exact Hnd.
Qed.

Lemma Forall_take {A} (P : A -> Prop) n (l : list A) : Forall P l -> Forall P (take n l).
Proof.
  rewrite !List.Forall_forall. intros H x Hx. apply H, (In_take n), Hx.
Qed.

Lemma returns_extract_semantic_elements rt movement_description w :
  returns (extract_semantic_elements rt movement_description) w
          (fun se => well_formed_elements rt se
                     /\ full_text se = lower rt movement_description).
Proof.
  unfold extract_semantic_elements. cbv zeta.
  eapply returns_bind; [apply returns_extract_actions |]. intros a w1 [Ha1 Ha2].
  eapply returns_bind; [apply returns_extract_descriptors |]. intros d w2 [Hd _].
  eapply returns_bind; [apply returns_extract_qualifiers |]. intros q w3 Hq.
  apply returns_ret. split; [| reflexivity].
  unfold well_formed_elements. cbn [actions descriptors qualifiers].
  rewrite !length_take.
  repeat split; auto using NoDup_take, Forall_take; lia.
Qed.

(** X2. [extract_semantic_elements] never raises; the elements it returns
    respect the caps (3 actions, 3 descriptors, 2 qualifiers), have no
    duplicates, every action is an action word (alphabetic, at least three
    characters, ending in "ing" or "ed" or containing one of the roots),
    and full_text is the lower-cased description. *)
Theorem extract_semantic_elements_invariants (rt : Runtime)
    (movement_description : pystr) (w : World) :
  exists se w',
    extract_semantic_elements rt movement_description w = (Ok se, w')
    /\ well_formed_elements rt se
    /\ full_text se = lower rt movement_description.
Proof. apply returns_extract_semantic_elements. Qed.

Lemma returns_merge_field (summary analysis : list pystr) (P : pystr -> Prop) w :
  Forall P summary -> Forall P analysis ->
  returns (merge_unique summary analysis) w (fun merged => NoDup merged /\ Forall P merged).
Proof.
  intros Hs Ha. unfold merge_unique.
  eapply returns_weaken; [apply returns_iter_set |]. cbv beta.
  intros merged [Hnd Hin]. split; [exact Hnd |].
  rewrite List.Forall_forall in *. intros x Hx.
  apply Hin, in_app_iff in Hx as [Hx | Hx]; auto.
Qed.

Lemma Forall_True {A} (l : list A) : Forall (fun _ => True) l.
Proof. apply List.Forall_forall. auto. Qed.

(** X4. On its normal path [generate_password] reports merged semantic
    elements that respect the caps (3 actions, 3 descriptors, 2
    qualifiers), have no duplicates and only action words as actions, and
    whose full_text is the lower-cased summary, a space, and the
    lower-cased analysis. *)
Theorem generate_password_elements (rt : Runtime)
    (movement_analysis movement_summary : pystr) (w : World) :
  exists r w',
    generate_password (MovementPasswordGenerator rt) movement_analysis movement_summary w
      = (Ok r, w')
    /\ match components r with
       | PipelineComponents se _ _ =>
           well_formed_elements rt se
           /\ full_text se
              = lower rt movement_summary ++ lit " " ++ lower rt movement_analysis
       | ErrorComponents _ _ => generation_method r = lit "fallback"
       end.
Proof.
  apply returns_try_except.
  - unfold generate_password_body. unfold_methods.
    ensures_step.
    destruct (returns_ensures _ _ _
                (returns_extract_semantic_elements rt movement_analysis w) _ _ H)
      as [(Ha1 & _ & Ha3 & Ha4 & _ & Ha6 & _) Hat].
    ensures_step.
    destruct (returns_ensures _ _ _
                (returns_extract_semantic_elements rt movement_summary w') _ _ H0)
      as [(Hs1 & _ & Hs3 & Hs4 & _ & Hs6 & _) Hst].
    ensures_step.
    destruct (returns_ensures _ _ _
                (returns_merge_field _ _ _ w'0 Hs3 Ha3) _ _ H1) as [Hm1 Hm2].
    ensures_step.
    destruct (returns_ensures _ _ _
                (returns_merge_field _ _ _ w'1 (Forall_True _) (Forall_True _)) _ _ H2)
      as [Hd1 _].
    ensures_step.
    destruct (returns_ensures _ _ _
                (returns_merge_field _ _ _ w'2 (Forall_True _) (Forall_True _)) _ _ H3)
      as [Hq1 _].
    repeat first [ progress cbv zeta | ensures_step ].
    apply ensures_ret. cbn [components full_text]. split.
    + unfold well_formed_elements. cbn [actions descriptors qualifiers].
      rewrite !length_take.
      repeat split; auto using NoDup_take, Forall_take; lia.
    + rewrite Hat, Hst. reflexivity.
  - intros e w0.
    eapply returns_weaken; [apply returns_generate_password_fallback |].
    cbv beta. intros r (_ & -> & _ & Hmethod & _). exact Hmethod.
Qed.

(** X3. Before the cap, the descriptor scan returns every body-part,
    direction and intensity term that occurs in the text, without
    duplicates. *)
Theorem descriptors_cover_vocabulary (rt : Runtime) (text : pystr) (w : World) :
  exists r w',
    _extract_contextual_descriptors rt text w = (Ok r, w')
    /\ NoDup r
    /\ forall term, In term (body_parts ++ directions ++ intensities) ->
                    contains term text = true -> In term r.
Proof.
  destruct (returns_extract_descriptors rt text w) as (r & w' & Hrun & Hnd & Hall).
  exists r, w'. split; [exact Hrun |]. split; [exact Hnd |].
  intros term Hterm. apply Hall. unfold contextual_terms. cbn [concat].
  rewrite app_nil_r. exact Hterm.
Qed.

(** ** Character classes in a password *)

Lemma scan_class_existsb rt (k : cclass) fuel cur :
  (length (rest cur) < fuel)%nat ->
  match scan rt false fuel (RClass k) cur with
  | [] => false
  | _ :: _ => true
  end = existsb (class_matches rt k) (rest cur).
Proof.
  revert cur. induction fuel as [| fuel IH]; intros cur Hlen; [lia |].
  cbn [scan]. unfold match_here. cbn [rmatch]. unfold step_char.
  destruct cur as [prev0 [| c s]]; cbn [rest] in *; [reflexivity |].
  cbn [existsb]. destruct (class_matches rt k c); [reflexivity |].
  cbn [orb]. apply (IH (mkCursor (Some c) s)). cbn [rest]. simpl in Hlen. lia.
Qed.

(** [re.search] for a character class finds the characters of the class. *)
Lemma has_existsb rt (k : cclass) (s : pystr) :
  has rt k s = existsb (class_matches rt k) s.
Proof.
  unfold has, search, finditer.
  apply (scan_class_existsb rt k (S (length s)) (mkCursor None s)). cbn [rest]. lia.
Qed.

Lemma has_app rt k (a b : pystr) : has rt k (a ++ b) = has rt k a || has rt k b.
Proof. rewrite !has_existsb. apply existsb_app. Qed.

Lemma returns_pad_hex_shape fuel min_length p w :
  returns (pad_hex fuel min_length p) w
    (fun p' => exists h,
       p' = p ++ h /\ forallb is_hex_char h = true
       /\ (min_length <= len p -> h = [])
       /\ (min_length <= len p + 2 * N.of_nat fuel -> min_length <= len p')
       /\ len p' <= N.max (len p) (min_length + 1)).
Proof.
  revert p w. induction fuel as [| fuel IH]; intros p w.
  - apply returns_ret. exists []. rewrite app_nil_r.
    split; [reflexivity |]. split; [reflexivity |].
    split; [reflexivity |]. split; lia.
  - cbn [pad_hex]. destruct (N.ltb_spec (len p) min_length) as [Hlt | Hge].
    + eapply returns_bind; [apply returns_token_hex |]. intros h w1 [Hh Hhex].
      assert (Hl : len h = 2) by (unfold len; rewrite Hh; reflexivity).
      eapply returns_weaken; [apply IH |]. cbv beta.
      intros p' (h' & -> & Hhex' & _ & Hmin & Hmax).
      exists (h ++ h'). rewrite app_assoc, forallb_app, Hhex, Hhex'.
      rewrite !len_app in *. rewrite Hl in *.
      split; [reflexivity |]. split; [reflexivity |].
      split; [intros; exfalso; lia |]. split; lia.
    + apply returns_ret. exists []. rewrite app_nil_r.
      split; [reflexivity |]. split; [reflexivity |].
      split; [reflexivity |]. split; lia.
Qed.

(** Hex digits are neither punctuation nor upper-case letters nor markers. *)
Lemma hex_has_none rt (k : cclass) (h : pystr) :
  forallb is_hex_char h = true ->
  (forall c, is_hex_char c = true -> class_matches rt k c = false) ->
  has rt k h = false.
Proof.
  intros Hh Hk. rewrite has_existsb.
  induction h as [| c h IH]; [reflexivity |].
  cbn in *. apply andb_true_iff in Hh as [Hc Hh].
  rewrite (Hk c Hc), (IH Hh). reflexivity.
Qed.

Lemma hex_cases c :
  is_hex_char c = true ->
  In c [48; 49; 50; 51; 52; 53; 54; 55; 56; 57; 97; 98; 99; 100; 101; 102].
Proof.
  unfold is_hex_char. intros H.
  assert (Hm : exists m, (m < 103)%nat /\ c = N.of_nat m).
  { exists (N.to_nat c). split; [| lia].
    apply orb_true_iff in H as [H | H]; apply andb_true_iff in H as [_ H];
      apply N.leb_le in H; lia. }
  destruct Hm as (m & Hm & ->).
  do 103 (destruct m as [| m]; [first [discriminate H | simpl; auto 20] |]). lia.
Qed.

Lemma hex_not_in_class rt (cs : pystr) :
  forallb (fun c => negb (is_hex_char c)) cs = true ->
  forall c, is_hex_char c = true -> class_matches rt (CChars cs) c = false.
Proof.
  intros Hcs c Hc. cbn [class_matches]. unfold mem_char.
  apply not_true_is_false. intros H. apply existsb_exists in H as (x & Hx & Heq).
  apply N.eqb_eq in Heq. subst x.
  rewrite forallb_forall in Hcs. specialize (Hcs c Hx). rewrite Hc in Hcs. discriminate.
Qed.

Lemma hex_not_upper rt c : is_hex_char c = true -> class_matches rt (CRange 65 90) c = false.
Proof.
  intros H. apply hex_cases in H. cbn [class_matches].
  simpl in H. decompose [or] H; subst; try reflexivity. contradiction.
Qed.

(** ** Markers added by [ensure_advanced_complexity] *)

Lemma returns_append_marker rt (b : bool) (k : cclass) (cs : pystr) (p : pystr) w :
  cs <> [] ->
  forallb (class_matches rt k) cs = true ->
  returns (if b then let* c := random_choice cs in ret (p ++ [c]) else ret p) w
          (fun p' => (exists t, p' = p ++ t /\ (length t <= 1)%nat
                                /\ (if b then exists c, In c cs /\ t = [c] else t = []))
                     /\ (b = true -> has rt k p' = true)).
Proof.
  intros Hcs Hk. destruct b.
  - eapply returns_bind; [apply (returns_random_choice cs w Hcs) |].
    intros c w1 Hc. apply returns_ret. split.
    + exists [c]. split; [reflexivity |]. split; [simpl; lia |].
      exists c. split; [exact Hc | reflexivity].
    + intros _. rewrite has_app, (has_existsb rt k [c]). cbn [existsb].
      rewrite forallb_forall in Hk. rewrite (Hk c Hc). apply orb_true_r.
  - apply returns_ret. split; [| discriminate].
    exists []. rewrite app_nil_r. split; [reflexivity |]. split; [simpl; lia | reflexivity].
Qed.

Lemma returns_ensure_advanced_complexity_markers rt p cm w :
  returns (ensure_advanced_complexity rt p cm) w
    (fun p' => has rt greek_markers p' = true
               /\ (get2 (behavioral_signature cm) confidence (lit "low") = lit "high" ->
                   has rt kinetic_markers p' = true)
               /\ min_length_of cm <= len p' <= 22).
Proof.
  unfold ensure_advanced_complexity.
  eapply returns_bind; [apply returns_ensure_complexity |].
  intros p1 w1 Hlen1. cbv beta in Hlen1. cbv zeta.
  eapply returns_bind.
  { apply (returns_append_marker rt _ kinetic_markers [U.Omega; U.sine_wave; U.cw_arrow]);
      [discriminate | reflexivity]. }
  intros p2 w2 [(t2 & -> & Ht2 & _) Hkin].
  eapply returns_bind.
  { apply (returns_append_marker rt _ greek_markers [U.Theta; U.n_ary_sum; U.Psi]);
      [discriminate | reflexivity]. }
  intros p3 w3 [(t3 & -> & Ht3 & _) Hgreek].
  fold (min_length_of cm). pose proof (min_length_of_range cm) as Hrange.
  eapply returns_bind; [apply returns_pad_hex_shape |].
  intros p4 w4 (h & -> & _ & _ & Hmin & Hmax). apply returns_ret.
  assert (Hl3 : len ((p1 ++ t2) ++ t3) <= 22).
  { assert (len t2 <= 1) by (unfold len; lia).
    assert (len t3 <= 1) by (unfold len; lia).
    rewrite !len_app. lia. }
  assert (Hl4 : len (((p1 ++ t2) ++ t3) ++ h) <= 22) by lia.
  destruct (N.ltb_spec 24 (len (((p1 ++ t2) ++ t3) ++ h))) as [Hgt | _]; [lia |].
  split; [| split].
  - rewrite has_app. apply orb_true_iff. left.
    destruct (has rt greek_markers (p1 ++ t2)) eqn:Hg.
    + rewrite has_app, Hg. reflexivity.
    + apply Hgreek. reflexivity.
  - intros Hhigh.
    assert (Hp2 : has rt kinetic_markers (p1 ++ t2) = true).
    { destruct (has rt kinetic_markers p1) eqn:Hk1.
      - rewrite has_app, Hk1. reflexivity.
      - apply Hkin. rewrite Hhigh, (proj2 (pystr_eqb_eq _ _) eq_refl). reflexivity. }
    rewrite (has_app rt _ ((p1 ++ t2) ++ t3) h), (has_app rt _ (p1 ++ t2) t3), Hp2.
    reflexivity.
  - split; [apply Hmin; lia | exact Hl4].
Qed.

(** X5. [ensure_advanced_complexity] never raises, and what it returns
    always contains one of the Greek markers; it contains one of the
    kinetic markers when the behavioral confidence is high; and its length
    is between the floor of the movement complexity (12, 14 or 16) and
    22, so the cut at 24 characters never removes anything. *)
Theorem ensure_advanced_complexity_markers (rt : Runtime) (password : pystr)
    (contextual_modifiers : ContextualModifiers) (w : World) :
  exists p' w',
    ensure_advanced_complexity rt password contextual_modifiers w = (Ok p', w')
    /\ has rt greek_markers p' = true
    /\ (get2 (behavioral_signature contextual_modifiers) confidence (lit "low")
        = lit "high" -> has rt kinetic_markers p' = true)
    /\ min_length_of contextual_modifiers <= len p' <= 22.
Proof. apply returns_ensure_advanced_complexity_markers. Qed.

Lemma ensures_assemble_password_markers rt se cm w :
  ensures (assemble_password rt se cm) w
          (fun p => has rt greek_markers p = true /\ 12 <= len p <= 22).
Proof.
  unfold assemble_password.
  repeat first [ progress cbv zeta | ensures_step ].
  apply returns_ensures.
  eapply returns_weaken; [apply returns_ensure_advanced_complexity_markers |].
  cbv beta. intros p (Hg & _ & Hlen). pose proof (min_length_of_range cm).
  split; [exact Hg | lia].
Qed.

(** X6. Every password [generate_password] returns has at most 22
    characters (the limit of 24 is never reached); on the normal path it
    has at least 12 and contains one of the Greek markers, on the fallback
    path it has 14 or 15. *)
Theorem generate_password_tight_length (rt : Runtime)
    (movement_analysis movement_summary : pystr) (w : World) :
  exists r w',
    generate_password (MovementPasswordGenerator rt) movement_analysis movement_summary w
      = (Ok r, w')
    /\ 12 <= len (password r) <= 22
    /\ ((generation_method r = lit "advanced_biometric_extraction"
         /\ has rt greek_markers (password r) = true)
        \/ (generation_method r = lit "fallback" /\ 14 <= len (password r) <= 15)).
Proof.
  apply returns_try_except.
  - unfold generate_password_body. unfold_methods.
    repeat first [ progress cbv zeta | ensures_step ].
    apply ensures_ret. cbn [password generation_method].
    match goal with
    | H : assemble_password _ _ _ _ = (Ok _, _) |- _ =>
        destruct (ensures_assemble_password_markers _ _ _ _ _ _ H) as [Hg Hlen]
    end.
    split; [exact Hlen | left; split; [reflexivity | exact Hg]].
  - intros e w0.
    eapply returns_weaken; [apply returns_generate_password_fallback |].
    cbv beta. intros r (Hshape & _ & _ & Hmethod & _).
    apply fallback_shape_len in Hshape. split; [lia | right; split; [exact Hmethod | lia]].
Qed.

(** ** What [ensure_complexity] does guarantee *)

Lemma lower_cases c :
  is_ascii_lower c = true ->
  In c [97; 98; 99; 100; 101; 102; 103; 104; 105; 106; 107; 108; 109; 110; 111; 112;
        113; 114; 115; 116; 117; 118; 119; 120; 121; 122].
Proof.
  unfold is_ascii_lower. intros H.
  assert (Hm : exists m, (m < 123)%nat /\ c = N.of_nat m).
  { exists (N.to_nat c). split; [| lia].
    apply andb_true_iff in H as [_ H]. apply N.leb_le in H. lia. }
  destruct Hm as (m & Hm & ->).
  do 123 (destruct m as [| m]; [first [discriminate H | simpl; auto 30] |]). lia.
Qed.

Lemma ascii_upper_char rt c :
  c < 128 -> char_upper rt c = [if is_ascii_lower c then c - 32 else c].
Proof. intros H. unfold char_upper. apply N.ltb_lt in H. rewrite H. reflexivity. Qed.

(** Turning an ASCII character into upper case neither adds nor removes a
    punctuation symbol or a digit, and gives an upper-case letter exactly
    from a letter. *)
Lemma upper_keeps_class rt c :
  c < 128 ->
  let c' := if is_ascii_lower c then c - 32 else c in
  class_matches rt punctuation c' = class_matches rt punctuation c
  /\ class_matches rt CDigit c' = class_matches rt CDigit c
  /\ class_matches rt (CRange 65 90) c' = is_ascii_upper c || is_ascii_lower c.
Proof.
  intros Hc. cbv zeta. destruct (is_ascii_lower c) eqn:Hl.
  - apply lower_cases in Hl. simpl in Hl.
    decompose [or] Hl; subst; try contradiction; repeat split.
  - rewrite orb_false_r. repeat split.
Qed.

Lemma returns_append_digit rt (p : pystr) w :
  returns (if negb (has rt CDigit p)
           then let* d := random_digit in ret (p ++ str_of_N d) else ret p) w
          (fun p' => has rt CDigit p' = true
                     /\ exists t, p' = p ++ t /\ (length t <= 1)%nat
                                  /\ forallb is_digit_char t = true).
Proof.
  destruct (has rt CDigit p) eqn:Hd; cbn [negb].
  - apply returns_ret. split; [exact Hd |]. exists []. rewrite app_nil_r. auto.
  - eapply returns_bind; [apply returns_random_digit |]. intros d w1 Hlt.
    apply returns_ret. apply small_digit in Hlt. split.
    + rewrite has_app. apply orb_true_iff. right.
      simpl in Hlt. decompose [or] Hlt; subst; try contradiction; reflexivity.
    + exists (str_of_N d). split; [reflexivity |].
      simpl in Hlt. decompose [or] Hlt; subst; try contradiction; split; auto.
Qed.

Lemma digit_cases c :
  is_digit_char c = true -> In c [48; 49; 50; 51; 52; 53; 54; 55; 56; 57].
Proof.
  intros H.
  assert (Hh : is_hex_char c = true).
  { unfold is_hex_char. unfold is_digit_char in H. rewrite H. reflexivity. }
  apply hex_cases in Hh. simpl in Hh.
  decompose [or] Hh; subst; try discriminate H; try contradiction; simpl; auto 11.
Qed.

Lemma has_single rt k c : has rt k [c] = class_matches rt k c.
Proof. rewrite has_existsb. cbn. apply orb_false_r. Qed.

Lemma has_cons rt k c (s : pystr) : has rt k (c :: s) = class_matches rt k c || has rt k s.
Proof. rewrite !has_existsb. reflexivity. Qed.

Lemma digits_not_upper rt (t : pystr) :
  forallb is_digit_char t = true -> has rt (CRange 65 90) t = false.
Proof.
  intros H. apply hex_has_none; [| apply hex_not_upper].
  apply (forallb_impl is_digit_char); [| exact H].
  intros c Hc. unfold is_hex_char. unfold is_digit_char in Hc. rewrite Hc. reflexivity.
Qed.

Lemma returns_ensure_complexity_guarantee rt (p : pystr) w :
  (length p <= 18)%nat ->
  match p with c :: _ => c < 128 | [] => True end ->
  returns (ensure_complexity rt p) w
    (fun p' => has rt punctuation p' = true
               /\ has rt CDigit p' = true
               /\ has rt (CRange 65 90) p'
                  = has rt (CRange 65 90) p
                    || match p with c :: _ => is_ascii_lower c | [] => false end).
Proof.
  intros Hlen Hhead. unfold ensure_complexity.
  eapply returns_bind.
  { apply (returns_append_marker rt _ punctuation (lit "!@#$%")); [discriminate | reflexivity]. }
  intros p1 w1 [(t1 & -> & Ht1 & Hshape1) Hpunct].
  eapply returns_bind; [apply returns_append_digit |].
  intros p2 w2 (Hdigit & t2 & -> & Ht2 & Hdig2). cbv zeta.
  (* the facts about the string before the upper-case step *)
  assert (Hp1 : has rt punctuation (p ++ t1) = true).
  { destruct (has rt punctuation p) eqn:Hp.
    - rewrite has_app, Hp. reflexivity.
    - apply Hpunct. reflexivity. }
  assert (Hp2 : has rt punctuation ((p ++ t1) ++ t2) = true).
  { rewrite has_app, Hp1. reflexivity. }
  assert (Hup1 : has rt (CRange 65 90) t1 = false).
  { destruct (negb (has rt punctuation p)).
    - destruct Hshape1 as (c & Hc & ->). rewrite has_single.
      simpl in Hc. decompose [or] Hc; subst; try contradiction; reflexivity.
    - subst t1. reflexivity. }
  assert (Hup2 : has rt (CRange 65 90) ((p ++ t1) ++ t2) = has rt (CRange 65 90) p).
  { rewrite !has_app, Hup1, (digits_not_upper rt t2 Hdig2), !orb_false_r. reflexivity. }
  assert (Hhd : exists c0 tail, (p ++ t1) ++ t2 = c0 :: tail /\ c0 < 128
                               /\ is_ascii_lower c0
                                  = match p with c :: _ => is_ascii_lower c | [] => false end).
  { destruct p as [| c p'].
    - assert (Hb : negb (has rt punctuation []) = true) by reflexivity.
      rewrite Hb in Hshape1. destruct Hshape1 as (c & Hc & ->).
      exists c, t2. split; [reflexivity |].
      simpl in Hc. decompose [or] Hc; subst; try contradiction; split; reflexivity.
    - exists c, ((p' ++ t1) ++ t2). split; [reflexivity |]. split; [exact Hhead | reflexivity]. }
  destruct Hhd as (c0 & tail & Heq & Hc0 & Hlow).
  assert (Hl2 : len ((p ++ t1) ++ t2) <= 20).
  { rewrite !len_app. unfold len. lia. }
  rewrite Heq in *. clear Heq.
  rewrite (ascii_upper_char rt c0 Hc0).
  destruct (upper_keeps_class rt c0 Hc0) as (Hkp & Hkd & Hku).
  set (c0' := if is_ascii_lower c0 then c0 - 32 else c0) in *.
  set (p3 := if negb (has rt (CRange 65 90) (c0 :: tail)) then [c0'] ++ tail else c0 :: tail).
  assert (Hp3 : has rt punctuation p3 = true /\ has rt CDigit p3 = true
                /\ has rt (CRange 65 90) p3
                   = has rt (CRange 65 90) p
                     || match p with c :: _ => is_ascii_lower c | [] => false end
                /\ len p3 <= 20).
  { subst p3. destruct (has rt (CRange 65 90) (c0 :: tail)) eqn:Hu; cbn [negb].
    - rewrite <- Hup2. cbn [orb]. auto.
    - cbn [app]. rewrite !has_cons, Hkp, Hkd, Hku, <- !has_cons.
      rewrite <- Hup2, <- Hlow.
      rewrite has_cons in Hu. apply orb_false_iff in Hu as [Hu1 Hu2].
      cbn [class_matches] in Hu1. fold (is_ascii_upper c0) in Hu1.
      rewrite Hu1, Hu2. cbn [orb]. rewrite orb_false_r.
      split; [exact Hp2 |]. split; [exact Hdigit |]. split; [reflexivity |].
      unfold len in *. simpl in *. lia. }
  clearbody p3. destruct Hp3 as (H3p & H3d & H3u & H3l).
  eapply returns_bind; [apply returns_pad_hex_shape |].
  intros p4 w4 (h & -> & Hhex & _ & _ & Hmax). apply returns_ret.
  destruct (N.ltb_spec 20 (len (p3 ++ h))) as [Hgt | _]; [lia |].
  rewrite !has_app, H3p, H3d, H3u, (hex_has_none rt _ h Hhex (hex_not_upper rt)).
  rewrite orb_false_r. auto.
Qed.

(** X7. For a password of at most 18 characters whose first character is
    ASCII, [ensure_complexity] returns a string that contains a punctuation
    symbol and a digit; the result contains an upper-case letter exactly
    when the password already contained one or starts with a lower-case
    letter. *)
Theorem ensure_complexity_guarantee (rt : Runtime) (password : pystr) (w : World) :
  (length password <= 18)%nat ->
  match password with c :: _ => c < 128 | [] => True end ->
  exists p' w',
    ensure_complexity rt password w = (Ok p', w')
    /\ has rt punctuation p' = true
    /\ has rt CDigit p' = true
    /\ has rt (CRange 65 90) p'
       = has rt (CRange 65 90) password
         || match password with c :: _ => is_ascii_lower c | [] => false end.
Proof. apply returns_ensure_complexity_guarantee. Qed.

Lemma ensure_complexity_guarantee_witness :
  exists p' w',
    ensure_complexity plain_runtime (lit "walkin smooth") (constant_world 0) = (Ok p', w')
    /\ has plain_runtime punctuation p' = true
    /\ has plain_runtime CDigit p' = true
    /\ has plain_runtime (CRange 65 90) p' = true.
Proof.
  apply (ensure_complexity_guarantee plain_runtime (lit "walkin smooth") (constant_world 0)).
  - vm_compute. lia.
  - reflexivity.
Defined.

(** ** File names *)

Lemma mem_char_In c (s : pystr) : mem_char c s = true <-> In c s.
Proof.
  unfold mem_char. rewrite existsb_exists. split.
  - intros (x & Hx & Heq). apply N.eqb_eq in Heq. subst. exact Hx.
  - intros H. exists c. split; [exact H | apply N.eqb_refl].
Qed.

Lemma mem_char_rev c (s : pystr) : mem_char c (rev s) = mem_char c s.
Proof.
  apply eq_true_iff_eq. rewrite !mem_char_In. symmetry. apply in_rev.
Qed.

Lemma split_first_app sep (a b : pystr) :
  mem_char sep a = false -> split_first sep (a ++ sep :: b) = Some (a, b).
Proof.
  induction a as [| c a IH]; intros Ha; cbn [app split_first].
  - rewrite N.eqb_refl. reflexivity.
  - unfold mem_char in Ha. cbn [existsb] in Ha. apply orb_false_iff in Ha as [Hc Ha].
    rewrite N.eqb_sym, Hc, (IH Ha). reflexivity.
Qed.

Lemma split_first_Some sep (s a b : pystr) :
  split_first sep s = Some (a, b) -> s = a ++ sep :: b /\ mem_char sep a = false.
Proof.
  revert a. induction s as [| c s IH]; intros a; cbn [split_first]; [discriminate |].
  destruct (N.eqb_spec c sep) as [-> | Hne].
  - intros [= <- <-]. auto.
  - destruct (split_first sep s) as [[a' b'] |]; [| discriminate].
    intros [= <- <-]. destruct (IH a' eq_refl) as [-> Ha].
    split; [reflexivity |]. unfold mem_char in *. cbn [existsb].
    rewrite Ha, orb_false_r. apply N.eqb_neq. congruence.
Qed.

Lemma split_first_None sep (s : pystr) :
  split_first sep s = None -> mem_char sep s = false.
Proof.
  induction s as [| c s IH]; cbn [split_first]; [reflexivity |].
  destruct (N.eqb_spec c sep) as [-> | Hne]; [discriminate |].
  destruct (split_first sep s) as [[a b] |]; [discriminate |].
  intros _. unfold mem_char in *. cbn [existsb]. rewrite (IH eq_refl), orb_false_r.
  apply N.eqb_neq. congruence.
Qed.

(** X8. [allowed_file] never raises, and it accepts a file name exactly
    when the name is some stem, a dot and an extension without a dot whose
    lower-case form is mp4, avi, mov, mkv or webm: only the text after the
    last dot counts, in any letter case. *)
Theorem allowed_file_spec (rt : Runtime) (filename : pystr) :
  (exists b, allowed_file rt filename = Ok b)
  /\ (allowed_file rt filename = Ok true <->
      exists stem extension,
        filename = stem ++ [46] ++ extension
        /\ mem_char 46 extension = false
        /\ In (lower rt extension) ALLOWED_EXTENSIONS).
Proof.
  unfold allowed_file, rsplit1.
  destruct (mem_char 46 filename) eqn:Hdot.
  - destruct (split_first 46 (rev filename)) as [[a b] |] eqn:Hsplit.
    + apply split_first_Some in Hsplit as [Hrev Ha].
      assert (Hname : filename = rev b ++ [46] ++ rev a).
      { rewrite <- (rev_involutive filename), Hrev, rev_app_distr. cbn [rev].
        rewrite <- app_assoc. reflexivity. }
      cbn [index lookup list_lookup]. split; [eauto |]. split.
      * intros [= Hmem]. exists (rev b), (rev a).
        rewrite mem_char_rev. split; [exact Hname |]. split; [exact Ha |].
        apply mem_str_In, Hmem.
      * intros (stem & extension & Heq & Hext & Hin).
        assert (a = rev extension /\ b = rev stem) as [-> ->].
        { assert (Hs : split_first 46 (rev filename) = Some (rev extension, rev stem)).
          { rewrite Heq, rev_app_distr. cbn [app rev]. rewrite <- app_assoc. cbn [app].
            apply split_first_app. rewrite mem_char_rev. exact Hext. }
          rewrite Hrev in Hs. rewrite (split_first_app 46 a b Ha) in Hs.
          injection Hs as -> ->. auto. }
        rewrite rev_involutive. f_equal. apply mem_str_In, Hin.
    + apply split_first_None in Hsplit. rewrite mem_char_rev, Hdot in Hsplit. discriminate.
  - split; [eauto |]. split; [discriminate |].
    intros (stem & extension & -> & _).
    unfold mem_char in Hdot. rewrite existsb_app in Hdot. cbn in Hdot.
    rewrite orb_true_r in Hdot. discriminate.
Qed.

(** ** The retry loop *)

Section Retry.
Context {A : Type}.
Variable rt : Runtime.
Variable label : pystr.
Variable func : nat -> outcome A.
Variables max_retries base_delay : Z.

Lemma backoff_delays_S a k :
  backoff_delays base_delay a (S k)
  = (base_delay * 2 ^ a)%Z :: backoff_delays base_delay (a + 1) k.
Proof.
  unfold backoff_delays. cbn [seq map]. rewrite Z.add_0_r. f_equal.
  rewrite <- seq_shift, map_map. apply map_ext. intros i. do 2 f_equal. lia.
Qed.

(** What one run of the loop does, for [remaining] iterations from
    [attempt] on: it makes [k] calls, sleeps between them, and ends with
    the outcome of the last call or with the refusal of a sleep. *)
Lemma retry_loop_spec remaining attempt st :
  (Z.of_nat remaining + attempt = max_retries)%Z ->
  match retry_loop rt label func max_retries base_delay remaining attempt st with
  | (o, st') =>
      exists k,
        calls st' = (calls st + k)%nat
        /\ requests st' = requests st ++ repeat label k
        /\ (k <= remaining)%nat
        /\ sleeps st' = sleeps st ++ backoff_delays base_delay attempt (k - 1)
        /\ Forall (fun d => time_sleep rt d = None)
                  (backoff_delays base_delay attempt (k - 1))
        /\ (forall i, (i < k - 1)%nat ->
              exists e, func (calls st + i)%nat = Raise e /\ is_retryable rt e = true)
        /\ match o with
           | Ok None => remaining = 0%nat /\ k = 0%nat
           | Ok (Some x) => (1 <= k)%nat /\ func (calls st + k - 1)%nat = Ok x
           | Raise e =>
               (1 <= k)%nat
               /\ exists e0,
                    func (calls st + k - 1)%nat = Raise e0
                    /\ ((is_retryable rt e0 = false /\ e = e0)
                        \/ (is_retryable rt e0 = true /\ k = remaining
                            /\ e = exhausted max_retries e0)
                        \/ (is_retryable rt e0 = true /\ (k < remaining)%nat
                            /\ time_sleep rt (base_delay * 2 ^ (attempt + Z.of_nat (k - 1)))
                               = Some e))
           end
  end.
Proof.
  revert attempt st. induction remaining as [| n IH]; intros attempt st Hsum.
  - cbn [retry_loop]. exists 0%nat. cbn. rewrite !app_nil_r.
    split; [lia |]. split; [reflexivity |]. split; [lia |]. split; [reflexivity |].
    split; [constructor |]. split; [intros; lia | auto].
  - cbn [retry_loop].
    assert (Hone : forall o : outcome (option A),
               match o with
               | Ok None => False
               | Ok (Some x) => func (calls st) = Ok x
               | Raise e =>
                   exists e0, func (calls st) = Raise e0
                     /\ ((is_retryable rt e0 = false /\ e = e0)
                         \/ (is_retryable rt e0 = true /\ 1%nat = S n
                             /\ e = exhausted max_retries e0)
                         \/ (is_retryable rt e0 = true /\ (1 < S n)%nat
                             /\ time_sleep rt (base_delay * 2 ^ (attempt + 0)) = Some e))
               end ->
               exists k,
                 calls (called label st) = (calls st + k)%nat
                 /\ requests (called label st) = requests st ++ repeat label k
                 /\ (k <= S n)%nat
                 /\ sleeps (called label st)
                    = sleeps st ++ backoff_delays base_delay attempt (k - 1)
                 /\ Forall (fun d => time_sleep rt d = None)
                           (backoff_delays base_delay attempt (k - 1))
                 /\ (forall i, (i < k - 1)%nat ->
                       exists e, func (calls st + i)%nat = Raise e
                                 /\ is_retryable rt e = true)
                 /\ match o with
                    | Ok None => S n = 0%nat /\ k = 0%nat
                    | Ok (Some x) => (1 <= k)%nat /\ func (calls st + k - 1)%nat = Ok x
                    | Raise e =>
                        (1 <= k)%nat
                        /\ exists e0,
                             func (calls st + k - 1)%nat = Raise e0
                             /\ ((is_retryable rt e0 = false /\ e = e0)
                                 \/ (is_retryable rt e0 = true /\ k = S n
                                     /\ e = exhausted max_retries e0)
                                 \/ (is_retryable rt e0 = true /\ (k < S n)%nat
                                     /\ time_sleep rt
                                          (base_delay * 2 ^ (attempt + Z.of_nat (k - 1)))
                                        = Some e))
                    end).
    { intros o Ho. exists 1%nat. cbn [called calls sleeps requests repeat].
      cbn [Nat.sub backoff_delays seq map]. rewrite app_nil_r.
      replace (calls st + 1 - 1)%nat with (calls st) by lia.
      split; [lia |]. split; [reflexivity |]. split; [lia |]. split; [reflexivity |].
      split; [constructor |]. split; [intros; lia |].
      destruct o as [[x |] | e]; [split; [lia | exact Ho] | destruct Ho |].
      split; [lia | exact Ho]. }
    destruct (func (calls st)) as [x | e] eqn:Hcall.
    + cbv beta iota. apply (Hone (Ok (Some x))). reflexivity.
    + destruct (is_retryable rt e) eqn:Hretry.
      * destruct (Z.ltb_spec attempt (max_retries - 1)) as [Hlt | Hge].
        -- cbv zeta.
           destruct (time_sleep rt (base_delay * 2 ^ attempt)) as [refusal |] eqn:Hsleep.
           { cbv beta iota. apply (Hone (Raise refusal)). exists e. split; [reflexivity |].
             right. right. rewrite Z.add_0_r. split; [exact Hretry |].
             split; [lia | exact Hsleep]. }
           specialize (IH (attempt + 1)%Z
                          (slept (base_delay * 2 ^ attempt) (called label st))).
           destruct (retry_loop rt label func max_retries base_delay n (attempt + 1)
                       (slept (base_delay * 2 ^ attempt) (called label st))) as [o st'].
           destruct IH as (k & Hcalls & Hreq & Hk & Hsleeps & Hslept & Hprev & Ho); [lia |].
           cbn [slept called calls sleeps requests] in *.
           assert (Hk1 : (1 <= k)%nat).
           { destruct o as [[x |] | e']; [apply Ho | | apply Ho].
             destruct Ho as [Hn _]. lia. }
           exists (S k). split; [lia |].
           split; [rewrite Hreq, <- app_assoc; reflexivity |].
           split; [lia |].
           replace (S k - 1)%nat with (S (k - 1)) by lia.
           rewrite backoff_delays_S.
           split; [rewrite Hsleeps, <- app_assoc; reflexivity |].
           split; [constructor; [exact Hsleep | exact Hslept] |].
           split.
           { intros i Hi. destruct i as [| i].
             - rewrite Nat.add_0_r. eauto.
             - destruct (Hprev i) as (e' & He' & Hr'); [lia |].
               exists e'. split; [| exact Hr'].
               rewrite <- He'. f_equal. lia. }
           replace (calls st + S k - 1)%nat with (S (calls st) + k - 1)%nat by lia.
           destruct o as [[x |] | e'].
           ++ split; [lia | apply Ho].
           ++ lia.
           ++ split; [lia |].
              destruct Ho as (_ & e0 & He0 & [Hcase | [(Hr & Hkn & He) | (Hr & Hkn & He)]]).
              ** exists e0. auto.
              ** exists e0. split; [exact He0 |]. right. left.
                 split; [exact Hr |]. split; [lia | exact He].
              ** exists e0. split; [exact He0 |]. right. right.
                 split; [exact Hr |]. split; [lia |].
                 rewrite <- He. do 3 f_equal. lia.
        -- cbv beta iota. apply (Hone (Raise (exhausted max_retries e))). exists e.
           split; [reflexivity |]. right. left.
           split; [exact Hretry |]. split; [lia | reflexivity].
      * cbv beta iota. apply (Hone (Raise e)). exists e. auto.
Qed.
End Retry.

Lemma retry_with_backoff_spec {A} rt label (func : nat -> outcome A)
    max_retries base_delay st :
  match retry_with_backoff rt label func max_retries base_delay st with
  | (o, st') =>
      exists k,
        calls st' = (calls st + k)%nat
        /\ requests st' = requests st ++ repeat label k
        /\ (k <= Z.to_nat max_retries)%nat
        /\ sleeps st' = sleeps st ++ backoff_delays base_delay 0 (k - 1)
        /\ Forall (fun d => time_sleep rt d = None) (backoff_delays base_delay 0 (k - 1))
        /\ (forall i, (i < k - 1)%nat ->
              exists e, func (calls st + i)%nat = Raise e /\ is_retryable rt e = true)
        /\ match o with
           | Ok None => (max_retries <= 0)%Z /\ k = 0%nat
           | Ok (Some x) => (1 <= k)%nat /\ func (calls st + k - 1)%nat = Ok x
           | Raise e =>
               (1 <= k)%nat
               /\ exists e0,
                    func (calls st + k - 1)%nat = Raise e0
                    /\ retry_failure rt max_retries base_delay k e0 e
           end
  end.
Proof.
  unfold retry_with_backoff.
  destruct (Z.le_gt_cases 0 max_retries) as [Hpos | Hneg].
  - pose proof (retry_loop_spec rt label func max_retries base_delay
                  (Z.to_nat max_retries) 0%Z st) as H.
    destruct (retry_loop rt label func max_retries base_delay (Z.to_nat max_retries) 0 st)
      as [o st'].
    destruct H as (k & Hcalls & Hreq & Hk & Hsleeps & Hslept & Hprev & Ho); [lia |].
    exists k. split; [exact Hcalls |]. split; [exact Hreq |]. split; [exact Hk |].
    split; [exact Hsleeps |]. split; [exact Hslept |]. split; [exact Hprev |].
    destruct o as [[x |] | e]; [exact Ho | split; [lia | apply Ho] |].
    destruct Ho as (Hk1 & e0 & He0 & Hcase). split; [exact Hk1 |].
    exists e0. split; [exact He0 |]. unfold retry_failure.
    destruct Hcase as [Hcase | [(Hr & Hkn & He) | (Hr & Hkn & He)]]; [left; exact Hcase | |].
    + right. left. repeat split; auto; lia.
    + right. right. rewrite Z.add_0_l in He. repeat split; auto; lia.
  - replace (Z.to_nat max_retries) with 0%nat by lia. cbn [retry_loop].
    exists 0%nat. cbn. rewrite !app_nil_r.
    split; [lia |]. split; [reflexivity |]. split; [lia |]. split; [reflexivity |].
    split; [constructor |]. split; [intros; lia |]. split; lia.
Qed.

(** A negative length is refused. *)
Lemma time_sleep_negative rt d :
  (- sleep_limit <= d < 0)%Z ->
  time_sleep rt d = Some (ValueError (lit "sleep length must be non-negative")).
Proof.
  intros [Hlo Hhi]. unfold time_sleep.
  destruct (Z.leb_spec 0 d); [lia |]. cbn [andb].
  destruct (Z.leb_spec (- sleep_limit) d); [| lia].
  destruct (Z.ltb_spec d 0); [reflexivity | lia].
Qed.

(** X9. [retry_with_backoff] calls the request at most [max_retries]
    times, always the same request, and sleeps only between two calls
    (one sleep fewer than calls).  The delays double from [base_delay] on:
    base_delay, 2 base_delay, 4 base_delay, ... (each plus the random part
    below one second), and every one of them is a length that
    [time.sleep] accepts; with a negative [base_delay] (not below the
    range of the clock) the first sleep is refused, so that there is at
    most one call. *)
Theorem retry_with_backoff_budget {A : Type} (rt : Runtime) (label : pystr)
    (func : nat -> outcome A) (max_retries base_delay : Z) (st : Shell) :
  exists k,
    calls (snd (retry_with_backoff rt label func max_retries base_delay st))
    = (calls st + k)%nat
    /\ requests (snd (retry_with_backoff rt label func max_retries base_delay st))
       = requests st ++ repeat label k
    /\ (k <= Z.to_nat max_retries)%nat
    /\ sleeps (snd (retry_with_backoff rt label func max_retries base_delay st))
       = sleeps st ++ map (fun i => (base_delay * 2 ^ Z.of_nat i)%Z) (seq 0 (k - 1))
    /\ Forall (fun d => time_sleep rt d = None)
              (map (fun i => (base_delay * 2 ^ Z.of_nat i)%Z) (seq 0 (k - 1)))
    /\ ((- sleep_limit <= base_delay < 0)%Z -> (k <= 1)%nat).
Proof.
  pose proof (retry_with_backoff_spec rt label func max_retries base_delay st) as H.
  destruct (retry_with_backoff rt label func max_retries base_delay st) as [o st'].
  destruct H as (k & Hcalls & Hreq & Hk & Hsleeps & Hslept & _).
  exists k. cbn [snd]. split; [exact Hcalls |]. split; [exact Hreq |].
  split; [exact Hk |]. split; [rewrite Hsleeps; reflexivity |].
  split; [exact Hslept |].
  intros Hneg. destruct k as [| [| k]]; [lia | lia |]. exfalso.
  replace (S (S k) - 1)%nat with (S k) in Hslept by lia.
  unfold backoff_delays in Hslept. cbn [seq map] in Hslept.
  apply Forall_cons_1 in Hslept as [Hfirst _].
  rewrite Z.add_0_l, Z.pow_0_r, Z.mul_1_r, time_sleep_negative in Hfirst by exact Hneg.
  discriminate.
Qed.


(** ** The fallback over models *)





(** X12. With [max_retries] at zero (or below) [analyze_with_gemini]
    returns None as its response, without making a request and without
    raising. *)
Theorem analyze_with_gemini_without_retries {A : Type} (rt : Runtime)
    (request : pystr -> nat -> outcome A) (max_retries : Z) (st : Shell) :
  (max_retries <= 0)%Z ->
  analyze_with_gemini rt request max_retries st = (Ok None, st).
Proof.
  intros Hmax. unfold analyze_with_gemini, models_to_try. cbn [map try_models].
  unfold retry_with_backoff. replace (Z.to_nat max_retries) with 0%nat by lia.
  reflexivity.
Qed.

Lemma analyze_with_gemini_without_retries_witness :
  analyze_with_gemini plain_runtime
    (fun _ _ => Raise (RuntimeError (lit "503 unavailable")) : outcome pystr) 0
    (mkShell 0 [] [])
  = (Ok None, mkShell 0 [] []).
Proof.
  apply (analyze_with_gemini_without_retries plain_runtime
           (fun _ _ => Raise (RuntimeError (lit "503 unavailable")) : outcome pystr) 0
           (mkShell 0 [] [])).
  lia.
Defined.

(** ** Rendering a template *)

Lemma format_fallback_template (rt : Runtime) (action biometric temporal random : pystr) :
  format rt fallback_template
    (<[lit "action" := action]> (<[lit "biometric" := biometric]>
     (<[lit "temporal" := temporal]> (<[lit "random" := random]> ∅))))
  = Ok (action ++ lit "_" ++ biometric ++ lit "_" ++ temporal ++ lit "_" ++ random).
Proof.
  rewrite <- (app_nil_r random) at 2. vm_compute. reflexivity.
Qed.

Lemma dynamic_password_assembly_fallback (rt : Runtime) (template : pystr)
    (components : gmap pystr pystr) (key : pystr) (w : World) :
  format rt template components = Raise (KeyError key) ->
  exists t r,
    _dynamic_password_assembly rt template components w
    = (Ok (default [109; U.Theta; 118] (components !! lit "action") ++ lit "_"
           ++ default (lit "B10") (components !! lit "biometric") ++ lit "_"
           ++ default t (components !! lit "temporal") ++ lit "_"
           ++ default r (components !! lit "random")),
       mkWorld (rng w) (rng_pos w + 4) (clock w) (clock_pos w))
    /\ length t = 4%nat /\ forallb is_hex_char t = true
    /\ length r = 4%nat /\ forallb is_hex_char r = true.
Proof.
  intros Hformat. unfold _dynamic_password_assembly. rewrite Hformat. cbv zeta.
  destruct (token_hex_run 2 w) as (t & Ht & Htl & Hth).
  destruct (token_hex_run 2 (mkWorld (rng w) (rng_pos w + 2) (clock w) (clock_pos w)))
    as (r & Hr & Hrl & Hrh).
  cbn [rng rng_pos clock clock_pos] in Hr.
  exists t, r. split; [| auto].
  unfold bind at 1. rewrite Ht. unfold bind at 1. rewrite Hr.
  rewrite format_fallback_template. unfold ret. do 2 f_equal. lia.
Qed.

(** X14. When [template.format] raises KeyError (the template names a
    slot that is not bound), [_dynamic_password_assembly] does not fail:
    it renders action,
    biometric, temporal and random joined by underscores, each taken from
    the components when bound there (else the literal fallback for action
    and biometric, fresh random hex for the other two).  The two default
    values are drawn in any case: four values of the random stream are
    read. *)
Theorem dynamic_password_assembly_missing_slot (rt : Runtime) (template : pystr)
    (components : gmap pystr pystr) (key : pystr) (w : World) :
  format rt template components = Raise (KeyError key) ->
  exists t r,
    _dynamic_password_assembly rt template components w
    = (Ok (default [109; U.Theta; 118] (components !! lit "action") ++ lit "_"
           ++ default (lit "B10") (components !! lit "biometric") ++ lit "_"
           ++ default t (components !! lit "temporal") ++ lit "_"
           ++ default r (components !! lit "random")),
       mkWorld (rng w) (rng_pos w + 4) (clock w) (clock_pos w))
    /\ length t = 4%nat /\ forallb is_hex_char t = true
    /\ length r = 4%nat /\ forallb is_hex_char r = true.
Proof. apply dynamic_password_assembly_fallback. Qed.

Lemma dynamic_password_assembly_missing_slot_witness :
  _dynamic_password_assembly plain_runtime (lit "{action}_{modifier}_{context}_{random}")
    (password_components (lit "w4lk") (lit "sl0w") (lit "ab12") (lit "0f0f")
       (lit "c3d4") (lit "GEN") (lit "9e") (lit "77aa"))
    (constant_world 0)
  = (Ok (lit "w4lk_ab12_0f0f_9e"), mkWorld (fun _ => 0) 4 (fun _ => morning) 0).
Proof.
  destruct (dynamic_password_assembly_missing_slot plain_runtime
              (lit "{action}_{modifier}_{context}_{random}")
              (password_components (lit "w4lk") (lit "sl0w") (lit "ab12") (lit "0f0f")
                 (lit "c3d4") (lit "GEN") (lit "9e") (lit "77aa"))
              (lit "context") (constant_world 0))
    as (t & r & Hrun & _).
  - vm_compute. reflexivity.
  - rewrite Hrun. vm_compute. reflexivity.
Defined.

(** X15. Every template of [password_templates] and of the enhanced set of
    [_select_optimal_template] names the slot "context", which
    [assemble_password] does not bind: whatever the selection returns,
    rendering it against the eight components raises KeyError 'context'
    (so [_dynamic_password_assembly] would fall back to its fixed
    template). *)
Theorem select_optimal_template_unbound_slot (rt : Runtime) (se : SemanticElements)
    (w : World)
    (action modifier biometric temporal entropy behavioral random signature : pystr) :
  exists t w',
    _select_optimal_template se w = (Ok t, w')
    /\ In t (password_templates ++ enhanced_templates)
    /\ format rt t (password_components action modifier biometric temporal entropy
                      behavioral random signature)
       = Raise (KeyError (lit "context")).
Proof.
  assert (Hsel : returns (_select_optimal_template se) w
                         (fun t => In t (password_templates ++ enhanced_templates))).
  { unfold _select_optimal_template. destruct (_ || _).
    - eapply returns_weaken; [apply returns_random_choice; discriminate |].
      cbv beta. intros t Ht. apply in_or_app. right. exact Ht.
    - eapply returns_weaken; [apply returns_random_choice; discriminate |].
      cbv beta. intros t Ht. apply in_or_app. left. exact Ht. }
  destruct Hsel as (t & w' & Hrun & Hin).
  exists t, w'. split; [exact Hrun |]. split; [exact Hin |].
  simpl in Hin.
  repeat (destruct Hin as [<- | Hin]; [vm_compute; reflexivity |]).
  destruct Hin.
Qed.

(** On a plain template the rendering succeeds or stops at a field that
    the components do not bind. *)
Lemma format_from_plain (fuel : nat) (t : pystr) (d : gmap pystr pystr) :
  plain_from fuel t = true ->
  (exists p, format_from fuel t d = Ok p)
  \/ (exists key, format_from fuel t d = Raise (KeyError key) /\ d !! key = None).
Proof.
  revert t. induction fuel as [| fuel IH]; intros t.
  - destruct t; [left; eexists; reflexivity | discriminate].
  - destruct t as [| c t']; [left; eexists; reflexivity |].
    cbn [format_from plain_from].
    assert (Hlit : forall c0 rest,
               plain_from fuel rest = true ->
               (exists p, match format_from fuel rest d with
                          | Ok r => Ok (c0 :: r)
                          | Raise e => Raise e
                          end = Ok p)
               \/ (exists key, match format_from fuel rest d with
                               | Ok r => Ok (c0 :: r)
                               | Raise e => Raise e
                               end = Raise (KeyError key) /\ d !! key = None)).
    { intros c0 rest Hrest.
      destruct (IH rest Hrest) as [[p ->] | (key & -> & Hkey)]; eauto. }
    destruct (c =? 123).
    + destruct t' as [| c1 t'']; [discriminate |].
      destruct (N.eqb_spec c1 123) as [-> | Hne]; [apply Hlit |].
      assert (Hfield :
                match read_field (c1 :: t'') [] with
                | Some (name, rest) => is_field_name name && plain_from fuel rest
                | None => false
                end = true ->
                (exists p,
                   match read_field (c1 :: t'') [] with
                   | Some (name, rest) =>
                       match d !! name with
                       | Some v =>
                           match format_from fuel rest d with
                           | Ok r => Ok (v ++ r)
                           | Raise e => Raise e
                           end
                       | None => Raise (KeyError name)
                       end
                   | None => Raise (ValueError (lit "expected '}' before end of string"))
                   end = Ok p)
                \/ (exists key,
                      match read_field (c1 :: t'') [] with
                      | Some (name, rest) =>
                          match d !! name with
                          | Some v =>
                              match format_from fuel rest d with
                              | Ok r => Ok (v ++ r)
                              | Raise e => Raise e
                              end
                          | None => Raise (KeyError name)
                          end
                      | None => Raise (ValueError (lit "expected '}' before end of string"))
                      end = Raise (KeyError key) /\ d !! key = None)).
      { destruct (read_field (c1 :: t'') []) as [[name rest] |]; [| discriminate].
        intros H. apply andb_true_iff in H as [_ Hrest].
        destruct (d !! name) eqn:Hname; [| right; eauto].
        destruct (IH rest Hrest) as [[p ->] | (key & -> & Hkey)]; eauto. }
      destruct c1 as [| p]; [exact Hfield |].
      do 7 (destruct p as [p | p |]; try exact Hfield). congruence.
    + destruct (c =? 125); [| apply Hlit].
      destruct t' as [| c1 t'']; [discriminate |].
      destruct c1 as [| p]; [discriminate |].
      do 7 (destruct p as [p | p |]; try discriminate). apply Hlit.
Qed.

(** X16. On a plain template (literal text, doubled braces and [{name}]
    fields) [_dynamic_password_assembly] never raises, whatever the
    components: it returns the rendering of the template without drawing,
    or, when the template names a slot that the components do not bind,
    the rendering of the fallback template after four draws. *)
Theorem dynamic_password_assembly_total (rt : Runtime) (template : pystr)
    (components : gmap pystr pystr) (w : World) :
  plain_template template = true ->
  exists p w',
    _dynamic_password_assembly rt template components w = (Ok p, w')
    /\ ((format rt template components = Ok p /\ w' = w)
        \/ (exists key,
              format rt template components = Raise (KeyError key)
              /\ components !! key = None
              /\ w' = mkWorld (rng w) (rng_pos w + 4) (clock w) (clock_pos w))).
Proof.
  intros Hplain.
  assert (Hformat : format rt template components
                    = format_from (length template) template components).
  { unfold format. rewrite Hplain. reflexivity. }
  destruct (format_from_plain (length template) template components Hplain)
    as [[p Hp] | (key & Hkey & Hunbound)]; rewrite <- Hformat in *.
  - exists p, w. split; [| left; auto].
    unfold _dynamic_password_assembly. rewrite Hp. reflexivity.
  - destruct (dynamic_password_assembly_fallback rt template components key w Hkey)
      as (t & r & Hrun & _).
    eexists _, _. split; [exact Hrun |]. right. exists key. auto.
Qed.

Lemma dynamic_password_assembly_total_witness :
  exists p,
    _dynamic_password_assembly plain_runtime (lit "{{{action}}}_{signature}")
      (password_components (lit "w4lk") (lit "sl0w") (lit "ab12") (lit "0f0f")
         (lit "c3d4") (lit "GEN") (lit "9e") (lit "77aa"))
      (constant_world 0)
    = (Ok p, constant_world 0)
    /\ p = lit "{w4lk}_77aa".
Proof.
  destruct (dynamic_password_assembly_total plain_runtime (lit "{{{action}}}_{signature}")
              (password_components (lit "w4lk") (lit "sl0w") (lit "ab12") (lit "0f0f")
                 (lit "c3d4") (lit "GEN") (lit "9e") (lit "77aa"))
              (constant_world 0))
    as (p & w' & Hrun & [[Hp ->] | (key & Hkey & _)]).
  - vm_compute. reflexivity.
  - exists p. split; [exact Hrun |]. vm_compute in Hp. injection Hp as <-. reflexivity.
  - vm_compute in Hkey. discriminate Hkey.
Defined.

(** ** Selection of the primary action *)

Lemma filter_head {A} (f : A -> bool) (l : list A) x rest :
  List.filter f l = x :: rest ->
  exists pre post, l = pre ++ x :: post /\ f x = true
                   /\ forall a, In a pre -> f a = false.
Proof.
  induction l as [| y l IH]; [discriminate |].
  cbn [List.filter]. destruct (f y) eqn:Hy.
  - intros [= -> <-]. exists [], l. split; [reflexivity |]. split; [exact Hy |].
    intros a [].
  - intros H. destruct (IH H) as (pre & post & -> & Hx & Hpre).
    exists (y :: pre), post. split; [reflexivity |]. split; [exact Hx |].
    intros a [<- | Ha]; [exact Hy | exact (Hpre a Ha)].
Qed.

Lemma filter_none {A} (f : A -> bool) (l : list A) :
  List.filter f l = [] -> forall a, In a l -> f a = false.
Proof.
  induction l as [| y l IH]; [intros _ a [] |].
  cbn [List.filter]. destruct (f y) eqn:Hy; [discriminate |].
  intros H a [<- | Ha]; [exact Hy | exact (IH H a Ha)].
Qed.

Lemma flat_map_head {A B} (g : A -> list B) (ps : list A) x rest :
  flat_map g ps = x :: rest ->
  exists before p after tail,
    ps = before ++ p :: after /\ g p = x :: tail
    /\ forall q, In q before -> g q = [].
Proof.
  induction ps as [| q ps IH]; [discriminate |].
  cbn [flat_map]. destruct (g q) as [| y tail] eqn:Hq.
  - cbn [app]. intros H. destruct (IH H) as (before & p & after & tail & -> & Hp & Hb).
    exists (q :: before), p, after, tail. split; [reflexivity |]. split; [exact Hp |].
    intros q' [<- | Hq']; [exact Hq | exact (Hb q' Hq')].
  - cbn [app]. intros [= -> _]. exists [], q, ps, tail.
    split; [reflexivity |]. split; [exact Hq |]. intros q' [].
Qed.

Lemma flat_map_none {A B} (g : A -> list B) (ps : list A) :
  flat_map g ps = [] -> forall q, In q ps -> g q = [].
Proof.
  induction ps as [| q ps IH]; [intros _ q [] |].
  cbn [flat_map]. intros H. apply app_eq_nil in H as [Hq Hps].
  intros q' [<- | Hq']; [exact Hq | exact (IH Hps q' Hq')].
Qed.

Lemma longest_spec (best : pystr) (l : list pystr) :
  exists pre post,
    best :: l = pre ++ longest best l :: post
    /\ (forall a, In a pre -> len a < len (longest best l))
    /\ (forall a, In a post -> len a <= len (longest best l)).
Proof.
  revert best. induction l as [| x l IH]; intros best.
  - exists [], []. cbn. split; [reflexivity |]. split; intros a [].
  - cbn [longest]. destruct (N.ltb_spec (len best) (len x)) as [Hlt | Hge].
    + destruct (IH x) as (pre & post & Heq & Hpre & Hpost).
      exists (best :: pre), post. split; [rewrite Heq; reflexivity |].
      split; [| exact Hpost].
      assert (Hx : len x <= len (longest x l)).
      { assert (Hin : In x (pre ++ longest x l :: post)) by (rewrite <- Heq; left; reflexivity).
        apply in_app_or in Hin as [Hin | [Hin | Hin]];
          [specialize (Hpre _ Hin); lia | rewrite Hin; lia | exact (Hpost _ Hin)]. }
      intros a [<- | Ha]; [lia | exact (Hpre a Ha)].
    + destruct (IH best) as (pre & post & Heq & Hpre & Hpost).
      set (c := longest best l) in *. clearbody c.
      destruct pre as [| b pre]; cbn [app] in Heq; injection Heq as Hb Hl; subst.
      * exists [], (x :: post). split; [reflexivity |].
        split; [intros a [] |].
        intros a [<- | Ha]; [exact Hge | exact (Hpost a Ha)].
      * exists (b :: x :: pre), post. split; [reflexivity |].
        split; [| exact Hpost].
        assert (Hbest : len b < len c) by (apply Hpre; left; reflexivity).
        intros a [<- | [<- | Ha]]; [exact Hbest | lia | apply Hpre; right; exact Ha].
Qed.

(** X17. [_select_primary_action] returns "move" for an empty list and
    otherwise one of the actions: the first action that contains the
    earliest priority word found in any action (walking before running
    before jumping, waving, pointing, turning); when no action contains a
    priority word, the first of the longest actions. *)
Theorem select_primary_action_spec (actions : list pystr) :
  let chosen := _select_primary_action actions in
  (actions = [] -> chosen = lit "move")
  /\ (actions <> [] ->
      exists pre post,
        actions = pre ++ chosen :: post
        /\ ((exists before p after,
               priority_actions = before ++ p :: after
               /\ contains p chosen = true
               /\ (forall a, In a pre -> contains p a = false)
               /\ (forall q a, In q before -> In a actions -> contains q a = false))
            \/ ((forall q a, In q priority_actions -> In a actions -> contains q a = false)
                /\ (forall a, In a pre -> len a < len chosen)
                /\ (forall a, In a post -> len a <= len chosen)))).
Proof.
  cbv zeta. unfold _select_primary_action.
  destruct (flat_map _ priority_actions) as [| action hits] eqn:Hhits.
  - pose proof (flat_map_none _ _ Hhits) as Hnone. cbv beta in Hnone.
    split; [intros ->; reflexivity |].
    destruct actions as [| a l]; [congruence |]. intros _.
    destruct (longest_spec a l) as (pre & post & Heq & Hpre & Hpost).
    exists pre, post. split; [exact Heq |]. right.
    split; [| split; assumption].
    intros q x Hq Hx. exact (filter_none _ _ (Hnone q Hq) x Hx).
  - apply flat_map_head in Hhits as (before & p & after & tail & Hp & Hfilter & Hbefore).
    apply filter_head in Hfilter as (pre & post & -> & Hc & Hpre).
    split; [intros H; destruct pre; discriminate |]. intros _.
    exists pre, post. split; [reflexivity |]. left.
    exists before, p, after. split; [exact Hp |]. split; [exact Hc |].
    split; [exact Hpre |].
    intros q a Hq Ha. exact (filter_none _ _ (Hbefore q Hq) a Ha).
Qed.

(** ** Contextual modifiers *)

Lemma hex_digits_length k n acc : length (hex_digits k n acc) = (k + length acc)%nat.
Proof.
  revert n acc. induction k as [| k IH]; intros n acc; [reflexivity |].
  cbn [hex_digits]. rewrite IH. simpl. lia.
Qed.

Lemma hex_string_take k n m d :
  (m + d <= k)%nat -> hex_string m (take m (drop d (hex_digits k n []))).
Proof.
  intros Hk. split.
  - rewrite length_take, length_drop, hex_digits_length. simpl. lia.
  - apply forallb_take.
    pose proof (hex_digits_hex k n [] eq_refl) as H.
    rewrite <- (take_drop d (hex_digits k n [])), forallb_app in H.
    apply andb_true_iff in H. apply H.
Qed.

Lemma in_levels c : In c levels <-> c = lit "low" \/ c = lit "medium" \/ c = lit "high".
Proof. unfold levels. cbn. intuition congruence. Qed.

Lemma complexity_level_in n : In (complexity_level n) levels.
Proof.
  unfold complexity_level. apply in_levels.
  destruct (5 <? n); [| destruct (2 <? n)]; auto.
Qed.

Lemma returns_generate_movement_entropy rt movement_text w :
  returns (_generate_movement_entropy rt movement_text) w
    (fun me => exists h c,
       pattern_hash me = Some h
       /\ hex_string (if truthy movement_text then 3 else 4) h
       /\ complexity me = Some c /\ In c levels
       /\ encodable (default [] (me_signature me)) = true).
Proof.
  unfold _generate_movement_entropy. destruct (truthy movement_text); cbn [negb].
  - cbv zeta.
    set (n := count_terms (concat movement_biometrics) (lower rt movement_text)).
    set (sig := take 8 _).
    eapply returns_bind.
    { apply (utf8_encode_returns (sig ++ str_of_N n)).
      rewrite forallb_app. apply andb_true_iff. split.
      - apply (forallb_impl (char_isword rt)); [apply word_not_surrogate |].
        apply pattern_signature_words.
      - apply (forallb_impl is_digit_char); [apply digit_not_surrogate |].
        apply str_of_N_digits. }
    intros bytes w1 _. apply returns_ret.
    exists (take 3 (md5_hexdigest rt bytes)), (complexity_level n).
    split; [reflexivity |].
    split; [apply (hex_string_take 32 _ 3 0); lia |].
    split; [reflexivity |]. split; [apply complexity_level_in |].
    cbn [me_signature default]. apply forallb_take.
    apply (forallb_impl (char_isword rt)); [apply word_not_surrogate |].
    apply pattern_signature_words.
  - eapply returns_bind; [apply returns_token_hex |]. intros h w1 [Hlen Hhex].
    apply returns_ret. exists h, (lit "low").
    split; [reflexivity |]. split; [split; assumption |].
    split; [reflexivity |]. split; [apply in_levels; auto | reflexivity].
Qed.

Lemma In_repeat {A} (a x : A) (n : N) :
  In x (repeat a (N.to_nat n)) <-> x = a /\ 0 < n.
Proof.
  split.
  - intros H. split; [exact (repeat_spec _ _ _ H) |].
    destruct (N.to_nat n) eqn:Hn; [destruct H | lia].
  - intros [-> Hn]. destruct (N.to_nat n) eqn:Hn'; [lia | left; reflexivity].
Qed.

Lemma singleton_tags (tags : list pystr) :
  (forall t, In t tags -> exists ch : N, t = [ch]) ->
  tags = map (fun ch => [ch]) (concat tags).
Proof.
  induction tags as [| t tags IH]; intros H; [reflexivity |].
  destruct (H t (or_introl eq_refl)) as [ch ->].
  cbn [concat app map]. f_equal. apply IH. intros t Ht. apply H. right. exact Ht.
Qed.

Lemma returns_analyze_behavioral_patterns rt movement_text w :
  truthy movement_text = true ->
  returns (_analyze_behavioral_patterns rt movement_text) w (fun bs =>
    let '(c, e, p) := indicator_counts rt movement_text in
    let score := 2 * c + 3 * e + p in
    complexity_score bs = Some (str_of_N score)
    /\ features_detected bs = Some (c + e + p)
    /\ confidence bs
       = Some (if 8 <? score then lit "high"
               else if 4 <? score then lit "medium" else lit "low")
    /\ exists sig,
         bs_signature bs = Some sig
         /\ (c + e + p = 0 -> sig = lit "GEN")
         /\ (0 < c + e + p ->
             NoDup sig
             /\ forall ch, In ch sig <->
                  ([ch] = lit "C" /\ 0 < c) \/ ([ch] = lit "E" /\ 0 < e)
                  \/ ([ch] = lit "P" /\ 0 < p))).
Proof.
  intros Htext. unfold _analyze_behavioral_patterns, indicator_counts.
  rewrite Htext. cbn [negb]. cbv zeta.
  set (c := count_terms coordination_indicators _).
  set (e := count_terms energy_indicators _).
  set (p := count_terms precision_indicators _).
  rewrite N.mul_1_l.
  eapply returns_bind; [apply returns_iter_set |]. intros tags w1 [Hnd Hin].
  apply returns_ret.
  cbn [complexity_score features_detected confidence bs_signature].
  assert (Htags : forall t, In t tags <->
            (t = lit "C" /\ 0 < c) \/ (t = lit "E" /\ 0 < e) \/ (t = lit "P" /\ 0 < p)).
  { intros t. rewrite Hin, !in_app_iff, !In_repeat. reflexivity. }
  split; [reflexivity |].
  split.
  { f_equal. unfold len_list. rewrite !length_app, !repeat_length. lia. }
  split; [reflexivity |].
  eexists. split; [reflexivity |].
  pose proof (singleton_tags tags) as Hsingle.
  assert (Hone : forall t, In t tags -> exists ch : N, t = [ch]).
  { intros t Ht. apply Htags in Ht as [[-> _] | [[-> _] | [-> _]]]; eexists; reflexivity. }
  specialize (Hsingle Hone).
  set (chars := concat tags) in *.
  assert (Hchars : forall ch, In ch chars <->
            ([ch] = lit "C" /\ 0 < c) \/ ([ch] = lit "E" /\ 0 < e)
            \/ ([ch] = lit "P" /\ 0 < p)).
  { intros ch. rewrite <- (Htags [ch]). rewrite Hsingle, in_map_iff. split.
    - intros H. exists ch. auto.
    - intros (ch' & [= ->] & H). exact H. }
  assert (Hnd' : NoDup chars).
  { rewrite Hsingle in Hnd. apply (NoDup_fmap_1 (fun ch : N => [ch])) in Hnd. exact Hnd. }
  assert (Hlen : (length chars <= 3)%nat).
  { apply NoDup_ListNoDup in Hnd'.
    apply (List.NoDup_incl_length (l' := [67; 69; 80])) in Hnd'; [exact Hnd' |].
    intros ch Hch. apply Hchars in Hch as [[[= ->] _] | [[[= ->] _] | [[= ->] _]]];
      cbn; auto. }
  rewrite (take_ge chars 3) by exact Hlen.
  split.
  - intros Hzero. destruct chars as [| ch chars']; [reflexivity |].
    exfalso. pose proof (proj1 (Hchars ch) (or_introl eq_refl)) as H. lia.
  - intros Hpos. unfold or_else.
    destruct chars as [| ch chars'] eqn:Heq.
    + exfalso.
      assert (H : exists ch, ([ch] = lit "C" /\ 0 < c) \/ ([ch] = lit "E" /\ 0 < e)
                             \/ ([ch] = lit "P" /\ 0 < p)).
      { destruct (N.eq_dec c 0); [destruct (N.eq_dec e 0) |].
        - exists 80. right. right. split; [reflexivity | lia].
        - exists 69. right. left. split; [reflexivity | lia].
        - exists 67. left. split; [reflexivity | lia]. }
      destruct H as [ch H]. apply Hchars in H. destruct H.
    + cbn [truthy]. split; [exact Hnd' | exact Hchars].
Qed.

Lemma returns_analyze_behavioral_patterns_score rt movement_text w :
  returns (_analyze_behavioral_patterns rt movement_text) w (fun bs =>
    exists s conf,
      complexity_score bs = Some s /\ forallb is_digit_char s = true
      /\ confidence bs = Some conf /\ In conf levels
      /\ encodable (default [] (bs_signature bs)) = true).
Proof.
  destruct (truthy movement_text) eqn:Htext.
  - eapply returns_weaken; [apply returns_analyze_behavioral_patterns, Htext |].
    cbv beta. intros bs. destruct (indicator_counts rt movement_text) as [[c e] p].
    cbv zeta. intros (Hscore & _ & Hconf & sig & Hsig & Hgen & Hletters).
    eexists _, _. split; [exact Hscore |]. split; [apply str_of_N_digits |].
    split; [exact Hconf |].
    split; [apply in_levels; destruct (8 <? _); [| destruct (4 <? _)]; auto |].
    rewrite Hsig. cbn [default].
    destruct (N.eq_dec (c + e + p) 0) as [Hzero | Hpos]; [rewrite (Hgen Hzero); reflexivity |].
    destruct Hletters as [_ Hin]; [lia |].
    apply forallb_forall. intros ch Hch.
    apply Hin in Hch as [[[= ->] _] | [[[= ->] _] | [[= ->] _]]]; reflexivity.
  - unfold _analyze_behavioral_patterns. rewrite Htext. apply returns_ret.
    exists (lit "0"), (lit "low"). cbn [complexity_score confidence].
    split; [reflexivity |]. split; [reflexivity |]. split; [reflexivity |].
    split; [apply in_levels; auto | reflexivity].
Qed.

(** The modifiers [assemble_password] can encode: the strings it hashes
    hold no surrogate. *)
Lemma returns_generate_contextual_modifiers rt movement_analysis w :
  returns (generate_contextual_modifiers rt movement_analysis) w (fun cm =>
    (hex_string 4 (temporal cm)
     /\ hex_string 6 (session cm)
     /\ (exists c, compound_modifier cm = Some c /\ hex_string 4 c)
     /\ (exists me h,
           movement_entropy cm = Some me /\ pattern_hash me = Some h
           /\ hex_string (if truthy movement_analysis then 3 else 4) h)
     /\ In (complexity_of cm) levels
     /\ (exists bs conf,
           behavioral_signature cm = Some bs /\ confidence bs = Some conf
           /\ In conf levels))
    /\ encodable_modifiers cm).
Proof.
  unfold generate_contextual_modifiers.
  eapply returns_bind with (P := fun _ => True).
  { unfold returns, datetime_now. eauto. }
  intros now w1 _. cbv zeta.
  eapply returns_bind; [apply returns_generate_movement_entropy |].
  intros me w2 (h & c & Hh & Hhex & Hc & Hlevel & Hme).
  eapply returns_bind; [apply returns_analyze_behavioral_patterns_score |].
  intros bs w3 (s & conf & Hs & Hdigits & Hconf & Hconf_level & Hbs).
  rewrite Hh, Hs. cbn [getitem].
  eapply returns_bind_eq; [reflexivity |].
  eapply returns_bind_eq; [reflexivity |].
  eapply returns_bind with (P := fun _ => True).
  { apply utf8_encode_returns. rewrite !forallb_app.
    destruct Hhex as [_ Hhex].
    rewrite !(forallb_impl is_digit_char _ _ digit_not_surrogate (str_of_N_digits _)).
    rewrite (forallb_impl is_hex_char _ _ hex_not_surrogate Hhex).
    rewrite (forallb_impl is_digit_char _ _ digit_not_surrogate Hdigits).
    rewrite (forallb_impl is_digit_char _ _ digit_not_surrogate
               (forallb_take _ 3 _ (str_of_N_digits _))).
    reflexivity. }
  intros bytes w6 _.
  eapply returns_bind; [apply returns_token_hex |]. intros token w7 Htoken.
  apply returns_ret.
  unfold encodable_modifiers, complexity_of, get2.
  cbn [temporal session compound_modifier movement_entropy behavioral_signature].
  rewrite Hs, Hc. cbn [default].
  split.
  - split; [apply (hex_string_take 64 _ 4 0); lia |].
    split; [exact Htoken |].
    split; [eexists; split; [reflexivity | apply (hex_string_take 64 _ 4 4); lia] |].
    split; [exists me, h; auto |].
    split; [exact Hlevel |].
    exists bs, conf. auto.
  - split; [exact (forallb_impl is_digit_char _ _ digit_not_surrogate Hdigits) |].
    split; [exact Hbs | exact Hme].
Qed.

(** X18. [generate_contextual_modifiers] never raises, whatever the text:
    the two dictionary reads it makes always find their key and the
    strings it hashes can always be encoded.  temporal and
    compound_modifier are four hex digits each, session is six; the
    pattern hash is three hex digits (four when the text is empty); the
    movement complexity and the behavioral confidence are each one of
    low, medium and high. *)
Theorem generate_contextual_modifiers_total (rt : Runtime) (movement_analysis : pystr)
    (w : World) :
  returns (generate_contextual_modifiers rt movement_analysis) w (fun cm =>
    hex_string 4 (temporal cm)
    /\ hex_string 6 (session cm)
    /\ (exists c, compound_modifier cm = Some c /\ hex_string 4 c)
    /\ (exists me h,
          movement_entropy cm = Some me /\ pattern_hash me = Some h
          /\ hex_string (if truthy movement_analysis then 3 else 4) h)
    /\ In (complexity_of cm) levels
    /\ (exists bs conf,
          behavioral_signature cm = Some bs /\ confidence bs = Some conf
          /\ In conf levels)).
Proof.
  eapply returns_weaken; [apply returns_generate_contextual_modifiers |].
  cbv beta. intros cm [H _]. exact H.
Qed.

(** X19. On a non-empty text [_analyze_behavioral_patterns] returns the
    score 2 c + 3 e + p for c coordination, e energy and p precision
    indicators found in the lower-cased text, the count c + e + p, and the
    confidence high above 8, medium above 4 and low otherwise.  The
    signature is "GEN" when no indicator is found; otherwise it holds the
    letter C, E or P exactly for the categories with an indicator, each
    letter once (the order is that of the set). *)
Theorem analyze_behavioral_patterns_signature (rt : Runtime) (movement_text : pystr)
    (w : World) :
  truthy movement_text = true ->
  returns (_analyze_behavioral_patterns rt movement_text) w (fun bs =>
    let '(c, e, p) := indicator_counts rt movement_text in
    let score := 2 * c + 3 * e + p in
    complexity_score bs = Some (str_of_N score)
    /\ features_detected bs = Some (c + e + p)
    /\ confidence bs
       = Some (if 8 <? score then lit "high"
               else if 4 <? score then lit "medium" else lit "low")
    /\ exists sig,
         bs_signature bs = Some sig
         /\ (c + e + p = 0 -> sig = lit "GEN")
         /\ (0 < c + e + p ->
             NoDup sig
             /\ forall ch, In ch sig <->
                  ([ch] = lit "C" /\ 0 < c) \/ ([ch] = lit "E" /\ 0 < e)
                  \/ ([ch] = lit "P" /\ 0 < p))).
Proof. apply returns_analyze_behavioral_patterns. Qed.

Lemma analyze_behavioral_patterns_signature_witness :
  returns (_analyze_behavioral_patterns plain_runtime
             (lit "A smooth, quick and precise turn") ) (constant_world 0)
    (fun bs =>
       complexity_score bs = Some (lit "6")
       /\ features_detected bs = Some 3
       /\ confidence bs = Some (lit "medium")
       /\ exists sig, bs_signature bs = Some sig
                      /\ NoDup sig /\ forall ch, In ch sig <-> In ch (lit "CEP")).
Proof.
  destruct (analyze_behavioral_patterns_signature plain_runtime
              (lit "A smooth, quick and precise turn") (constant_world 0) eq_refl)
    as (bs & w' & Hrun & H).
  exists bs, w'. split; [exact Hrun |].
  change (indicator_counts plain_runtime (lit "A smooth, quick and precise turn"))
    with (1, 1, 1) in H.
  cbv zeta iota beta in H.
  destruct H as (Hscore & Hfeatures & Hconf & sig & Hsig & _ & Hletters).
  split; [exact Hscore |]. split; [exact Hfeatures |]. split; [exact Hconf |].
  exists sig. split; [exact Hsig |].
  destruct Hletters as [Hnd Hin]; [reflexivity |].
  split; [exact Hnd |]. intros ch. rewrite Hin. cbn.
  intuition (try congruence; try lia).
Defined.

(** ** The randomizer *)

Lemma returns_and_random (cond : bool) percent w :
  returns (and_random cond percent) w (fun b => b = true -> cond = true).
Proof.
  unfold and_random. destruct cond.
  - unfold random_below. eapply returns_bind; [apply returns_draw |].
    intros r w1 _. apply returns_ret. reflexivity.
  - apply returns_ret. auto.
Qed.

Lemma unchanged_pieces (chars : pystr) :
  concat (map (fun c => [c]) chars) = chars
  /\ length (map (fun c : N => [c]) chars) = length chars
  /\ changed chars (map (fun c => [c]) chars) = 0
  /\ Forall one_char (map (fun c => [c]) chars).
Proof.
  induction chars as [| c chars (IH1 & IH2 & IH3 & IH4)].
  - repeat split. constructor.
  - cbn [map concat app length changed pystr_eqb]. rewrite N.eqb_refl, IH1, IH2, IH3.
    repeat split. constructor; [reflexivity | exact IH4].
Qed.

Lemma assoc_char_one_char c (table : list (N * pystr)) v :
  Forall (fun kv => one_char (snd kv)) table ->
  assoc_char c table = Some v -> one_char v.
Proof.
  induction 1 as [| [k v'] table Hkv _ IH]; [discriminate |].
  cbn [assoc_char]. destruct (c =? k); [intros [= <-]; exact Hkv | exact IH].
Qed.

Lemma basic_one_char c : one_char (default [c] (assoc_char c char_substitutions_basic)).
Proof.
  destruct (assoc_char c char_substitutions_basic) as [v |] eqn:Hv; [| reflexivity].
  apply (assoc_char_one_char c char_substitutions_basic v); [| exact Hv].
  repeat constructor.
Qed.

Lemma advanced_one_char c : one_char (default [c] (assoc_char c char_substitutions_advanced)).
Proof.
  destruct (assoc_char c char_substitutions_advanced) as [v |] eqn:Hv; [| reflexivity].
  apply (assoc_char_one_char c char_substitutions_advanced v); [| exact Hv].
  repeat constructor.
Qed.

Lemma transform_one_char c v : assoc_char c movement_transform = Some v -> one_char v.
Proof. apply assoc_char_one_char. repeat constructor. Qed.

Lemma str_of_digit_one_char c : one_char (str_of_N (c mod 10)).
Proof.
  unfold str_of_N. cbn [str_of_N_aux].
  assert (H : c mod 10 < 10) by (apply N.mod_lt; lia).
  apply N.ltb_lt in H. rewrite H. reflexivity.
Qed.

Lemma positional_one_char rt i c :
  c < 128 -> one_char (if i mod 2 =? 0 then char_upper rt c else str_of_N (c mod 10)).
Proof.
  intros Hc. destruct (i mod 2 =? 0); [| apply str_of_digit_one_char].
  rewrite ascii_upper_char by exact Hc. reflexivity.
Qed.

Lemma changed_cons_le c chars p pieces :
  changed (c :: chars) (p :: pieces) <= 1 + changed chars pieces.
Proof. cbn [changed]. destruct (pystr_eqb p [c]); lia. Qed.

Lemma changed_cons_same c chars pieces :
  changed (c :: chars) ([c] :: pieces) = changed chars pieces.
Proof. cbn [changed pystr_eqb]. rewrite N.eqb_refl. reflexivity. Qed.

Lemma returns_randomize_from rt chars i changes_made max_changes w :
  changes_made <= max_changes ->
  returns (randomize_from rt i changes_made max_changes chars) w (fun r =>
    exists pieces,
      r = concat pieces /\ length pieces = length chars
      /\ changes_made + changed chars pieces <= max_changes
      /\ (is_ascii chars = true -> Forall one_char pieces)).
Proof.
  revert i changes_made w. induction chars as [| char chars IH]; intros i changes_made w Hle.
  - apply returns_ret. exists []. repeat split; [cbn; lia | constructor].
  - cbn [randomize_from].
    destruct (N.leb_spec max_changes changes_made) as [Hfull | Hroom].
    { apply returns_ret. exists (map (fun c => [c]) (char :: chars)).
      destruct (unchanged_pieces (char :: chars)) as (H1 & H2 & H3 & H4).
      rewrite H1, H2, H3. repeat split; [lia | auto]. }
    assert (Hstep : forall (piece : pystr) w',
              (is_ascii (char :: chars) = true -> one_char piece) ->
              returns (let* rest := randomize_from rt (i + 1) (changes_made + 1)
                                      max_changes chars in
                       ret (piece ++ rest)) w'
                (fun r => exists pieces,
                   r = concat pieces /\ length pieces = length (char :: chars)
                   /\ changes_made + changed (char :: chars) pieces <= max_changes
                   /\ (is_ascii (char :: chars) = true -> Forall one_char pieces))).
    { intros piece w' Hpiece.
      eapply returns_bind; [apply (IH (i + 1) (changes_made + 1)); lia |].
      intros rest w2 (pieces & -> & Hlen & Hbudget & Hone).
      apply returns_ret. exists (piece :: pieces).
      split; [reflexivity |]. split; [cbn [length]; rewrite Hlen; reflexivity |].
      split; [pose proof (changed_cons_le char chars piece pieces); lia |].
      intros Hascii. constructor; [exact (Hpiece Hascii) |].
      apply Hone. cbn in Hascii. apply andb_true_iff in Hascii. apply Hascii. }
    assert (Hchar : is_ascii (char :: chars) = true -> char < 128).
    { cbn. intros H. apply andb_true_iff in H as [H _]. apply N.ltb_lt, H. }
    eapply returns_bind; [apply returns_and_random |]. intros phase1 w1 _.
    destruct phase1; [apply Hstep; intros _; apply basic_one_char |].
    eapply returns_bind; [apply returns_and_random |]. intros phase2 w2 _.
    destruct phase2; [apply Hstep; intros _; apply advanced_one_char |].
    eapply returns_bind; [apply returns_and_random |]. intros phase3 w3 _.
    destruct phase3; [apply Hstep; intros H; apply positional_one_char, Hchar, H |].
    eapply returns_bind; [apply returns_and_random |]. intros phase4 w4 _.
    destruct (if phase4 then assoc_char char movement_transform else None) as [t |] eqn:Ht.
    + apply Hstep. intros _. destruct phase4; [| discriminate].
      exact (transform_one_char _ _ Ht).
    + eapply returns_bind; [apply (IH (i + 1) changes_made); lia |].
      intros rest w5 (pieces & -> & Hlen & Hbudget & Hone).
      apply returns_ret. exists ([char] :: pieces).
      split; [reflexivity |]. split; [cbn [length]; rewrite Hlen; reflexivity |].
      split; [rewrite changed_cons_same; exact Hbudget |].
      intros Hascii. constructor; [reflexivity |].
      apply Hone. cbn in Hascii. apply andb_true_iff in Hascii. apply Hascii.
Qed.

Lemma lower_from_is_ascii rt before s :
  is_ascii s = true -> is_ascii (lower_from rt before s) = true.
Proof.
  unfold is_ascii. revert before. induction s as [| c s IH]; intros before; [reflexivity |].
  cbn [forallb lower_from]. intros H. apply andb_true_iff in H as [Hc Hs].
  rewrite forallb_app, (IH _ Hs), andb_true_r.
  apply N.ltb_lt in Hc.
  destruct (N.eqb_spec c U.Sigma) as [-> | _]; [unfold U.Sigma in Hc; lia |].
  unfold char_lower. apply N.ltb_lt in Hc. rewrite Hc. cbn [forallb]. rewrite andb_true_r.
  apply N.ltb_lt in Hc. apply N.ltb_lt.
  unfold is_ascii_upper. destruct (N.leb_spec 65 c), (N.leb_spec c 90); cbn; lia.
Qed.

Lemma lower_is_ascii rt s : is_ascii s = true -> is_ascii (lower rt s) = true.
Proof. apply lower_from_is_ascii. Qed.

(** X20. [apply_entropy_randomization] never raises.  For the entropy
    levels the generator passes (0.3, 0.35, 0.4) and texts shorter than
    180 characters (where the float product of the source truncates to the
    integer quotient) it keeps to its budget.  Its result is either the whole-word
    substitution of the contextual table (only in the context "movement"),
    or the lower-cased text with each character kept or replaced by one
    piece, where at most max(1, int(len(text) * entropy_level)) characters
    are replaced; on an ASCII text every piece is one character, so the
    length is that of the text. *)
Theorem apply_entropy_randomization_budget (rt : Runtime) (text : pystr)
    (entropy_percent : N) (context : pystr) (w : World) :
  In entropy_percent [30; 35; 40] ->
  len text < 180 ->
  returns (apply_entropy_randomization rt text entropy_percent context) w (fun r =>
    (context = lit "movement"
     /\ assoc_str (lower rt text) char_substitutions_contextual = Some r)
    \/ exists pieces,
         r = concat pieces
         /\ length pieces = length (lower rt text)
         /\ changed (lower rt text) pieces <= N.max 1 (len text * entropy_percent / 100)
         /\ (is_ascii text = true -> Forall one_char pieces)).
Proof.
  intros Hlevel Hshort. unfold apply_entropy_randomization.
  destruct text as [| c text]; cbn [truthy negb].
  { apply returns_ret. right. exists []. repeat split; [cbn; lia | constructor]. }
  cbv zeta.
  assert (Hscaled : scaled_length rt (len (c :: text)) entropy_percent
                    = len (c :: text) * entropy_percent / 100).
  { unfold scaled_length. apply N.ltb_lt in Hshort. rewrite Hshort, andb_true_r.
    destruct Hlevel as [<- | [<- | [<- | []]]]; reflexivity. }
  rewrite Hscaled.
  destruct (pystr_eqb context (lit "movement")) eqn:Hcontext.
  - destruct (assoc_str (lower rt (c :: text)) char_substitutions_contextual)
      as [substitution |] eqn:Hsub.
    + apply returns_ret. left. split; [apply pystr_eqb_eq, Hcontext | reflexivity].
    + eapply returns_weaken; [apply returns_randomize_from; lia |]. cbv beta.
      intros r (pieces & -> & Hlen & Hbudget & Hone). right. exists pieces.
      split; [reflexivity |]. split; [exact Hlen |]. split; [lia |].
      intros H. apply Hone, lower_is_ascii, H.
  - eapply returns_weaken; [apply returns_randomize_from; lia |]. cbv beta.
    intros r (pieces & -> & Hlen & Hbudget & Hone). right. exists pieces.
    split; [reflexivity |]. split; [exact Hlen |]. split; [lia |].
    intros H. apply Hone, lower_is_ascii, H.
Qed.

Lemma apply_entropy_randomization_budget_witness :
  returns (apply_entropy_randomization plain_runtime (lit "Walkin") 40 (lit "movement"))
    (constant_world 0)
    (fun r => exists pieces,
       r = concat pieces /\ length pieces = 6%nat
       /\ changed (lit "walkin") pieces <= 2 /\ Forall one_char pieces).
Proof.
  destruct (apply_entropy_randomization_budget plain_runtime (lit "Walkin") 40
              (lit "movement") (constant_world 0))
    as (r & w' & Hrun & [[_ Hsub] | (pieces & Hr & Hlen & Hbudget & Hone)]).
  - cbn. auto.
  - reflexivity.
  - vm_compute in Hsub. discriminate Hsub.
  - exists r, w'. split; [exact Hrun |]. exists pieces.
    split; [exact Hr |]. split; [exact Hlen |]. split; [exact Hbudget |].
    apply Hone. reflexivity.
Defined.

(** ** Failing requests *)



















(** ** The normal path *)

Lemma known_upper_encodable c i :
  known_char c = Some i -> is_surrogate (ci_upper i) = false.
Proof.
  unfold known_char.
  repeat match goal with
         | |- context [if ?c =? ?k then _ else _] =>
             destruct (N.eqb_spec c k) as [-> | _]; [intros [= <-]; reflexivity |]
         end.
  destruct (andb _ _) eqn:Hrange.
  { intros [= <-]. cbn [ci_upper]. apply andb_true_iff in Hrange as [_ H].
    apply N.leb_le in H. unfold U.epsilon in H. unfold is_surrogate.
    apply andb_false_iff. left. apply N.leb_gt. lia. }
  repeat match goal with
         | |- context [if ?c =? ?k then _ else _] =>
             destruct (N.eqb_spec c k) as [-> | _]; [intros [= <-]; reflexivity |]
         end.
  destruct (mem_char _ _) eqn:Hmem; [| discriminate].
  intros [= <-]. cbn [ci_upper]. unfold mem_char in Hmem. cbn [existsb] in Hmem.
  repeat (apply orb_true_iff in Hmem as [Hmem | Hmem];
          [apply N.eqb_eq in Hmem; subst c; reflexivity |]).
  discriminate.
Qed.

Lemma char_upper_encodable rt c :
  upper_encodable rt -> is_surrogate c = false -> encodable (char_upper rt c) = true.
Proof.
  intros Hrt Hc. unfold char_upper.
  destruct (N.ltb_spec c 128) as [Hlt | _].
  - unfold encodable. cbn [forallb]. rewrite andb_true_r.
    apply negb_true_iff. unfold is_surrogate. apply andb_false_iff. left.
    apply N.leb_gt. destruct (is_ascii_lower c); lia.
  - rewrite Hc. destruct (known_char c) as [i |] eqn:Hi.
    + unfold encodable. cbn [forallb].
      rewrite (known_upper_encodable c i Hi). reflexivity.
    + apply Hrt, Hc.
Qed.

Lemma alpha_not_surrogate rt c : char_isalpha rt c = true -> is_surrogate c = false.
Proof.
  unfold char_isalpha. destruct (N.ltb_spec c 128) as [Hlt | _].
  - intros _. unfold is_surrogate. apply andb_false_iff. left. apply N.leb_gt. lia.
  - destruct (is_surrogate c); [discriminate | reflexivity].
Qed.

(** An action word starts with an alphabetic character. *)
Lemma action_word_head rt action :
  is_action_word rt action = true ->
  exists c s, action = c :: s /\ is_surrogate c = false.
Proof.
  unfold is_action_word. intros H.
  apply andb_true_iff in H as [H _]. apply andb_true_iff in H as [_ H].
  destruct action as [| c s]; [discriminate |].
  cbn [isalpha forallb] in H. apply andb_true_iff in H as [Hc _].
  exists c, s. split; [reflexivity | exact (alpha_not_surrogate rt c Hc)].
Qed.

Lemma encodable_app a b : encodable (a ++ b) = encodable a && encodable b.
Proof. apply forallb_app. Qed.

Lemma encodable_take n s : encodable s = true -> encodable (take n s) = true.
Proof. apply forallb_take. Qed.

Lemma returns_initials rt (l : list pystr) w :
  upper_encodable rt ->
  Forall (fun a => is_action_word rt a = true) l ->
  returns (mapM (fun action => let* c := first_char action in ret (char_upper rt c)) l) w
          (fun initials => encodable (concat initials) = true).
Proof.
  intros Hrt Hl. revert w. induction Hl as [| a l Ha _ IH]; intros w.
  - apply returns_ret. reflexivity.
  - cbn [mapM]. destruct (action_word_head rt a Ha) as (c & s & -> & Hc).
    eapply returns_bind_eq; [reflexivity |].
    eapply returns_bind; [apply IH |]. intros ys w1 Hys.
    apply returns_ret. cbn [concat]. rewrite encodable_app, Hys, andb_true_r.
    apply char_upper_encodable; assumption.
Qed.

Lemma returns_generate_biometric_hash rt se bd w :
  upper_encodable rt ->
  Forall (fun a => is_action_word rt a = true) (actions se) ->
  encodable (get2 bd complexity_score []) = true ->
  encodable (get2 bd bs_signature []) = true ->
  returns (generate_biometric_hash rt se bd) w (hex_string 6).
Proof.
  intros Hrt Ha Hscore Hsig. unfold generate_biometric_hash.
  eapply returns_bind with (P := fun s => encodable s = true).
  { destruct (actions se) as [| a l] eqn:Hactions; [apply returns_ret; reflexivity |].
    eapply returns_bind; [apply (returns_initials rt _ _ Hrt), Forall_take, Ha |].
    intros initials w1 H. apply returns_ret. exact H. }
  intros action_signature w1 Hinit. cbv zeta.
  destruct (truthy _).
  - eapply returns_bind.
    { apply utf8_encode_returns. fold (encodable (action_signature
        ++ get2 bd complexity_score [] ++ get2 bd bs_signature [])).
      rewrite !encodable_app, Hinit, Hscore, Hsig. reflexivity. }
    intros bytes w2 _. apply returns_ret.
    apply (hex_string_take 64 _ 6 0). lia.
  - apply returns_token_hex.
Qed.

Lemma returns_apply_entropy_randomization rt text entropy_percent context w :
  returns (apply_entropy_randomization rt text entropy_percent context) w (fun _ => True).
Proof.
  unfold apply_entropy_randomization.
  destruct (negb (truthy text)); [apply returns_ret; exact I |]. cbv zeta.
  destruct (if pystr_eqb context (lit "movement") then _ else None);
    [apply returns_ret; exact I |].
  eapply returns_weaken; [apply returns_randomize_from; lia | auto].
Qed.

Lemma returns_extract_multi_source_descriptor rt se w :
  returns (_extract_multi_source_descriptor rt se) w (fun _ => True).
Proof.
  unfold _extract_multi_source_descriptor.
  eapply returns_bind with (P := fun _ => True); [| intros; apply returns_ret; exact I].
  destruct (qualifiers se); [| apply returns_apply_entropy_randomization].
  destruct (descriptors se); [| apply returns_apply_entropy_randomization].
  destruct (actions se) as [| ? [| ? ?]];
    [apply returns_ret; exact I | apply returns_ret; exact I
     | apply returns_apply_entropy_randomization].
Qed.

Lemma returns_create_advanced_movement_signature rt se cm w :
  upper_encodable rt ->
  Forall (fun a => is_action_word rt a = true) (actions se) ->
  encodable_modifiers cm ->
  returns (_create_advanced_movement_signature rt se cm) w (hex_string 4).
Proof.
  intros Hrt Ha (_ & Hsig & Hme). unfold _create_advanced_movement_signature. cbv zeta.
  eapply returns_bind.
  { apply utf8_encode_returns.
    match goal with |- forallb _ ?s = true => change (encodable s = true) end.
    unfold or_else. destruct (truthy _); [| reflexivity].
    rewrite !encodable_app, !encodable_take by assumption.
    rewrite !andb_true_l.
    apply andb_true_iff. split.
    - apply forallb_forall. intros c Hc.
      apply in_flat_map in Hc as (action & Haction & Hc).
      apply (In_take 2) in Haction.
      rewrite List.Forall_forall in Ha.
      destruct (action_word_head rt action (Ha _ Haction)) as (c0 & s & -> & Hc0).
      pose proof (char_upper_encodable rt c0 Hrt Hc0) as Hup.
      unfold encodable in Hup. rewrite forallb_forall in Hup. exact (Hup c Hc).
    - destruct (pystr_eqb _ _); [reflexivity |]. destruct (pystr_eqb _ _); reflexivity. }
  intros bytes w1 _. apply returns_ret. apply (hex_string_take 32 _ 4 0). lia.
Qed.

Lemma returns_assemble_password rt se cm w :
  upper_encodable rt ->
  Forall (fun a => is_action_word rt a = true) (actions se) ->
  encodable_modifiers cm ->
  returns (assemble_password rt se cm) w
          (fun p => has rt greek_markers p = true /\ min_length_of cm <= len p <= 22).
Proof.
  intros Hrt Ha Hcm. unfold assemble_password.
  eapply returns_bind.
  { apply returns_generate_biometric_hash; [exact Hrt | exact Ha | apply Hcm | apply Hcm]. }
  intros biometric_hash w1 _.
  eapply returns_bind with (P := fun _ => True).
  { destruct (actions se); [apply returns_ret; exact I |].
    apply returns_apply_entropy_randomization. }
  intros action w2 _.
  eapply returns_bind; [apply returns_extract_multi_source_descriptor |].
  intros descriptor w3 _.
  eapply returns_bind;
    [apply returns_create_advanced_movement_signature; assumption |].
  intros movement_signature w4 _. cbv zeta.
  eapply returns_bind; [apply returns_token_hex |]. intros unused_default w5 _.
  eapply returns_bind; [apply returns_token_hex |]. intros random_component w6 _.
  eapply returns_bind; [apply select_template_in |]. intros template w7 Htemplate.
  eapply returns_bind with (P := fun _ => True).
  { match goal with
    | |- returns (_dynamic_password_assembly _ _ (password_components ?a ?m ?b ?t ?e ?h ?r ?s)) _ _ =>
        destruct (format_known_template rt template a m b t e h r s Htemplate) as [p Hp]
    end.
    unfold _dynamic_password_assembly. rewrite Hp. apply returns_ret. exact I. }
  intros password w8 _.
  eapply returns_weaken; [apply returns_ensure_advanced_complexity_markers |].
  cbv beta. intros p (Hg & _ & Hlen). auto.
Qed.

Lemma returns_generate_password_report rt movement_analysis movement_summary w :
  upper_encodable rt ->
  returns (generate_password_body (MovementPasswordGenerator rt)
             movement_analysis movement_summary) w
    (fun r => generation_method r = lit "advanced_biometric_extraction"
              /\ has rt greek_markers (password r) = true
              /\ 12 <= len (password r) <= 22
              /\ exists se cm,
                   components r
                   = PipelineComponents se cm
                       (analyze_extraction_effectiveness rt (full_text se) se)
                   /\ well_formed_elements rt se
                   /\ (exists c, compound_modifier cm = Some c /\ hex_string 4 c)
                   /\ min_length_of cm <= len (password r)
                   /\ strength_analysis r
                      = Some (assess_password_strength rt (password r) (Some cm))
                   /\ strength r
                      = sa_strength (assess_password_strength rt (password r) (Some cm))
                   /\ security_features r = Some (_get_security_features_summary cm)).
Proof.
  intros Hrt. unfold generate_password_body. unfold_methods.
  eapply returns_bind; [apply returns_extract_semantic_elements |].
  intros ae w1 [(_ & _ & Ha & _) _].
  eapply returns_bind; [apply returns_extract_semantic_elements |].
  intros se w2 [(_ & _ & Hs & _) _].
  eapply returns_bind; [apply (returns_merge_field _ _ _ _ Hs Ha) |].
  intros merged_actions w3 [Hnd_a Hactions].
  eapply returns_bind;
    [apply (returns_merge_field _ _ _ _ (Forall_True _) (Forall_True _)) |].
  intros merged_descriptors w4 [Hnd_d _].
  eapply returns_bind;
    [apply (returns_merge_field _ _ _ _ (Forall_True _) (Forall_True _)) |].
  intros merged_qualifiers w5 [Hnd_q _]. cbv zeta.
  eapply returns_bind_eq; [reflexivity |].
  eapply returns_bind; [apply returns_generate_contextual_modifiers |].
  intros cm w6 [(_ & _ & Hcompound & _) Hcm].
  eapply returns_bind.
  { apply returns_assemble_password; [exact Hrt | | exact Hcm].
    cbn [actions]. apply Forall_take, Hactions. }
  intros p w7 [Hg Hlen].
  eapply returns_bind_eq; [reflexivity |].
  eapply returns_bind_eq; [reflexivity |].
  apply returns_ret.
  cbn [generation_method password components strength_analysis strength security_features].
  split; [reflexivity |]. split; [exact Hg |].
  pose proof (min_length_of_range cm).
  split; [lia |]. eexists _, cm. split; [reflexivity |].
  split.
  { unfold well_formed_elements. cbn [actions descriptors qualifiers].
    rewrite !length_take.
    repeat split; auto using NoDup_take, Forall_take; lia. }
  split; [exact Hcompound |]. split; [lia |].
  split; [reflexivity |]. split; reflexivity.
Qed.

(** X23. With a character database whose upper-casing yields no
    surrogate, [generate_password] never takes its fallback path: for
    every analysis and summary and every state of the world the body of
    the [try] block returns, so the result is the one of the normal path,
    marked "advanced_biometric_extraction", with a password of 12 to 22
    characters that contains a Greek marker. *)
Theorem generate_password_normal_path (rt : Runtime)
    (movement_analysis movement_summary : pystr) (w : World) :
  upper_encodable rt ->
  exists r w',
    generate_password_body (MovementPasswordGenerator rt)
      movement_analysis movement_summary w = (Ok r, w')
    /\ generate_password (MovementPasswordGenerator rt)
         movement_analysis movement_summary w = (Ok r, w')
    /\ generation_method r = lit "advanced_biometric_extraction"
    /\ has rt greek_markers (password r) = true
    /\ 12 <= len (password r) <= 22.
Proof.
  intros Hrt.
  destruct (returns_generate_password_report rt movement_analysis movement_summary w Hrt)
    as (r & w' & Hrun & Hmethod & Hg & Hlen & _).
  exists r, w'. split; [exact Hrun |].
  split; [unfold generate_password, try_except; rewrite Hrun; reflexivity |].
  auto.
Qed.

Lemma generate_password_normal_path_witness :
  exists r w',
    generate_password (MovementPasswordGenerator plain_runtime)
      (lit "The person is walking slowly and waving the left hand")
      (lit "Walking and waving") (constant_world 0) = (Ok r, w')
    /\ generation_method r = lit "advanced_biometric_extraction"
    /\ 12 <= len (password r) <= 22.
Proof.
  destruct (generate_password_normal_path plain_runtime
              (lit "The person is walking slowly and waving the left hand")
              (lit "Walking and waving") (constant_world 0))
    as (r & w' & _ & Hrun & Hmethod & _ & Hlen).
  - intros c Hc. unfold encodable. cbn. rewrite Hc. reflexivity.
  - exists r, w'. auto.
Defined.

(** ** The report of a run *)

Section Report.
Variable rt : Runtime.

Lemma factor_kept_when b (f : tally -> tally) t y :
  (forall t0, In y (t_factors t0) -> In y (t_factors (f t0))) ->
  In y (t_factors t) -> In y (t_factors (when b f t)).
Proof. intros Hf H. unfold when. destruct b; auto. Qed.

Lemma recommendation_kept_out_when b (f : tally -> tally) t x :
  (forall t0, ~ In x (t_recommendations t0) -> ~ In x (t_recommendations (f t0))) ->
  ~ In x (t_recommendations t) -> ~ In x (t_recommendations (when b f t)).
Proof. intros Hf H. unfold when. destruct b; auto. Qed.

Ltac keep_factor :=
  lazymatch goal with
  | |- In _ (t_factors (when _ _ _)) =>
      apply factor_kept_when;
      [intros ? ?; cbn [t_factors add_factor add_score add_type add_recommendation];
       auto using in_or_app |]
  | |- In _ (t_factors (add_score _ _)) => cbn [t_factors add_score]
  | |- In _ (t_factors (add_factor _ _)) =>
      cbn [t_factors add_factor]; apply in_or_app;
      first [right; left; reflexivity | left]
  | |- In _ (t_factors (if ?c then _ else _)) => destruct c
  | |- In _ (t_factors (match ?d with Some _ => _ | None => _ end)) => destruct d
  end.

Lemma length_factor_listed password contextual_data :
  12 <= len password ->
  In (lit "Good length (12+ chars)")
     (sa_factors (assess_password_strength rt password contextual_data))
  \/ In (lit "Excellent length (16+ chars)")
        (sa_factors (assess_password_strength rt password contextual_data)).
Proof.
  intros Hlen. unfold assess_password_strength. cbv zeta. cbn [sa_factors].
  unfold score_tally. cbv zeta.
  destruct (N.leb_spec 16 (len password)) as [H16 | H16].
  - right. repeat keep_factor; cbn; auto.
  - destruct (N.leb_spec 12 (len password)) as [H12 | H12]; [| lia].
    left. repeat keep_factor; cbn; auto.
Qed.

Ltac keep_out :=
  lazymatch goal with
  | |- ~ In _ (t_recommendations (when _ _ _)) =>
      apply recommendation_kept_out_when;
      [intros ? ?;
       cbn [t_recommendations add_factor add_score add_type add_recommendation];
       try (rewrite in_app_iff; intros [? | [? | []]]; [contradiction | discriminate]);
       auto |]
  | |- ~ In _ (t_recommendations (add_score _ _)) => cbn [t_recommendations add_score]
  | |- ~ In _ (t_recommendations (add_factor _ _)) => cbn [t_recommendations add_factor]
  | |- ~ In _ (t_recommendations (if ?c then _ else _)) => destruct c
  | |- ~ In _ (t_recommendations (match ?d with Some _ => _ | None => _ end)) => destruct d
  end.

Lemma no_length_recommendation password contextual_data :
  12 <= len password ->
  ~ In (lit "Increase length to 12+ characters")
       (sa_recommendations (assess_password_strength rt password contextual_data)).
Proof.
  intros Hlen. unfold assess_password_strength. cbv zeta. cbn [sa_recommendations].
  unfold score_tally. cbv zeta.
  destruct (N.leb_spec 16 (len password)) as [H16 | H16];
    [| destruct (N.leb_spec 12 (len password)) as [H12 | H12]; [| lia]];
    repeat keep_out; cbn; auto.
Qed.

Lemma hashing_feature_listed cm :
  (exists c, compound_modifier cm = Some c /\ hex_string 4 c) ->
  In (lit "Multi-layered cryptographic hashing") (_get_security_features_summary cm)
  /\ (5 <= length (_get_security_features_summary cm) <= 6)%nat.
Proof.
  intros (c & Hc & Hlen & _). unfold _get_security_features_summary. cbv zeta.
  rewrite Hc. destruct c as [| ch c]; [discriminate |].
  change (truthy (default [] (Some (ch :: c)))) with true. cbv iota.
  split.
  - apply in_or_app. right. apply in_or_app. right. left. reflexivity.
  - rewrite !length_app. destruct (mem_str _ _); cbn [length]; lia.
Qed.
End Report.

(** X24. With a character database whose upper-casing yields no
    surrogate, the report of every call of [generate_password] has a
    strength analysis whose factors list a length factor ("Good length
    (12+ chars)" or "Excellent length (16+ chars)") and whose
    recommendations never ask to increase the length; its strength is the
    tier of that analysis; and its security features, five or six in
    number, always list "Multi-layered cryptographic hashing". *)
Theorem generate_password_report (rt : Runtime)
    (movement_analysis movement_summary : pystr) (w : World) :
  upper_encodable rt ->
  returns (generate_password (MovementPasswordGenerator rt)
             movement_analysis movement_summary) w
    (fun r =>
       (exists sa,
          strength_analysis r = Some sa
          /\ strength r = sa_strength sa
          /\ In (strength r) strength_tiers
          /\ (In (lit "Good length (12+ chars)") (sa_factors sa)
              \/ In (lit "Excellent length (16+ chars)") (sa_factors sa))
          /\ ~ In (lit "Increase length to 12+ characters") (sa_recommendations sa))
       /\ (exists features,
             security_features r = Some features
             /\ In (lit "Multi-layered cryptographic hashing") features
             /\ (5 <= length features <= 6)%nat)).
Proof.
  intros Hrt. apply returns_try_ok.
  eapply returns_weaken; [apply returns_generate_password_report, Hrt |].
  cbv beta.
  intros r (_ & _ & Hlen & se & cm & _ & _ & Hcompound & _ & Hsa & Hstrength & Hfeatures).
  split.
  - eexists. split; [exact Hsa |]. split; [exact Hstrength |].
    split; [rewrite Hstrength; apply strength_of_score_tier |].
    split; [apply length_factor_listed; lia | apply no_length_recommendation; lia].
  - eexists. split; [exact Hfeatures |]. apply hashing_feature_listed, Hcompound.
Qed.

Lemma generate_password_report_witness :
  returns (generate_password (MovementPasswordGenerator plain_runtime)
             (lit "The person is walking slowly and waving the left hand")
             (lit "Walking and waving")) (constant_world 0)
    (fun r => exists sa features,
       strength_analysis r = Some sa /\ security_features r = Some features
       /\ In (lit "Multi-layered cryptographic hashing") features
       /\ ~ In (lit "Increase length to 12+ characters") (sa_recommendations sa)).
Proof.
  eapply returns_weaken.
  - apply (generate_password_report plain_runtime).
    intros c Hc. unfold encodable. cbn. rewrite Hc. reflexivity.
  - cbv beta. intros r [(sa & Hsa & _ & _ & _ & Hrec) (features & Hf & Hin & _)].
    exists sa, features. auto.
Defined.
